(** * AI Themer: palette construction, role assignment, extraction and
      theme application

    A shallow embedding of the Python package [ai_themer]
    ([core/color_types.py], [core/color_extractor.py],
    [core/theme_applier.py]) together with the properties its
    specification states about it.

    Conventions of the embedding

    - Python [int] is [Z]; Python [float] is idealised as an exact rational
      [Q] (no rounding, no NaN, no infinities).  The only operation of the
      code with an irrational result, the power [x ** 2.4] of the WCAG gamma
      expansion, is a parameter [fpow].  Division is the total division of
      [Q]; the divisors of the code (255, 4.5, luminance + 0.05, the HLS
      ranges after the test for grey, the number of colours) are not zero
      on colours whose channels lie in [0, 255].
    - [lighten] is the exception: it truncates float products to integer
      channels, so its result depends on the rounding of every operation.
      It is computed on IEEE 754 binary64 numbers ([Float64]: each
      operation is the exact one followed by rounding to nearest, ties to
      even), with the variant of [colorsys.rgb_to_hls] of the running
      CPython as a parameter.
    - Python [str] is [string] (one [ascii] per character).
    - A raised exception is the [Raise] alternative of [result]; [try] /
      [except Exception] is [try_except].
    - Objects that the code mutates after sharing them (the [SemanticColor]
      instances of [ColorPalette.from_colors]) live in a heap and are named
      by references.
    - Third-party libraries (PIL, scikit-learn, colorspacious, ColorThief,
      numpy, subprocess, the template engine) are parameters. *)

From Stdlib Require Import ZArith QArith Qround Qminmax Bool List String Ascii Lia Lqa.
From Stdlib Require Import Permutation Sorted.
Import ListNotations.

Open Scope string_scope.
Open Scope Z_scope.

(* ===================================================================== *)
(** * Exceptions *)
(* ===================================================================== *)

Inductive exn : Type :=
| ValueError (msg : string)
| IndexError
| KeyError (key : string)
| FileNotFoundError (path : string)
| SameFileError (path : string)
| TimeoutExpired
| LibraryError (msg : string).

Inductive result (A : Type) : Type :=
| Ok (a : A)
| Raise (e : exn).

Arguments Ok {A} a.
Arguments Raise {A} e.

Definition bind {A B} (m : result A) (k : A -> result B) : result B :=
  match m with
  | Ok a => k a
  | Raise e => Raise e
  end.

(** [try: m  except Exception: h] *)
Definition try_except {A} (m : result A) (h : exn -> result A) : result A :=
  match m with
  | Ok a => Ok a
  | Raise e => h e
  end.

(** [str(e)] *)
Definition str_exn (e : exn) : string :=
  match e with
  | ValueError msg => msg
  | IndexError => "list index out of range"
  | KeyError key => key
  | FileNotFoundError path => "No such file or directory: " ++ path
  | SameFileError path => path ++ " is the same file"
  | TimeoutExpired => "timed out"
  | LibraryError msg => msg
  end.

Definition is_ok {A} (m : result A) : bool :=
  match m with Ok _ => true | Raise _ => false end.

Declare Scope result_scope.
Delimit Scope result_scope with result.
Notation "x <- m ;; k" := (bind m (fun x => k))
  (at level 61, m at next level, right associativity) : result_scope.
Notation "' pat <- m ;; k" := (bind m (fun x => match x with pat => k end))
  (at level 61, pat pattern, m at next level, right associativity) : result_scope.
Open Scope result_scope.

(* ===================================================================== *)
(** * Python built-ins used by the code *)
(* ===================================================================== *)

Module Py.

  (** [min(a, b)] keeps [a] unless [b < a]; [max(a, b)] keeps [a] unless
      [b > a]. *)
Definition minZ (a b : Z) : Z := if b <? a then b else a.
Definition maxZ (a b : Z) : Z := if a <? b then b else a.

Definition Qltb (a b : Q) : bool := negb (Qle_bool b a).

Definition minQ (a b : Q) : Q := if Qltb b a then b else a.
Definition maxQ (a b : Q) : Q := if Qltb a b then b else a.

  (** [str.lstrip(ch)] for a one-character argument. *)
Fixpoint lstrip (ch : ascii) (s : string) : string :=
    match s with
    | String c s' => if Ascii.eqb c ch then lstrip ch s' else s
    | EmptyString => EmptyString
    end.

  (** [''.join([c*2 for c in s])] *)
Fixpoint double_chars (s : string) : string :=
    match s with
    | String c s' => String c (String c (double_chars s'))
    | EmptyString => EmptyString
    end.

  (** [s[i:j]] for [0 <= i <= j]. *)
Definition slice (i j : nat) (s : string) : string := substring i (j - i) s.

Definition len (s : string) : Z := Z.of_nat (String.length s).

  (** One lowercase hexadecimal digit, for [0 <= d < 16]. *)
Definition hex_digit (d : Z) : ascii :=
    if d <? 10 then ascii_of_N (Z.to_N (48 + d)) else ascii_of_N (Z.to_N (87 + d)).

Fixpoint hex_of_pos_fuel (fuel : nat) (n : Z) (acc : string) : string :=
    match fuel with
    | O => acc
    | S fuel' =>
        let acc' := String (hex_digit (n mod 16)) acc in
        if n / 16 =? 0 then acc' else hex_of_pos_fuel fuel' (n / 16) acc'
    end.

  (** [format(n, 'x')] for [n >= 0]. *)
Definition hex_of_nonneg (n : Z) : string :=
    hex_of_pos_fuel (S (Z.to_nat (Z.log2 n))) n "".

Fixpoint zeros (k : nat) : string :=
    match k with O => "" | S k' => String "0" (zeros k') end.

  (** [f"{n:02x}"]: lowercase hexadecimal, zero-padded after the sign to a
      total width of at least 2. *)
Definition format_02x (n : Z) : string :=
    if n <? 0 then
      let d := hex_of_nonneg (- n) in
      String "-" (zeros (1 - String.length d) ++ d)
    else
      let d := hex_of_nonneg n in
      zeros (2 - String.length d) ++ d.

  (** Value of a hexadecimal digit (either case). *)
Definition hex_value (c : ascii) : option Z :=
    let n := Z.of_N (N_of_ascii c) in
    if (48 <=? n) && (n <=? 57) then Some (n - 48)
    else if (97 <=? n) && (n <=? 102) then Some (n - 87)
    else if (65 <=? n) && (n <=? 70) then Some (n - 55)
    else None.

Definition is_hex_digit (c : ascii) : bool :=
    match hex_value c with Some _ => true | None => false end.

Definition is_lower_hex_digit (c : ascii) : bool :=
    let n := Z.of_N (N_of_ascii c) in
    ((48 <=? n) && (n <=? 57)) || ((97 <=? n) && (n <=? 102)).

Fixpoint all_chars (p : ascii -> bool) (s : string) : bool :=
    match s with
    | String c s' => p c && all_chars p s'
    | EmptyString => true
    end.

Fixpoint int16_digits (s : string) (acc : Z) : result Z :=
    match s with
    | EmptyString => Ok acc
    | String c s' =>
        match hex_value c with
        | Some d => int16_digits s' (16 * acc + d)
        | None => Raise (ValueError "invalid literal for int() with base 16")
        end
    end.

  (** [int(s, 16)] on strings of hexadecimal digits; the empty string and
      any other character give [ValueError].  (The built-in also tolerates a
      sign, surrounding white space, a [0x] prefix and single underscores;
      those inputs are outside this model and none of the results below is
      about them.) *)
Definition int16 (s : string) : result Z :=
    match s with
    | EmptyString => Raise (ValueError "invalid literal for int() with base 16")
    | _ => int16_digits s 0
    end.

End Py.

(* ===================================================================== *)
(** * color_types.py: ColorRole and SemanticColor *)
(* ===================================================================== *)

Inductive ColorRole : Type :=
| PRIMARY | SECONDARY | ACCENT | BACKGROUND | SURFACE
| TEXT | TEXT_SECONDARY | BORDER | WARNING | ERROR.

Definition ColorRole_eqb (a b : ColorRole) : bool :=
  match a, b with
  | PRIMARY, PRIMARY | SECONDARY, SECONDARY | ACCENT, ACCENT
  | BACKGROUND, BACKGROUND | SURFACE, SURFACE | TEXT, TEXT
  | TEXT_SECONDARY, TEXT_SECONDARY | BORDER, BORDER
  | WARNING, WARNING | ERROR, ERROR => true
  | _, _ => false
  end.

Record SemanticColor : Type := mkSemanticColor {
  r : Z;
  g : Z;
  b : Z;
  role : ColorRole;
  confidence : Q;
  alpha : Z
}.

Module SemanticColor.

  (** [SemanticColor(r, g, b, role, confidence, alpha)]: the dataclass
      constructor followed by [__post_init__]. *)
Definition init (r g b : Z) (role : ColorRole) (confidence : Q) (alpha : Z)
    : SemanticColor :=
    {| r := Py.maxZ 0 (Py.minZ 255 r);
       g := Py.maxZ 0 (Py.minZ 255 g);
       b := Py.maxZ 0 (Py.minZ 255 b);
       role := role;
       confidence := Py.maxQ 0 (Py.minQ 1 confidence);
       alpha := Py.maxZ 0 (Py.minZ 255 alpha) |}.

  (** Field defaults of the dataclass. *)
Definition default_confidence : Q := 1.
Definition default_alpha : Z := 255.

Definition hex (c : SemanticColor) : string :=
    "#" ++ Py.format_02x (r c) ++ Py.format_02x (g c) ++ Py.format_02x (b c).

Definition hex_with_alpha (c : SemanticColor) : string :=
    hex c ++ Py.format_02x (alpha c).

Definition rgb (c : SemanticColor) : Z * Z * Z := (r c, g c, b c).

Definition from_rgb (r g b : Z) (role : ColorRole) : SemanticColor :=
    init r g b role default_confidence default_alpha.

Definition from_hex (hex_color : string) (role : ColorRole) : result SemanticColor :=
    let hex_color := Py.lstrip "#" hex_color in
    hex_color <-
      (if Py.len hex_color =? 3 then Ok (Py.double_chars hex_color)
       else if Py.len hex_color =? 6 then Ok hex_color
       else if Py.len hex_color =? 8 then
         _alpha <- Py.int16 (Py.slice 6 8 hex_color) ;;
         Ok (Py.slice 0 6 hex_color)
       else Raise (ValueError ("Invalid hex color format: " ++ hex_color))) ;;
    r <- Py.int16 (Py.slice 0 2 hex_color) ;;
    g <- Py.int16 (Py.slice 2 4 hex_color) ;;
    b <- Py.int16 (Py.slice 4 6 hex_color) ;;
    Ok (init r g b role default_confidence default_alpha).

Definition set_role (c : SemanticColor) (ro : ColorRole) : SemanticColor :=
    {| r := r c; g := g c; b := b c; role := ro;
       confidence := confidence c; alpha := alpha c |}.

Definition with_alpha (c : SemanticColor) (a : Z) : SemanticColor :=
    init (r c) (g c) (b c) (role c) (confidence c) a.

End SemanticColor.


(* ===================================================================== *)
(** * Floating-point helpers and the [colorsys] module *)
(* ===================================================================== *)

(** What the code takes from the floating-point library of the Python it
    runs on.  [x ** y] has an irrational result in general, so the
    operation is a parameter of the development.  [colorsys.rgb_to_hls]
    differs between CPython versions in one expression (gh-106498): the
    saturation of a light colour is [rangec / (2.0-sumc)] before the change
    (CPython 3.11.2, say) and [rangec / (2.0-maxc-minc)] after it; the two
    round differently, and [lighten] shows the difference in about one
    colour in 300. *)
Class FloatPow : Type := {
  fpow : Q -> Q -> Q;
  colorsys_subtracts_sumc : bool
}.

Module PyFloat.

  (** [int(x)]: truncation towards zero. *)
Definition to_int (x : Q) : Z := Z.quot (Qnum x) (Zpos (Qden x)).

  (** [x % 1.0] *)
Definition mod1 (x : Q) : Q := (x - inject_Z (Qfloor x))%Q.

Definition ge (a b : Q) : bool := Qle_bool b a.
Definition le (a b : Q) : bool := Qle_bool a b.
Definition eq (a b : Q) : bool := Qeq_bool a b.

Definition sum (l : list Q) : Q := fold_left Qplus l 0%Q.

  (** [np.mean] of a non-empty list. *)
Definition mean (l : list Q) : Q := (sum l / inject_Z (Z.of_nat (List.length l)))%Q.

End PyFloat.

(** The functions of the standard module [colorsys] that [color_types.py]
    calls, over exact rationals. *)
Module colorsys.

Definition ONE_THIRD : Q := (1 / 3)%Q.
Definition ONE_SIXTH : Q := (1 / 6)%Q.
Definition TWO_THIRD : Q := (2 / 3)%Q.

Definition rgb_to_hls (r g b : Q) : Q * Q * Q :=
    let maxc := Py.maxQ (Py.maxQ r g) b in
    let minc := Py.minQ (Py.minQ r g) b in
    let sumc := (maxc + minc)%Q in
    let rangec := (maxc - minc)%Q in
    let l := (sumc / 2)%Q in
    if PyFloat.eq minc maxc then (0%Q, l, 0%Q)
    else
      let s := if PyFloat.le l 0.5 then (rangec / sumc)%Q
               else (rangec / (2 - maxc - minc))%Q in
      let rc := ((maxc - r) / rangec)%Q in
      let gc := ((maxc - g) / rangec)%Q in
      let bc := ((maxc - b) / rangec)%Q in
      let h := if PyFloat.eq r maxc then (bc - gc)%Q
               else if PyFloat.eq g maxc then (2 + rc - bc)%Q
               else (4 + gc - rc)%Q in
      (PyFloat.mod1 (h / 6), l, s).

Definition _v (m1 m2 hue : Q) : Q :=
    let hue := PyFloat.mod1 hue in
    if Py.Qltb hue ONE_SIXTH then (m1 + (m2 - m1) * hue * 6)%Q
    else if Py.Qltb hue 0.5 then m2
    else if Py.Qltb hue TWO_THIRD then (m1 + (m2 - m1) * (TWO_THIRD - hue) * 6)%Q
    else m1.

Definition hls_to_rgb (h l s : Q) : Q * Q * Q :=
    if PyFloat.eq s 0 then (l, l, l)
    else
      let m2 := if PyFloat.le l 0.5 then (l * (1 + s))%Q else (l + s - l * s)%Q in
      let m1 := (2 * l - m2)%Q in
      (_v m1 m2 (h + ONE_THIRD), _v m1 m2 h, _v m1 m2 (h - ONE_THIRD)).

End colorsys.

(** IEEE 754 binary64 numbers, as the rationals they denote.  The exponent
    range is not modelled: the numbers of [lighten] lie far inside it. *)
Module Float64.

  (** The float nearest to [n / d] (ties to even): [n / d] is scaled by
      [2 ^ k] into [[2 ^ 52, 2 ^ 53)] and rounded to an integer there. *)
Definition round_pos (n d : positive) : Q :=
    let k0 := 52 - (Z.log2 (Zpos n) - Z.log2 (Zpos d)) in
    let k := if Zpos n * 2 ^ Z.max k0 0 <? Zpos d * 2 ^ Z.max (- k0) 0 * 2 ^ 52
             then k0 + 1 else k0 in
    let N := Zpos n * 2 ^ Z.max k 0 in
    let D := Zpos d * 2 ^ Z.max (- k) 0 in
    let m := N / D in
    let rem := N mod D in
    let m := if 2 * rem <? D then m
             else if D <? 2 * rem then m + 1
             else if Z.even m then m else m + 1 in
    if 0 <=? k then Qred (Qmake m (Z.to_pos (2 ^ k)))
    else inject_Z (m * 2 ^ (- k)).

Definition round (x : Q) : Q :=
    match Qnum x with
    | Z0 => 0%Q
    | Zpos n => round_pos n (Qden x)
    | Zneg n => Qopp (round_pos n (Qden x))
    end.

Definition add (x y : Q) : Q := round (x + y).
Definition sub (x y : Q) : Q := round (x - y).
Definition mul (x y : Q) : Q := round (x * y).
Definition div (x y : Q) : Q := round (x / y).

  (** [x % 1.0]: the remainder of the truncated division is exact; a
      negative one is moved up by 1.0, which rounds. *)
Definition mod1 (x : Q) : Q :=
    let f := (x - inject_Z (PyFloat.to_int x))%Q in
    if Py.Qltb f 0 then add f 1 else f.

End Float64.

(** [colorsys] on binary64 numbers, operation by operation. *)
Module colorsys64.

Definition ONE_THIRD : Q := Float64.div 1 3.
Definition ONE_SIXTH : Q := Float64.div 1 6.
Definition TWO_THIRD : Q := Float64.div 2 3.

Definition rgb_to_hls `{FloatPow} (r g b : Q) : Q * Q * Q :=
    let maxc := Py.maxQ (Py.maxQ r g) b in
    let minc := Py.minQ (Py.minQ r g) b in
    let sumc := Float64.add maxc minc in
    let rangec := Float64.sub maxc minc in
    let l := Float64.div sumc 2 in
    if PyFloat.eq minc maxc then (0%Q, l, 0%Q)
    else
      let s := if PyFloat.le l 0.5 then Float64.div rangec sumc
               else if colorsys_subtracts_sumc
               then Float64.div rangec (Float64.sub 2 sumc)
               else Float64.div rangec (Float64.sub (Float64.sub 2 maxc) minc) in
      let rc := Float64.div (Float64.sub maxc r) rangec in
      let gc := Float64.div (Float64.sub maxc g) rangec in
      let bc := Float64.div (Float64.sub maxc b) rangec in
      let h := if PyFloat.eq r maxc then Float64.sub bc gc
               else if PyFloat.eq g maxc then Float64.sub (Float64.add 2 rc) bc
               else Float64.sub (Float64.add 4 gc) rc in
      (Float64.mod1 (Float64.div h 6), l, s).

Definition _v (m1 m2 hue : Q) : Q :=
    let hue := Float64.mod1 hue in
    if Py.Qltb hue ONE_SIXTH
    then Float64.add m1 (Float64.mul (Float64.mul (Float64.sub m2 m1) hue) 6)
    else if Py.Qltb hue 0.5 then m2
    else if Py.Qltb hue TWO_THIRD
    then Float64.add m1
           (Float64.mul (Float64.mul (Float64.sub m2 m1) (Float64.sub TWO_THIRD hue)) 6)
    else m1.

Definition hls_to_rgb (h l s : Q) : Q * Q * Q :=
    if PyFloat.eq s 0 then (l, l, l)
    else
      let m2 := if PyFloat.le l 0.5 then Float64.mul l (Float64.add 1 s)
                else Float64.sub (Float64.add l s) (Float64.mul l s) in
      let m1 := Float64.sub (Float64.mul 2 l) m2 in
      (_v m1 m2 (Float64.add h ONE_THIRD), _v m1 m2 h,
       _v m1 m2 (Float64.sub h ONE_THIRD)).

End colorsys64.

(* ===================================================================== *)
(** * color_types.py: the numeric properties of SemanticColor *)
(* ===================================================================== *)

Module Color.

Definition rgb_float (c : SemanticColor) : Q * Q * Q :=
    (inject_Z (r c) / 255, inject_Z (g c) / 255, inject_Z (b c) / 255)%Q.

  (** [(h * 360, s * 100, l * 100)] *)
Definition hsl (c : SemanticColor) : Q * Q * Q :=
    let '(h, l, s) := colorsys.rgb_to_hls (inject_Z (r c) / 255)
                        (inject_Z (g c) / 255) (inject_Z (b c) / 255) in
    (h * 360, s * 100, l * 100)%Q.

  (** [c.hsl[1]] *)
Definition saturation (c : SemanticColor) : Q := snd (fst (hsl c)).

Definition gamma_correct `{FloatPow} (c : Q) : Q :=
    if PyFloat.le c 0.03928 then (c / 12.92)%Q
    else fpow ((c + 0.055) / 1.055)%Q 2.4%Q.

Definition luminance `{FloatPow} (c : SemanticColor) : Q :=
    let '(r, g, b) := rgb_float c in
    let r := gamma_correct r in
    let g := gamma_correct g in
    let b := gamma_correct b in
    (0.2126 * r + 0.7152 * g + 0.0722 * b)%Q.

Definition is_dark `{FloatPow} (c : SemanticColor) : bool :=
    Py.Qltb (luminance c) 0.5.

Definition is_light `{FloatPow} (c : SemanticColor) : bool :=
    PyFloat.ge (luminance c) 0.5.

Definition contrast_ratio `{FloatPow} (self other : SemanticColor) : Q :=
    let l1 := luminance self in
    let l2 := luminance other in
    let lighter := Py.maxQ l1 l2 in
    let darker := Py.minQ l1 l2 in
    ((lighter + 0.05) / (darker + 0.05))%Q.

Definition darken (self : SemanticColor) (amount : Q) : SemanticColor :=
    let '(h, s, l) := hsl self in
    let new_l := Py.maxQ 0 (l - amount * 100) in
    let '(r, g, b) := colorsys.hls_to_rgb (h / 360) (new_l / 100) (s / 100) in
    SemanticColor.init (PyFloat.to_int (r * 255)) (PyFloat.to_int (g * 255))
      (PyFloat.to_int (b * 255)) (role self) (confidence self)
      SemanticColor.default_alpha.

  (** [self.hsl] as the floats give it. *)
Definition hsl64 `{FloatPow} (c : SemanticColor) : Q * Q * Q :=
    let '(h, l, s) := colorsys64.rgb_to_hls (Float64.div (inject_Z (r c)) 255)
                        (Float64.div (inject_Z (g c)) 255)
                        (Float64.div (inject_Z (b c)) 255) in
    (Float64.mul h 360, Float64.mul s 100, Float64.mul l 100).

  (** [lighten], on binary64 numbers; [amount] is passed as the float
      nearest to it. *)
Definition lighten `{FloatPow} (self : SemanticColor) (amount : Q) : SemanticColor :=
    let amount := Float64.round amount in
    let '(h, s, l) := hsl64 self in
    let new_l := Py.minQ 100 (Float64.add l (Float64.mul amount 100)) in
    let '(r, g, b) := colorsys64.hls_to_rgb (Float64.div h 360)
                        (Float64.div new_l 100) (Float64.div s 100) in
    SemanticColor.init (PyFloat.to_int (Float64.mul r 255))
      (PyFloat.to_int (Float64.mul g 255)) (PyFloat.to_int (Float64.mul b 255))
      (role self) (confidence self) SemanticColor.default_alpha.

  (** The [__eq__] that [@dataclass] generates: field-wise comparison. *)
Definition eqb (x y : SemanticColor) : bool :=
    (r x =? r y) && (g x =? g y) && (b x =? b y)
    && ColorRole_eqb (role x) (role y)
    && PyFloat.eq (confidence x) (confidence y)
    && (alpha x =? alpha y).

End Color.


(* ===================================================================== *)
(** * Lists, dictionaries and the object heap *)
(* ===================================================================== *)

Module PyList.

  (** [l[i]] for [i >= 0]. *)
Definition index {A} (l : list A) (i : nat) : result A :=
    match nth_error l i with
    | Some x => Ok x
    | None => Raise IndexError
    end.

  (** [l[-1]] *)
Definition last_item {A} (l : list A) : result A :=
    match rev l with
    | x :: _ => Ok x
    | [] => Raise IndexError
    end.

  (** [l[i:j]] for [0 <= i], [0 <= j]. *)
Definition slice {A} (i j : nat) (l : list A) : list A :=
    firstn (j - i) (skipn i l).

  (** [l.sort(key=key)] / [sorted(l, key=key)]: the stable ascending sort;
      only [<] on keys is used.  A stable sort has one possible result, so
      insertion sort gives the list the built-in gives. *)
Fixpoint insert_by {A} (key : A -> Q) (x : A) (l : list A) : list A :=
    match l with
    | [] => [x]
    | y :: l' => if Py.Qltb (key y) (key x) then y :: insert_by key x l'
                 else x :: y :: l'
    end.

Definition sort_by {A} (key : A -> Q) (l : list A) : list A :=
    fold_right (insert_by key) [] l.

  (** [l.sort(key=key, reverse=True)]: stable, descending. *)
Fixpoint insert_by_desc {A} (key : A -> Q) (x : A) (l : list A) : list A :=
    match l with
    | [] => [x]
    | y :: l' => if Py.Qltb (key x) (key y) then y :: insert_by_desc key x l'
                 else x :: y :: l'
    end.

Definition sort_by_desc {A} (key : A -> Q) (l : list A) : list A :=
    fold_right (insert_by_desc key) [] l.

  (** [max(l, key=key)] on a non-empty list: the first maximal element. *)
Definition max_by {A} (key : A -> Q) (first : A) (rest : list A) : A :=
    fold_left (fun best x => if Py.Qltb (key best) (key x) then x else best)
      rest first.

  (** [max(l)] and [min(l)] on a non-empty list of floats. *)
Definition maxQ_list (first : Q) (rest : list Q) : Q := fold_left Py.maxQ rest first.
Definition minQ_list (first : Q) (rest : list Q) : Q := fold_left Py.minQ rest first.

End PyList.

(** A [dict] keyed by [ColorRole]; entries are kept in insertion order, as
    Python does. *)
Module Dict.

Definition t (V : Type) : Type := list (ColorRole * V).

Definition empty {V} : t V := [].

Fixpoint get {V} (d : t V) (k : ColorRole) : option V :=
    match d with
    | [] => None
    | (k', v) :: d' => if ColorRole_eqb k' k then Some v else get d' k
    end.

  (** [k in d] *)
Definition mem {V} (d : t V) (k : ColorRole) : bool :=
    match get d k with Some _ => true | None => false end.

  (** [d[k] = v] *)
Fixpoint set {V} (d : t V) (k : ColorRole) (v : V) : t V :=
    match d with
    | [] => [(k, v)]
    | (k', v') :: d' => if ColorRole_eqb k' k then (k', v) :: d'
                        else (k', v') :: set d' k v
    end.

  (** [d[k]] *)
Definition getitem {V} (d : t V) (k : ColorRole) : result V :=
    match get d k with
    | Some v => Ok v
    | None => Raise (KeyError "ColorRole")
    end.

Definition keys {V} (d : t V) : list ColorRole := map fst d.
Definition values {V} (d : t V) : list V := map snd d.

End Dict.

(** The [SemanticColor] objects of one call of [from_colors].  A reference
    is the position of the object in the heap; assigning to an attribute
    of an object updates the heap in place, and every holder of the
    reference sees the change. *)
Module Heap.

Definition ref : Type := nat.
Definition t : Type := list SemanticColor.

Definition null_object : SemanticColor :=
    SemanticColor.init 0 0 0 PRIMARY 1 255.

Definition deref (h : t) (p : ref) : SemanticColor := nth p h null_object.

Fixpoint update (h : t) (p : ref) (f : SemanticColor -> SemanticColor) : t :=
    match h, p with
    | [], _ => []
    | c :: h', O => f c :: h'
    | c :: h', S p' => c :: update h' p' f
    end.

  (** [p.role = ro] *)
Definition set_role (h : t) (p : ref) (ro : ColorRole) : t :=
    update h p (fun c => SemanticColor.set_role c ro).

  (** A new object; its reference is the next free position. *)
Definition alloc (h : t) (c : SemanticColor) : t * ref :=
    ((h ++ [c])%list, List.length h).

End Heap.

(* ===================================================================== *)
(** * color_types.py: ColorPalette *)
(* ===================================================================== *)

Record ColorPalette : Type := mkColorPalette {
  colors : Dict.t SemanticColor;
  source_image : option string;
  extraction_method : option string;
  quality_score : option Q
}.

Module ColorPalette.

Definition required_roles : list ColorRole := [PRIMARY; BACKGROUND; TEXT].

  (** [ColorPalette(colors, source_image, extraction_method)]: the dataclass
      constructor followed by [__post_init__]. *)
Definition init (colors : Dict.t SemanticColor) (source_image : option string)
      (extraction_method : option string) : result ColorPalette :=
    let missing_roles :=
      filter (fun ro => negb (Dict.mem colors ro)) required_roles in
    match missing_roles with
    | _ :: _ => Raise (ValueError "Missing required color roles")
    | [] => Ok {| colors := colors; source_image := source_image;
                  extraction_method := extraction_method;
                  quality_score := None |}
    end.

  (** [palette.extraction_method = method] *)
Definition set_extraction_method (p : ColorPalette) (method : string) : ColorPalette :=
    {| colors := colors p; source_image := source_image p;
       extraction_method := Some method; quality_score := quality_score p |}.

  (** [palette.quality_score = q] *)
Definition set_quality_score (p : ColorPalette) (q : Q) : ColorPalette :=
    {| colors := colors p; source_image := source_image p;
       extraction_method := extraction_method p; quality_score := Some q |}.

Definition get_color (p : ColorPalette) (ro : ColorRole) : option SemanticColor :=
    Dict.get (colors p) ro.

Definition get_primary (p : ColorPalette) : result SemanticColor :=
    Dict.getitem (colors p) PRIMARY.
Definition get_background (p : ColorPalette) : result SemanticColor :=
    Dict.getitem (colors p) BACKGROUND.
Definition get_text (p : ColorPalette) : result SemanticColor :=
    Dict.getitem (colors p) TEXT.
Definition get_accent (p : ColorPalette) : option SemanticColor :=
    Dict.get (colors p) ACCENT.

  (** The result of [validate_contrast]: a [dict] from names to ratios.
      Instances of a dataclass are always truthy, so the tests [if bg and
      text] and [if primary and bg] always pass. *)
Definition validate_contrast `{FloatPow} (p : ColorPalette)
    : result (list (string * Q)) :=
    bg <- get_background p ;;
    text <- get_text p ;;
    let contrasts := [("text_on_background", Color.contrast_ratio text bg)] in
    primary <- get_primary p ;;
    let contrasts :=
      (contrasts ++ [("primary_on_background", Color.contrast_ratio primary bg)])%list in
    match get_accent p with
    | Some accent =>
        Ok (contrasts ++ [("accent_on_background", Color.contrast_ratio accent bg)])%list
    | None => Ok contrasts
    end.

  (** [contrasts.get(name, default)] *)
Fixpoint contrasts_get (d : list (string * Q)) (name : string) (default : Q) : Q :=
    match d with
    | [] => default
    | (k, v) :: d' => if String.eqb k name then v else contrasts_get d' name default
    end.

Definition meets_accessibility_standards `{FloatPow} (p : ColorPalette)
    : result bool :=
    contrasts <- validate_contrast p ;;
    let required_contrast := 4.5%Q in
    let text_contrast := contrasts_get contrasts "text_on_background" 0 in
    Ok (PyFloat.ge text_contrast required_contrast).

  (** The loop [for color in reversed(semantic_colors): if ... : ...; break]. *)
Fixpoint assign_text `{FloatPow} (h : Heap.t) (bg : Heap.ref)
      (candidates : list Heap.ref) (color_map : Dict.t Heap.ref)
    : result (Dict.t Heap.ref * Heap.t) :=
    match candidates with
    | [] => Ok (color_map, h)
    | color :: rest =>
        if PyFloat.ge (Color.contrast_ratio (Heap.deref h color) (Heap.deref h bg)) 3
        then
          let color_map := Dict.set color_map TEXT color in
          text <- Dict.getitem color_map TEXT ;;
          Ok (color_map, Heap.set_role h text TEXT)
        else assign_text h bg rest color_map
    end.

  (** [c in color_map.values()]: identity first, then [==]. *)
Definition in_values (h : Heap.t) (c : Heap.ref) (color_map : Dict.t Heap.ref) : bool :=
    existsb (fun v => Nat.eqb v c || Color.eqb (Heap.deref h v) (Heap.deref h c))
      (Dict.values color_map).

Definition from_colors `{FloatPow} (colors : list (Z * Z * Z))
      (source_image : option string) : result ColorPalette :=
    if Z.of_nat (List.length colors) <? 3 then
      Raise (ValueError "Need at least 3 colors to create a palette")
    else
      (* the objects, sorted by luminance; [semantic_colors] lists them *)
      let h := PyList.sort_by Color.luminance
                 (map (fun '(r, g, b) => SemanticColor.from_rgb r g b PRIMARY) colors) in
      let semantic_colors := seq 0 (List.length h) in
      let color_map := Dict.empty in
      (* Background: darkest color *)
      darkest <- PyList.index semantic_colors 0 ;;
      let color_map := Dict.set color_map BACKGROUND darkest in
      bg <- Dict.getitem color_map BACKGROUND ;;
      let h := Heap.set_role h bg BACKGROUND in
      (* Text: lightest color that has good contrast with background *)
      bg <- Dict.getitem color_map BACKGROUND ;;
      '(color_map, h) <- assign_text h bg (rev semantic_colors) color_map ;;
      '(color_map, h) <-
        (if negb (Dict.mem color_map TEXT) then
           lightest <- PyList.last_item semantic_colors ;;
           let color_map := Dict.set color_map TEXT lightest in
           text <- Dict.getitem color_map TEXT ;;
           Ok (color_map, Heap.set_role h text TEXT)
         else Ok (color_map, h)) ;;
      (* Primary: most saturated of the middle colors *)
      let middle_colors :=
        if (2 <? List.length semantic_colors)%nat
        then PyList.slice 1 (List.length semantic_colors - 1) semantic_colors
        else PyList.slice 1 2 semantic_colors in
      '(color_map, h) <-
        match middle_colors with
        | first :: rest =>
            let most_saturated :=
              PyList.max_by (fun c => Color.saturation (Heap.deref h c)) first rest in
            let color_map := Dict.set color_map PRIMARY most_saturated in
            primary <- Dict.getitem color_map PRIMARY ;;
            Ok (color_map, Heap.set_role h primary PRIMARY)
        | [] =>
            middle <- PyList.index semantic_colors
                        (List.length semantic_colors / 2)%nat ;;
            let color_map := Dict.set color_map PRIMARY middle in
            primary <- Dict.getitem color_map PRIMARY ;;
            Ok (color_map, Heap.set_role h primary PRIMARY)
        end ;;
      (* Secondary and accent colors if we have enough colors *)
      let remaining_colors :=
        filter (fun c => negb (in_values h c color_map)) semantic_colors in
      '(color_map, h) <-
        match remaining_colors with
        | c :: _ =>
            let color_map := Dict.set color_map SECONDARY c in
            secondary <- Dict.getitem color_map SECONDARY ;;
            Ok (color_map, Heap.set_role h secondary SECONDARY)
        | [] => Ok (color_map, h)
        end ;;
      '(color_map, h) <-
        (if (1 <? List.length remaining_colors)%nat then
           c <- PyList.index remaining_colors 1 ;;
           let color_map := Dict.set color_map ACCENT c in
           accent <- Dict.getitem color_map ACCENT ;;
           Ok (color_map, Heap.set_role h accent ACCENT)
         else Ok (color_map, h)) ;;
      (* Surface color: slightly lighter than background *)
      '(color_map, h) <-
        (if negb (Dict.mem color_map SURFACE) then
           bg <- Dict.getitem color_map BACKGROUND ;;
           let '(h, surface) := Heap.alloc h (Color.lighten (Heap.deref h bg) 0.05) in
           let h := Heap.set_role h surface SURFACE in
           Ok (Dict.set color_map SURFACE surface, h)
         else Ok (color_map, h)) ;;
      (* the constructor receives the dictionary of these objects *)
      init (map (fun '(ro, c) => (ro, Heap.deref h c)) color_map)
        source_image (Some "automatic_assignment").

End ColorPalette.


(* ===================================================================== *)
(** * color_extractor.py *)
(* ===================================================================== *)

(** ** The libraries the extractor calls *)

Definition RGB : Type := (Z * Z * Z)%type.
Definition Vec3 : Type := (Q * Q * Q)%type.

(** numpy: [np.sqrt] and [np.std] have irrational results. *)
Class Numpy : Type := {
  np_sqrt : Q -> Q;
  np_std : list Q -> Q
}.

(** colorspacious: [cspace_convert(x, start, end)]. *)
Class Colorspacious : Type := {
  cspace_convert : Vec3 -> string -> string -> Vec3
}.

(** Pillow.  [Image_open] reads the file system, which is fixed during one
    extraction. *)
Class Pillow : Type := {
  Image : Type;
  Image_open : string -> result Image;
  Image_mode : Image -> string;
  Image_convert : Image -> string -> result Image;
  (** [image.thumbnail(size, LANCZOS)], as the image it leaves *)
  Image_thumbnail : Image -> Z * Z -> result Image;
  (** [image.quantize(colors=n, method=MEDIANCUT)] *)
  Image_quantize_mediancut : Image -> Z -> result Image;
  Image_getpalette : Image -> list Z;
  (** [np.array(image).reshape(-1, 3)] *)
  Image_pixels : Image -> list RGB
}.

(** scikit-learn.  [KMeans(n_clusters, random_state, n_init).fit(X)
    .cluster_centers_]; the estimator draws from the global random state
    [RandomState] when [random_state] is [None]. *)
Class Sklearn : Type := {
  RandomState : Type;
  KMeans_fit : Z -> option Z -> Z -> RandomState -> list Vec3 -> result (list Vec3)
}.

(** ColorThief. *)
Class ColorThiefLib : Type := {
  ColorThief : Type;
  ColorThief_init : string -> result ColorThief;
  ColorThief_get_color : ColorThief -> Z -> result RGB;
  ColorThief_get_palette : ColorThief -> Z -> Z -> result (list RGB)
}.

Module ColorExtractionMethod.
Definition KMEANS_LAB := "kmeans_lab".
Definition KMEANS_RGB := "kmeans_rgb".
Definition MEDIAN_CUT := "median_cut".
Definition COLORTHIEF := "colorthief".
Definition ADAPTIVE := "adaptive".
End ColorExtractionMethod.

Record ColorExtractor : Type := mkColorExtractor {
  default_method : string;
  max_colors : Z;
  min_colors : Z;
  resize_image : Z * Z
}.

Module Extractor.
Import ColorExtractionMethod.

  (** [ColorExtractor()] with the default arguments. *)
Definition default : ColorExtractor :=
    {| default_method := KMEANS_LAB; max_colors := 8; min_colors := 3;
       resize_image := (200, 200) |}.

Section WithLibraries.
Context {FP : FloatPow} {NP : Numpy} {CS : Colorspacious} {PIL : Pillow}
            {SK : Sklearn} {CT : ColorThiefLib}.

Definition to_float3 (p : RGB) : Vec3 :=
      let '(r, g, b) := p in (inject_Z r, inject_Z g, inject_Z b).

Definition scale3 (k : Q) (v : Vec3) : Vec3 :=
      let '(x, y, z) := v in (x * k, y * k, z * k)%Q.

Definition div3 (v : Vec3) (k : Q) : Vec3 :=
      let '(x, y, z) := v in (x / k, y / k, z / k)%Q.

    (** [np.clip(v, 0, 1)] *)
Definition clip01 (v : Vec3) : Vec3 :=
      let c := fun x : Q => Py.minQ (Py.maxQ x 0) 1 in
      let '(x, y, z) := v in (c x, c y, c z).

    (** [v.astype(int)] and conversion of the entries to [int]. *)
Definition astype_int (v : Vec3) : RGB :=
      let '(x, y, z) := v in (PyFloat.to_int x, PyFloat.to_int y, PyFloat.to_int z).

Definition _load_and_preprocess_image (self : ColorExtractor) (image_path : string)
      : result Image :=
      try_except
        (image <- Image_open image_path ;;
         image <- (if negb (String.eqb (Image_mode image) "RGB")
                   then Image_convert image "RGB" else Ok image) ;;
         Image_thumbnail image (resize_image self))
        (fun e => Raise (ValueError ("Failed to load image " ++ image_path ++ ": "
                                     ++ str_exn e))).

Definition _extract_kmeans_lab (rng : RandomState) (image : Image) (num_colors : Z)
      : result (list RGB) :=
      let pixels := Image_pixels image in
      let lab_pixels :=
        map (fun pixel =>
               let rgb_normalized := div3 (to_float3 pixel) 255 in
               cspace_convert rgb_normalized "sRGB1" "CIELab") pixels in
      lab_centers <- KMeans_fit num_colors (Some 42) 10 rng lab_pixels ;;
      Ok (map (fun lab_center =>
                 let rgb_normalized := cspace_convert lab_center "CIELab" "sRGB1" in
                 let rgb_normalized := clip01 rgb_normalized in
                 astype_int (scale3 255 rgb_normalized)) lab_centers).

Definition _extract_kmeans_rgb (rng : RandomState) (image : Image) (num_colors : Z)
      : result (list RGB) :=
      let pixels := map to_float3 (Image_pixels image) in
      centers <- KMeans_fit num_colors (Some 42) 10 rng pixels ;;
      Ok (map astype_int centers).

    (** The loop [for i in range(num_colors)] over the palette entries. *)
Fixpoint palette_entries (palette : list Z) (indices : list nat)
      : result (list RGB) :=
      match indices with
      | [] => Ok []
      | i :: rest =>
          r <- PyList.index palette (i * 3) ;;
          g <- PyList.index palette (i * 3 + 1) ;;
          b <- PyList.index palette (i * 3 + 2) ;;
          colors <- palette_entries palette rest ;;
          Ok ((r, g, b) :: colors)
      end.

Definition _extract_median_cut (image : Image) (num_colors : Z)
      : result (list RGB) :=
      quantized <- Image_quantize_mediancut image num_colors ;;
      let palette := Image_getpalette quantized in
      palette_entries palette (seq 0 (Z.to_nat num_colors)).

    (** The body of the [try] in [_extract_colorthief]. *)
Definition colorthief_try (image_path : string) (num_colors : Z)
      : result (list RGB) :=
      color_thief <- ColorThief_init image_path ;;
      if num_colors =? 1 then
        dominant <- ColorThief_get_color color_thief 1 ;;
        Ok [dominant]
      else
        ColorThief_get_palette color_thief num_colors 1.

Definition _extract_colorthief (image_path : string) (num_colors : Z)
      : result (list RGB) :=
      try_except
        (colorthief_try image_path num_colors)
        (fun e =>
           (* Fallback to median cut if ColorThief fails *)
           image <- Image_open image_path ;;
           image <- Image_convert image "RGB" ;;
           _extract_median_cut image num_colors).

    (** *** Quality score *)

Definition lab_distance (color1 color2 : SemanticColor) : Q :=
      let '(l1, a1, b1) := cspace_convert (Color.rgb_float color1) "sRGB1" "CIELab" in
      let '(l2, a2, b2) := cspace_convert (Color.rgb_float color2) "sRGB1" "CIELab" in
      np_sqrt ((l1 - l2) * (l1 - l2) + (a1 - a2) * (a1 - a2) + (b1 - b2) * (b1 - b2))%Q.

    (** The two nested loops of [_calculate_color_diversity], as the pair
        (total_distance, comparisons) they leave. *)
Fixpoint diversity_loop (colors : list SemanticColor) (acc : Q * Z) : Q * Z :=
      match colors with
      | [] => acc
      | color1 :: rest =>
          diversity_loop rest
            (fold_left (fun '(total_distance, comparisons) color2 =>
                          ((total_distance + lab_distance color1 color2)%Q,
                           comparisons + 1))
               rest acc)
      end.

Definition _calculate_color_diversity (colors : list SemanticColor) : Q :=
      if (List.length colors <? 2)%nat then 0%Q
      else
        let '(total_distance, comparisons) := diversity_loop colors (0%Q, 0) in
        let avg_distance :=
          if 0 <? comparisons then (total_distance / inject_Z comparisons)%Q else 0%Q in
        Py.minQ 1 (avg_distance / 100).

Definition _calculate_saturation_balance (colors : list SemanticColor) : Q :=
      let saturations := map Color.saturation colors in
      match saturations with
      | [] => 0%Q
      | _ => let saturation_std := np_std saturations in
             Py.minQ 1 (saturation_std / 50)
      end.

Definition _calculate_luminance_distribution (colors : list SemanticColor) : Q :=
      let luminances := map Color.luminance colors in
      match luminances with
      | [] => 0%Q
      | first :: rest =>
          let luminance_range :=
            (PyList.maxQ_list first rest - PyList.minQ_list first rest)%Q in
          let luminance_std := np_std luminances in
          let range_score := luminance_range in
          let std_score := Py.minQ 1 (luminance_std * 2) in
          ((range_score + std_score) / 2)%Q
      end.

    (** The list [scores] of (name, score, weight) triples. *)
Definition quality_scores (palette : ColorPalette) (image : Image)
      : result (list (string * Q * Q)) :=
      contrast_ratios <- ColorPalette.validate_contrast palette ;;
      let text_contrast :=
        ColorPalette.contrasts_get contrast_ratios "text_on_background" 1 in
      let contrast_score := Py.minQ 1 (text_contrast / 4.5) in
      let colors := Dict.values (colors palette) in
      let diversity_score := _calculate_color_diversity colors in
      let saturation_score := _calculate_saturation_balance colors in
      let luminance_score := _calculate_luminance_distribution colors in
      let confidence_score := PyFloat.mean (map confidence colors) in
      Ok [("contrast", contrast_score, 0.3%Q);
          ("diversity", diversity_score, 0.25%Q);
          ("saturation", saturation_score, 0.2%Q);
          ("luminance", luminance_score, 0.15%Q);
          ("confidence", confidence_score, 0.1%Q)].

Definition _calculate_quality_score (palette : ColorPalette) (image : Image)
      : result Q :=
      scores <- quality_scores palette image ;;
      let total_score :=
        PyFloat.sum (map (fun '(_, score, weight) => (score * weight)%Q) scores) in
      Ok (Py.minQ 1 (Py.maxQ 0 total_score)).

    (** *** Adaptive extraction *)

    (** One iteration of the [for] loop: the body of the [try]. *)
Definition adaptive_attempt (rng : RandomState) (image : Image)
        (image_path : string) (method : string) (num_colors : Z)
      : result (list RGB * Q * string) :=
      colors <-
        (if String.eqb method KMEANS_LAB then _extract_kmeans_lab rng image num_colors
         else if String.eqb method COLORTHIEF then _extract_colorthief image_path num_colors
         else if String.eqb method MEDIAN_CUT then _extract_median_cut image num_colors
         else Raise (LibraryError "colors is unbound")) ;;
      temp_palette <- ColorPalette.from_colors colors (Some image_path) ;;
      quality <- _calculate_quality_score temp_palette image ;;
      Ok (colors, quality, method).

Definition methods_to_try : list (string * Z) :=
      [(KMEANS_LAB, 6); (COLORTHIEF, 5); (MEDIAN_CUT, 7)].

    (** The whole loop: [results] after trying every method. *)
Fixpoint adaptive_loop (rng : RandomState) (image : Image) (image_path : string)
        (methods : list (string * Z)) (results : list (list RGB * Q * string))
      : list (list RGB * Q * string) :=
      match methods with
      | [] => results
      | (method, num_colors) :: rest =>
          match adaptive_attempt rng image image_path method num_colors with
          | Ok entry => adaptive_loop rng image image_path rest (results ++ [entry])%list
          | Raise _ => adaptive_loop rng image image_path rest results
          end
      end.

Definition _extract_adaptive (rng : RandomState) (image : Image) (image_path : string)
      : result (list RGB) :=
      let results := adaptive_loop rng image image_path methods_to_try [] in
      match results with
      | [] => _extract_median_cut image 5
      | first :: rest =>
          let best_result := PyList.max_by (fun x => snd (fst x)) first rest in
          Ok (fst (fst best_result))
      end.

Definition _get_default_color_count (method : string) : Z :=
      if String.eqb method KMEANS_LAB then 6
      else if String.eqb method KMEANS_RGB then 6
      else if String.eqb method MEDIAN_CUT then 8
      else if String.eqb method COLORTHIEF then 5
      else if String.eqb method ADAPTIVE then 6
      else 6.

    (** [x or default] on an optional string / integer. *)
Definition or_string (x : option string) (default : string) : string :=
      match x with
      | Some s => if String.eqb s "" then default else s
      | None => default
      end.

Definition or_int (x : option Z) (default : Z) : Z :=
      match x with
      | Some n => if n =? 0 then default else n
      | None => default
      end.

    (** The first half of [extract_colors], up to the list [colors]. *)
Definition extract_color_list (self : ColorExtractor) (rng : RandomState)
        (image_path : string) (method : option string) (num_colors : option Z)
      : result (string * Image * list RGB) :=
      let method := or_string method (default_method self) in
      let num_colors := or_int num_colors (_get_default_color_count method) in
      image <- _load_and_preprocess_image self image_path ;;
      colors <-
        (if String.eqb method KMEANS_LAB then _extract_kmeans_lab rng image num_colors
         else if String.eqb method KMEANS_RGB then _extract_kmeans_rgb rng image num_colors
         else if String.eqb method MEDIAN_CUT then _extract_median_cut image num_colors
         else if String.eqb method COLORTHIEF then _extract_colorthief image_path num_colors
         else if String.eqb method ADAPTIVE then _extract_adaptive rng image image_path
         else Raise (ValueError ("Unknown extraction method: " ++ method))) ;;
      Ok (method, image, colors).

Definition extract_colors (self : ColorExtractor) (rng : RandomState)
        (image_path : string) (method : option string) (num_colors : option Z)
      : result ColorPalette :=
      '(method, image, colors) <-
        extract_color_list self rng image_path method num_colors ;;
      palette <- ColorPalette.from_colors colors (Some image_path) ;;
      let palette := ColorPalette.set_extraction_method palette method in
      quality <- _calculate_quality_score palette image ;;
      Ok (ColorPalette.set_quality_score palette quality).

End WithLibraries.
End Extractor.


(* ===================================================================== *)
(** * theme_applier.py *)
(* ===================================================================== *)

(** ** Strings and paths *)

Module PyStr.

Fixpoint strip_prefix (pre s : string) : option string :=
    match pre, s with
    | EmptyString, _ => Some s
    | String a pre', String b s' =>
        if Ascii.eqb a b then strip_prefix pre' s' else None
    | String _ _, EmptyString => None
    end.

  (** [s.startswith(pre)] *)
Definition startswith (s pre : string) : bool :=
    match strip_prefix pre s with Some _ => true | None => false end.

Fixpoint rev_append (s acc : string) : string :=
    match s with
    | EmptyString => acc
    | String c s' => rev_append s' (String c acc)
    end.

Definition reverse (s : string) : string := rev_append s "".

  (** [s.endswith(suf)] *)
Definition endswith (s suf : string) : bool :=
    startswith (reverse s) (reverse suf).

Fixpoint contains (ch : ascii) (s : string) : bool :=
    match s with
    | EmptyString => false
    | String c s' => Ascii.eqb c ch || contains ch s'
    end.

  (** Truth value of a string: non-empty. *)
Definition truthy (s : string) : bool := negb (String.eqb s "").

End PyStr.

(** [os.path] on POSIX. *)
Module Path.

  (** [os.path.join(a, b)] *)
Definition join (a b : string) : string :=
    if PyStr.startswith b "/" then b
    else if negb (PyStr.truthy a) || PyStr.endswith a "/" then a ++ b
    else a ++ "/" ++ b.

End Path.

(** A dictionary with string keys, in insertion order. *)
Module StrDict.

Definition t (V : Type) : Type := list (string * V).

Fixpoint get {V} (d : t V) (k : string) : option V :=
    match d with
    | [] => None
    | (k', v) :: d' => if String.eqb k' k then Some v else get d' k
    end.

Definition mem {V} (d : t V) (k : string) : bool :=
    match get d k with Some _ => true | None => false end.

Fixpoint set {V} (d : t V) (k : string) (v : V) : t V :=
    match d with
    | [] => [(k, v)]
    | (k', v') :: d' => if String.eqb k' k then (k', v) :: d'
                        else (k', v') :: set d' k v
    end.

Definition getitem {V} (d : t V) (k : string) : result V :=
    match get d k with
    | Some v => Ok v
    | None => Raise (KeyError k)
    end.

Definition keys {V} (d : t V) : list string := map fst d.

End StrDict.

(** ** The file system

    A flat name space: a path names at most one regular file, with its
    content and modification time.  A directory exists when a file lies
    under it, when it was made by [os.makedirs] (the list [dirs] of the
    state, which may hold empty directories), or when it is the root.
    Paths are compared as texts: there is no current directory, no [.] or
    [..], and apart from one trailing ["/"] of a directory no second
    spelling of a path.  The directories that the code lists (the backup
    directory) hold regular files only.  Permissions, links and devices are
    not modelled, so an operation fails only for the reasons written
    below. *)

Record File : Type := mkFile {
  content : string;
  mtime : Q
}.

Module FS.

Definition t : Type := StrDict.t File.

Definition is_file (fs : t) (p : string) : bool := StrDict.mem fs p.

  (** The text that the paths of the entries of directory [d] start with. *)
Definition dir_prefix (d : string) : string :=
    if PyStr.endswith d "/" then d else d ++ "/".

  (** The name of [p] as an entry of directory [d], if it is one. *)
Definition entry_name (d p : string) : option string :=
    match PyStr.strip_prefix (dir_prefix d) p with
    | Some name =>
        if PyStr.truthy name && negb (PyStr.contains "/" name)
           && negb (PyStr.startswith name "/")
        then Some name else None
    | None => None
    end.

Definition under (d p : string) : bool :=
    match PyStr.strip_prefix (dir_prefix d) p with
    | Some rest => PyStr.truthy rest
    | None => false
    end.

Definition is_dir (fs : t) (d : string) : bool :=
    PyStr.truthy d && existsb (fun '(p, _) => under d p) fs.

  (** [os.path.exists(p)] *)
Definition exists_ (fs : t) (p : string) : bool := is_file fs p || is_dir fs p.

  (** [os.listdir(d)] *)
Definition listdir (fs : t) (d : string) : result (list string) :=
    if is_dir fs d then
      Ok (flat_map (fun '(p, _) => match entry_name d p with
                                   | Some name => [name]
                                   | None => []
                                   end) fs)
    else Raise (FileNotFoundError d).

  (** [os.path.getmtime(p)] of a regular file. *)
Definition getmtime (fs : t) (p : string) : result Q :=
    match StrDict.get fs p with
    | Some f => Ok (mtime f)
    | None => Raise (FileNotFoundError p)
    end.

End FS.

(** The state the applier runs in: the files, the directories made by
    [os.makedirs], and the clock. *)
Record World : Type := mkWorld {
  files : FS.t;
  dirs : list string;
  now : Q
}.

(** [os], [os.path] and [shutil] on a state. *)
Module OS.

Definition set_files (w : World) (fs : FS.t) : World :=
    {| files := fs; dirs := dirs w; now := now w |}.

  (** [d] is one of the directories [ds] or lies above one of them. *)
Definition made (ds : list string) (d : string) : bool :=
    PyStr.truthy d
    && existsb (fun d' => String.eqb (FS.dir_prefix d') (FS.dir_prefix d)
                          || FS.under d d') ds.

  (** ["/"], ["//"], ... *)
Definition is_root (d : string) : bool :=
    PyStr.truthy d && String.eqb (Py.lstrip "/" d) "".

  (** [os.path.isdir(d)] *)
Definition isdir (w : World) (d : string) : bool :=
    is_root d || FS.is_dir (files w) d || made (dirs w) d.

  (** [os.path.exists(p)] *)
Definition exists_ (w : World) (p : string) : bool :=
    PyStr.truthy p && (FS.is_file (files w) p || isdir w p).

  (** [os.listdir(d)] *)
Definition listdir (w : World) (d : string) : result (list string) :=
    if isdir w d then
      Ok (flat_map (fun '(p, _) => match FS.entry_name d p with
                                   | Some name => [name]
                                   | None => []
                                   end) (files w))
    else Raise (FileNotFoundError d).

  (** On a reversed path: the part from the first ["/"] on. *)
Fixpoint drop_to_slash (s : string) : string :=
    match s with
    | EmptyString => EmptyString
    | String c s' => if Ascii.eqb c "/" then s else drop_to_slash s'
    end.

  (** [os.path.dirname(p)]: the text up to the last ["/"], without its
      trailing slashes unless it consists of slashes. *)
Definition dirname (p : string) : string :=
    let head := drop_to_slash (PyStr.reverse p) in
    let stripped := PyStr.reverse (Py.lstrip "/" head) in
    if PyStr.truthy stripped then stripped else PyStr.reverse head.

  (** The directory that [p] is to be created in exists (a path without
      a directory part is created in the current directory). *)
Definition parent_exists (w : World) (p : string) : bool :=
    negb (PyStr.truthy (dirname p)) || isdir w (dirname p).

  (** What opening [p] for writing raises, if anything. *)
Definition open_for_writing (w : World) (p : string) : result unit :=
    if negb (PyStr.truthy p) then Raise (FileNotFoundError p)
    else if isdir w p || PyStr.endswith p "/"
    then Raise (LibraryError "IsADirectoryError")
    else if negb (parent_exists w p) then Raise (FileNotFoundError p)
    else Ok tt.

  (** [with open(p, 'w') as f: f.write(data)] at the time of the clock. *)
Definition write (w : World) (p data : string) : result World :=
    _ <- open_for_writing w p ;;
    Ok (set_files w (StrDict.set (files w) p {| content := data; mtime := now w |})).

  (** On a reversed path: the part before the first ["/"]. *)
Fixpoint take_to_slash (s : string) : string :=
    match s with
    | EmptyString => EmptyString
    | String c s' => if Ascii.eqb c "/" then EmptyString
                     else String c (take_to_slash s')
    end.

  (** [os.path.basename(p)]: the text after the last ["/"]. *)
Definition basename (p : string) : string :=
    PyStr.reverse (take_to_slash (PyStr.reverse p)).

  (** [shutil.copy2(src, dst)] of a regular file: content and modification
      time.  A destination that is a directory stands for the entry of
      that directory with the name of the source. *)
Definition copy2 (w : World) (src dst : string) : result World :=
    let dst := if isdir w dst then Path.join dst (basename src) else dst in
    if negb (PyStr.truthy src) then Raise (FileNotFoundError src)
    else
      match StrDict.get (files w) src with
      | None => Raise (FileNotFoundError src)
      | Some f =>
          if String.eqb src dst then Raise (SameFileError src)
          else
            _ <- open_for_writing w dst ;;
            Ok (set_files w (StrDict.set (files w) dst f))
      end.

  (** [os.makedirs(name, exist_ok=True)] where [name] does not exist: it
      fails on the empty path and when a regular file stands at [name] or
      above it. *)
Definition makedirs (w : World) (name : string) : result World :=
    if negb (PyStr.truthy name) then Raise (FileNotFoundError name)
    else if existsb (fun '(p, _) => String.eqb (FS.dir_prefix p) (FS.dir_prefix name)
                                    || FS.under p name) (files w)
    then Raise (LibraryError "NotADirectoryError")
    else Ok {| files := files w; dirs := name :: dirs w; now := now w |}.

  (** [time.sleep(d)] *)
Definition sleep (w : World) (d : Q) : result World :=
    if Py.Qltb d 0 then Raise (ValueError "sleep length must be non-negative")
    else Ok {| files := files w; dirs := dirs w; now := (now w + d)%Q |}.

End OS.

(** ** What the applier calls outside [theme_applier.py] *)

Class Environment : Type := {
  (** [datetime.now().strftime("%Y%m%d_%H%M%S")] at a clock reading *)
  strftime_compact : Q -> string;
  (** [datetime.now().isoformat()] *)
  isoformat : Q -> string;
  (** [os.path.expanduser("~")] *)
  user_home : string;
  (** [TemplateEngine.render_template(template, palette, app_name,
      timestamp, user_home)] *)
  render_template : string -> ColorPalette -> string -> string -> string -> result string;
  (** [ThemeApplier._generate_swaync_css(palette)]: a text built from the
      palette by concatenation *)
  generate_swaync_css : ColorPalette -> result string;
  (** [subprocess.run(cmd, shell=True, capture_output=True, text=True,
      timeout=30)], as (stdout, stderr, returncode); the command leaves the
      modelled files alone *)
  subprocess_run : string -> result (string * string * Z)
}.

Module ApplicationConfig.

Record t : Type := mk {
    name : string;
    template_path : string;
    output_path : string;
    backup_path : string;
    reload_command : option string;
    reload_delay : Q;
    enabled : bool;
    requires_restart : bool
  }.

  (** The constructor with [__post_init__]. *)
Definition init (name template_path output_path : string)
      (backup_path reload_command : option string) (reload_delay : Q)
      (enabled requires_restart : bool) : t :=
    {| name := name; template_path := template_path; output_path := output_path;
       backup_path := match backup_path with
                      | Some p => p
                      | None => output_path ++ ".backup"
                      end;
       reload_command := reload_command; reload_delay := reload_delay;
       enabled := enabled; requires_restart := requires_restart |}.

End ApplicationConfig.

Module ThemeApplication.

Record t : Type := mk {
    app_name : string;
    success : bool;
    output_path : string;
    backup_created : bool;
    reloaded : bool;
    error : option string;
    reload_output : option string
  }.

End ThemeApplication.

Record ThemeApplier : Type := mkThemeApplier {
  template_dir : string;
  config_dir : string;
  backup_dir : string;
  applications : StrDict.t ApplicationConfig.t
}.

Module Applier.
Section WithEnvironment.
Context {ENV : Environment}.

    (** [ensure_dir(path)] of [utils/file_utils.py] *)
Definition ensure_dir (w : World) (path : string) : result World :=
      if negb (OS.exists_ w path) then OS.makedirs w path else Ok w.

Definition _create_backup (self : ThemeApplier) (w : World)
        (file_path app_name : string) : result string * World :=
      let timestamp := strftime_compact (now w) in
      let backup_filename := app_name ++ "_" ++ timestamp ++ ".backup" in
      let backup_path := Path.join (backup_dir self) backup_filename in
      match OS.copy2 w file_path backup_path with
      | Ok w => (Ok backup_path, w)
      | Raise e => (Raise e, w)
      end.

    (** The reload step: (reloaded, reload_output) and the clock.  With a
        reload command, [time.sleep] and [subprocess.run] are inside the
        [try]; without one, [time.sleep] is not. *)
Definition reload_step (config : ApplicationConfig.t) (w : World)
        (reload_application : bool) : result (bool * option string) * World :=
      if reload_application then
        let command := match ApplicationConfig.reload_command config with
                       | Some cmd => if PyStr.truthy cmd then Some cmd else None
                       | None => None
                       end in
        match command with
        | Some cmd =>
            match OS.sleep w (ApplicationConfig.reload_delay config) with
            | Raise e => (Ok (false, Some (str_exn e)), w)
            | Ok w =>
                match subprocess_run cmd with
                | Ok (stdout, stderr, returncode) =>
                    (Ok (true, Some (if PyStr.truthy stdout then stdout else stderr)), w)
                | Raise TimeoutExpired => (Ok (false, Some "Reload command timed out"), w)
                | Raise e => (Ok (false, Some (str_exn e)), w)
                end
            end
        | None =>
            match OS.sleep w (ApplicationConfig.reload_delay config) with
            | Raise e => (Raise e, w)
            | Ok w => (Ok (true, Some "Live reload (automatic)"), w)
            end
        end
      else (Ok (false, None), w).

Definition _apply_to_application (self : ThemeApplier) (w : World)
        (app_name : string) (palette : ColorPalette)
        (create_backup reload_application : bool)
      : result ThemeApplication.t * World :=
      match StrDict.getitem (applications self) app_name with
      | Raise e => (Raise e, w)
      | Ok config =>
          let output_path := ApplicationConfig.output_path config in
          (* Create backup if requested *)
          let backup :=
            if create_backup && OS.exists_ w output_path then
              match _create_backup self w output_path app_name with
              | (Ok backup_path, w) => (Ok true, w)
              | (Raise e, w) => (Raise e, w)
              end
            else (Ok false, w) in
          match backup with
          | (Raise e, w) => (Raise e, w)
          | (Ok backup_created, w) =>
              (* Generate content for application *)
              let rendered :=
                if String.eqb app_name "swaync" then generate_swaync_css palette
                else render_template (ApplicationConfig.template_path config) palette
                       app_name (isoformat (now w)) user_home in
              match rendered with
              | Raise e =>
                  (Ok {| ThemeApplication.app_name := app_name;
                         ThemeApplication.success := false;
                         ThemeApplication.output_path := output_path;
                         ThemeApplication.backup_created := backup_created;
                         ThemeApplication.reloaded := false;
                         ThemeApplication.error :=
                           Some ("Content generation failed: " ++ str_exn e);
                         ThemeApplication.reload_output := None |}, w)
              | Ok rendered =>
                  (* Ensure output directory exists *)
                  match ensure_dir w (OS.dirname output_path) with
                  | Raise e => (Raise e, w)
                  | Ok w =>
                      (* Write rendered template *)
                      match OS.write w output_path rendered with
                      | Raise e =>
                          (Ok {| ThemeApplication.app_name := app_name;
                                 ThemeApplication.success := false;
                                 ThemeApplication.output_path := output_path;
                                 ThemeApplication.backup_created := backup_created;
                                 ThemeApplication.reloaded := false;
                                 ThemeApplication.error :=
                                   Some ("Failed to write config file: " ++ str_exn e);
                                 ThemeApplication.reload_output := None |}, w)
                      | Ok w =>
                          (* Handle application reload *)
                          match reload_step config w reload_application with
                          | (Raise e, w) => (Raise e, w)
                          | (Ok (reloaded, reload_output), w) =>
                              (Ok {| ThemeApplication.app_name := app_name;
                                     ThemeApplication.success := true;
                                     ThemeApplication.output_path := output_path;
                                     ThemeApplication.backup_created := backup_created;
                                     ThemeApplication.reloaded := reloaded;
                                     ThemeApplication.error := None;
                                     ThemeApplication.reload_output := reload_output |},
                               w)
                          end
                      end
                  end
              end
          end
      end.

    (** The filter of [_find_latest_backup] on one directory entry. *)
Definition is_backup_of (app_name filename : string) : bool :=
      PyStr.startswith filename (app_name ++ "_")
      && PyStr.endswith filename ".backup".

    (** The loop of [_find_latest_backup]: the list [backups]. *)
Fixpoint collect_backups (self : ThemeApplier) (fs : FS.t) (app_name : string)
        (filenames : list string) : result (list (string * Q)) :=
      match filenames with
      | [] => Ok []
      | filename :: rest =>
          if is_backup_of app_name filename then
            let backup_path := Path.join (backup_dir self) filename in
            m <- FS.getmtime fs backup_path ;;
            backups <- collect_backups self fs app_name rest ;;
            Ok ((backup_path, m) :: backups)
          else collect_backups self fs app_name rest
      end.

Definition _find_latest_backup (self : ThemeApplier) (w : World)
        (app_name : string) : result (option string) :=
      if negb (OS.exists_ w (backup_dir self)) then Ok None
      else
        filenames <- OS.listdir w (backup_dir self) ;;
        backups <- collect_backups self (files w) app_name filenames ;;
        match PyList.sort_by_desc snd backups with
        | [] => Ok None
        | (backup_path, _) :: _ => Ok (Some backup_path)
        end.

    (** The body of the [try] in the loop of [restore_backups]: whether the
        application was restored, and the files afterwards. *)
Definition restore_try (self : ThemeApplier) (w : World) (app_name : string)
      : result (bool * World) :=
      backup_path <- _find_latest_backup self w app_name ;;
      match backup_path with
      | None => Ok (false, w)
      | Some backup_path =>
          if negb (PyStr.truthy backup_path) then Ok (false, w)
          else
            config <- StrDict.getitem (applications self) app_name ;;
            w <- OS.copy2 w backup_path (ApplicationConfig.output_path config) ;;
            Ok (true, w)
      end.

    (** One iteration of the loop of [restore_backups]. *)
Definition restore_one (self : ThemeApplier) (w : World) (app_name : string)
      : bool * World :=
      if negb (StrDict.mem (applications self) app_name) then (false, w)
      else
        match restore_try self w app_name with
        | Ok (restored, w') => (restored, w')
        | Raise e => (false, w)
        end.

Fixpoint restore_loop (self : ThemeApplier) (w : World) (apps : list string)
        (results : StrDict.t bool) : StrDict.t bool * World :=
      match apps with
      | [] => (results, w)
      | app_name :: rest =>
          let '(restored, w) := restore_one self w app_name in
          restore_loop self w rest (StrDict.set results app_name restored)
      end.

Definition restore_backups (self : ThemeApplier) (w : World)
        (apps : option (list string)) : StrDict.t bool * World :=
      let apps := match apps with
                  | Some l => l
                  | None => StrDict.keys (applications self)
                  end in
      restore_loop self w apps [].

End WithEnvironment.
End Applier.


(* ===================================================================== *)
(** * More of theme_applier.py: apply_theme, list_backups,
      convert_numpy_types *)
(* ===================================================================== *)

(** [json.dump(record, f, indent=2)] for the record that
    [_save_application_record] builds from the time stamp, the palette and
    the results: the text it writes. *)
Class JsonLib : Type := {
  json_dump_record : string -> ColorPalette -> StrDict.t ThemeApplication.t -> string
}.

Module PyStr2.

  (** [s.split(sep)] for a one-character separator. *)
Fixpoint split (sep : ascii) (s : string) : list string :=
    match s with
    | EmptyString => [EmptyString]
    | String c s' =>
        if Ascii.eqb c sep then EmptyString :: split sep s'
        else match split sep s' with
             | part :: parts => String c part :: parts
             | [] => [String c EmptyString]
             end
    end.

End PyStr2.

Module Applier2.
Section WithEnvironment.
Context {ENV : Environment} {JSON : JsonLib}.

(** The entry of [apply_theme] for a name that is not configured. *)
Definition unknown_application (app_name : string) : ThemeApplication.t :=
  {| ThemeApplication.app_name := app_name;
     ThemeApplication.success := false;
     ThemeApplication.output_path := "";
     ThemeApplication.backup_created := false;
     ThemeApplication.reloaded := false;
     ThemeApplication.error := Some ("Unknown application: " ++ app_name);
     ThemeApplication.reload_output := None |}.

(** The entry of [apply_theme] when [_apply_to_application] raised. *)
Definition failed_application (app_name : string) (e : exn) : ThemeApplication.t :=
  {| ThemeApplication.app_name := app_name;
     ThemeApplication.success := false;
     ThemeApplication.output_path := "";
     ThemeApplication.backup_created := false;
     ThemeApplication.reloaded := false;
     ThemeApplication.error := Some (str_exn e);
     ThemeApplication.reload_output := None |}.

(** The loop of [apply_theme]. *)
Fixpoint apply_loop (self : ThemeApplier) (w : World) (palette : ColorPalette)
    (apps : list string) (create_backup reload_applications : bool)
    (results : StrDict.t ThemeApplication.t)
  : StrDict.t ThemeApplication.t * World :=
  match apps with
  | [] => (results, w)
  | app_name :: rest =>
      if negb (StrDict.mem (applications self) app_name) then
        apply_loop self w palette rest create_backup reload_applications
          (StrDict.set results app_name (unknown_application app_name))
      else
        match Applier._apply_to_application self w app_name palette create_backup
                reload_applications with
        | (Ok result, w) =>
            apply_loop self w palette rest create_backup reload_applications
              (StrDict.set results app_name result)
        | (Raise e, w) =>
            apply_loop self w palette rest create_backup reload_applications
              (StrDict.set results app_name (failed_application app_name e))
        end
  end.

(** [_save_application_record]: a failure to write is logged and ignored. *)
Definition _save_application_record (self : ThemeApplier) (w : World)
    (palette : ColorPalette) (results : StrDict.t ThemeApplication.t) : World :=
  let record_path := Path.join (config_dir self) "last_application.json" in
  match OS.write w record_path
          (json_dump_record (isoformat (now w)) palette results) with
  | Ok w => w
  | Raise _ => w
  end.

(** The first statement of [apply_theme]: the names it works on. *)
Definition requested_applications (self : ThemeApplier) (apps : option (list string))
  : list string :=
  match apps with
  | Some l => l
  | None => map fst (filter (fun '(name, config) => ApplicationConfig.enabled config)
                       (applications self))
  end.

Definition apply_theme (self : ThemeApplier) (w : World) (palette : ColorPalette)
    (apps : option (list string)) (create_backup reload_applications : bool)
  : StrDict.t ThemeApplication.t * World :=
  let apps := requested_applications self apps in
  let '(results, w) :=
    apply_loop self w palette apps create_backup reload_applications [] in
  (results, _save_application_record self w palette results).

(** The first loop of [list_backups]. *)
Fixpoint list_backups_loop (self : ThemeApplier) (fs : FS.t) (filenames : list string)
    (backups : StrDict.t (list (string * Q)))
  : result (StrDict.t (list (string * Q))) :=
  match filenames with
  | [] => Ok backups
  | filename :: rest =>
      if negb (PyStr.endswith filename ".backup") then
        list_backups_loop self fs rest backups
      else
        let parts := PyStr2.split "_" filename in
        if (List.length parts <? 2)%nat then list_backups_loop self fs rest backups
        else
          app_name <- PyList.index parts 0 ;;
          let backup_path := Path.join (backup_dir self) filename in
          timestamp <- FS.getmtime fs backup_path ;;
          let backups :=
            if negb (StrDict.mem backups app_name)
            then StrDict.set backups app_name [] else backups in
          entries <- StrDict.getitem backups app_name ;;
          let backups :=
            StrDict.set backups app_name (entries ++ [(backup_path, timestamp)])%list in
          list_backups_loop self fs rest backups
  end.

Definition list_backups (self : ThemeApplier) (w : World)
  : result (StrDict.t (list (string * Q))) :=
  if negb (OS.exists_ w (backup_dir self)) then Ok []
  else
    filenames <- OS.listdir w (backup_dir self) ;;
    backups <- list_backups_loop self (files w) filenames [] ;;
    (* Sort backups by timestamp (most recent first) *)
    Ok (map (fun '(app_name, entries) => (app_name, PyList.sort_by_desc snd entries))
          backups).

End WithEnvironment.
End Applier2.

(** The values [convert_numpy_types] receives.  An array is the nesting
    of its items; its element type decides what [tolist] gives: Python
    numbers and booleans for the numeric types, the stored objects
    themselves for [dtype=object]. *)
#[warnings="-register-all"] Inductive NdData (A : Type) : Type :=
| NdItem (x : A)
| NdNested (items : list (NdData A)).

Arguments NdItem {A} x.
Arguments NdNested {A} items.

#[warnings="-register-all"] Inductive PyValue : Type :=
| VNone
| VBool (b : bool)
| VInt (n : Z)
| VFloat (x : Q)
| VStr (s : string)
| VList (items : list PyValue)
| VTuple (items : list PyValue)
| VDict (entries : list (PyValue * PyValue))
| NpInteger (n : Z)
| NpFloating (x : Q)
| NpBool (b : bool)
| NpIntArray (data : NdData Z)
| NpFloatArray (data : NdData Q)
| NpBoolArray (data : NdData bool)
| NpObjectArray (data : NdData PyValue).

Module Numpy2.

  (** [ndarray.tolist()], [leaf] turning an element into a Python value. *)
Fixpoint tolist {A} (leaf : A -> PyValue) (a : NdData A) : PyValue :=
    match a with
    | NdItem x => leaf x
    | NdNested items => VList (map (tolist leaf) items)
    end.

  (** [convert_numpy_types] *)
Fixpoint convert_numpy_types (obj : PyValue) : PyValue :=
    match obj with
    | NpInteger n => VInt n
    | NpFloating x => VFloat x
    | NpIntArray a => tolist VInt a
    | NpFloatArray a => tolist VFloat a
    | NpBoolArray a => tolist VBool a
    | NpObjectArray a => tolist (fun v => v) a
    | VDict entries =>
        VDict (map (fun '(k, v) => (k, convert_numpy_types v)) entries)
    | VList items => VList (map convert_numpy_types items)
    | VTuple items => VTuple (map convert_numpy_types items)
    | _ => obj
    end.




End Numpy2.

(* ===================================================================== *)
(** * More of color_extractor.py: compare_methods *)
(* ===================================================================== *)

Record MethodReport : Type := mkMethodReport {
  report_palette : ColorPalette;
  report_quality_score : option Q;
  report_colors : list string;
  report_accessibility_compliant : bool;
  report_contrast_ratios : list (string * Q)
}.

Record Comparison : Type := mkComparison {
  (** one entry for each method: the report, or the error *)
  reports : StrDict.t (result MethodReport);
  (** the keys ['ranking'] and ['best_method'], when some method succeeded *)
  ranking : option (list string);
  best_method : option string
}.

Module Extractor2.
Section WithLibraries.
Context {FP : FloatPow} {NP : Numpy} {CS : Colorspacious} {PIL : Pillow}
        {SK : Sklearn} {CT : ColorThiefLib}.

(** The body of the [try] of [compare_methods]. *)
Definition method_report (self : ColorExtractor) (rng : RandomState)
    (image_path method : string) : result MethodReport :=
  palette <- Extractor.extract_colors self rng image_path (Some method) None ;;
  accessible <- ColorPalette.meets_accessibility_standards palette ;;
  contrasts <- ColorPalette.validate_contrast palette ;;
  Ok {| report_palette := palette;
        report_quality_score := quality_score palette;
        report_colors := map SemanticColor.hex (Dict.values (colors palette));
        report_accessibility_compliant := accessible;
        report_contrast_ratios := contrasts |}.

Definition compared_methods : list string :=
  [ColorExtractionMethod.KMEANS_LAB; ColorExtractionMethod.KMEANS_RGB;
   ColorExtractionMethod.MEDIAN_CUT; ColorExtractionMethod.COLORTHIEF].

(** The sort key [x[1]['quality_score']]; [extract_colors] always sets
    the score. *)
Definition ranking_key (x : string * MethodReport) : Q :=
  match report_quality_score (snd x) with
  | Some q => q
  | None => 0
  end.

Definition compare_methods (self : ColorExtractor) (rng : RandomState)
    (image_path : string) : Comparison :=
  let results :=
    fold_left (fun results method =>
                 StrDict.set results method (method_report self rng image_path method))
      compared_methods [] in
  let successful_methods :=
    flat_map (fun '(k, v) => match v with
                             | Ok report => [(k, report)]
                             | Raise _ => []
                             end) results in
  match successful_methods with
  | [] => {| reports := results; ranking := None; best_method := None |}
  | _ :: _ =>
      let ranked := PyList.sort_by_desc ranking_key successful_methods in
      {| reports := results;
         ranking := Some (map fst ranked);
         best_method := match ranked with
                        | (method, _) :: _ => Some method
                        | [] => None
                        end |}
  end.

End WithLibraries.
End Extractor2.

(* ===================================================================== *)
(** * template_engine.py: the colour filters that compute *)
(* ===================================================================== *)

Module TemplateFilters.

  (** [_filter_mix(color1, color2, ratio)] *)
Definition _filter_mix (color1 color2 : SemanticColor) (ratio : Q) : SemanticColor :=
    let r0 := PyFloat.to_int (inject_Z (r color1) * (1 - ratio)
                              + inject_Z (r color2) * ratio) in
    let g0 := PyFloat.to_int (inject_Z (g color1) * (1 - ratio)
                              + inject_Z (g color2) * ratio) in
    let b0 := PyFloat.to_int (inject_Z (b color1) * (1 - ratio)
                              + inject_Z (b color2) * ratio) in
    SemanticColor.init r0 g0 b0 (role color1)
      (Py.minQ (confidence color1) (confidence color2))
      SemanticColor.default_alpha.

  (** [_filter_alpha(color, alpha)] *)
Definition _filter_alpha (color : SemanticColor) (alpha : Q) : SemanticColor :=
    let alpha_int := if PyFloat.le alpha 1 then PyFloat.to_int (alpha * 255)
                     else PyFloat.to_int alpha in
    SemanticColor.with_alpha color alpha_int.

End TemplateFilters.

(* ===================================================================== *)
(** * Auxiliary definitions for the statements and proofs *)
(* ===================================================================== *)

(** The channel values [0 .. 255]. *)
Definition byte_values : list Z := map Z.of_nat (seq 0 256).

(** [f"{n:02x}"] is two lowercase hexadecimal digits that [int(_, 16)] reads
    back as [n]. *)
Definition format_02x_reads_back (n : Z) : bool :=
  match Py.format_02x n with
  | String a (String b EmptyString) =>
      Py.is_lower_hex_digit a && Py.is_lower_hex_digit b
      && match Py.int16 (String a (String b EmptyString)) with
         | Ok v => v =? n
         | Raise _ => false
         end
  | _ => false
  end.

(** A rational stand-in for [x ** 2.4] on [0 <= x <= 1], used to run the
    code on examples: x^2 (2x + 3) / 5. *)
Definition pow_approx : FloatPow :=
  {| fpow := fun x _ => (x * x * (2 * x + 3) / 5)%Q;
     colorsys_subtracts_sumc := true |}.

(** The same with the later [colorsys]. *)
Definition pow_approx_later : FloatPow :=
  {| fpow := fun x _ => (x * x * (2 * x + 3) / 5)%Q;
     colorsys_subtracts_sumc := false |}.

(** The objects [from_colors] creates, after [semantic_colors.sort]. *)
Definition sorted_colors `{FloatPow} (colors : list (Z * Z * Z)) : list SemanticColor :=
  PyList.sort_by Color.luminance
    (map (fun '(r, g, b) => SemanticColor.from_rgb r g b PRIMARY) colors).

(** [semantic_colors[1:-1]] on the sorted objects. *)
Definition middle_colors `{FloatPow} (colors : list (Z * Z * Z)) : list SemanticColor :=
  let sorted := sorted_colors colors in
  PyList.slice 1 (List.length sorted - 1) sorted.

(** The reference [from_colors] stores under [PRIMARY]: the most saturated
    of the objects at positions [1 .. n-2] of the sorted list [h0]. *)
Definition primary_ref (h0 : Heap.t) : Heap.ref :=
  PyList.max_by (fun c => Color.saturation (Heap.deref h0 c)) 1%nat
    (seq 2 (List.length h0 - 3)%nat).

(** The objects of [from_colors] once [BACKGROUND], [TEXT] and [PRIMARY]
    are assigned, and the list [remaining_colors] computed from them. *)
Definition heap_after_primary (h0 : Heap.t) : Heap.t :=
  Heap.set_role
    (Heap.set_role (Heap.set_role h0 0%nat BACKGROUND) (List.length h0 - 1)%nat TEXT)
    (primary_ref h0) PRIMARY.

Definition map_after_primary (h0 : Heap.t) : Dict.t Heap.ref :=
  [(BACKGROUND, 0%nat); (TEXT, (List.length h0 - 1)%nat); (PRIMARY, primary_ref h0)].

Definition remaining_refs (h0 : Heap.t) : list Heap.ref :=
  filter (fun c => negb (ColorPalette.in_values (heap_after_primary h0) c
                           (map_after_primary h0)))
    (seq 0 (List.length h0)).

(** The dictionary [from_colors] hands to the constructor, in terms of the
    sorted objects [h0]. *)
Definition assigned_colors `{FloatPow} (h0 : Heap.t) : Dict.t SemanticColor :=
  let bg := SemanticColor.set_role (Heap.deref h0 0%nat) BACKGROUND in
  ([(BACKGROUND, bg);
    (TEXT, SemanticColor.set_role (Heap.deref h0 (List.length h0 - 1)%nat) TEXT);
    (PRIMARY, SemanticColor.set_role (Heap.deref h0 (primary_ref h0)) PRIMARY)]
   ++ match remaining_refs h0 with
      | s :: _ => [(SECONDARY, SemanticColor.set_role (Heap.deref h0 s) SECONDARY)]
      | [] => []
      end
   ++ match remaining_refs h0 with
      | _ :: a :: _ => [(ACCENT, SemanticColor.set_role (Heap.deref h0 a) ACCENT)]
      | _ => []
      end
   ++ [(SURFACE, SemanticColor.set_role (Color.lighten bg 0.05) SURFACE)])%list.

(** [_apply_to_application] from the content generation on, the value of
    [backup_created] being known. *)
Definition apply_after_backup `{Environment} (config : ApplicationConfig.t)
    (app_name : string) (palette : ColorPalette) (backup_created : bool) (w : World)
    (reload_application : bool) : result ThemeApplication.t * World :=
  let output_path := ApplicationConfig.output_path config in
  let rendered :=
    if String.eqb app_name "swaync" then generate_swaync_css palette
    else render_template (ApplicationConfig.template_path config) palette
           app_name (isoformat (now w)) user_home in
  match rendered with
  | Raise e =>
      (Ok {| ThemeApplication.app_name := app_name;
             ThemeApplication.success := false;
             ThemeApplication.output_path := output_path;
             ThemeApplication.backup_created := backup_created;
             ThemeApplication.reloaded := false;
             ThemeApplication.error :=
               Some ("Content generation failed: " ++ str_exn e);
             ThemeApplication.reload_output := None |}, w)
  | Ok rendered =>
      match Applier.ensure_dir w (OS.dirname output_path) with
      | Raise e => (Raise e, w)
      | Ok w =>
          match OS.write w output_path rendered with
          | Raise e =>
              (Ok {| ThemeApplication.app_name := app_name;
                     ThemeApplication.success := false;
                     ThemeApplication.output_path := output_path;
                     ThemeApplication.backup_created := backup_created;
                     ThemeApplication.reloaded := false;
                     ThemeApplication.error :=
                       Some ("Failed to write config file: " ++ str_exn e);
                     ThemeApplication.reload_output := None |}, w)
          | Ok w =>
              match Applier.reload_step config w reload_application with
              | (Raise e, w) => (Raise e, w)
              | (Ok (reloaded, reload_output), w) =>
                  (Ok {| ThemeApplication.app_name := app_name;
                         ThemeApplication.success := true;
                         ThemeApplication.output_path := output_path;
                         ThemeApplication.backup_created := backup_created;
                         ThemeApplication.reloaded := reloaded;
                         ThemeApplication.error := None;
                         ThemeApplication.reload_output := reload_output |}, w)
              end
          end
      end
  end.

(** The backups of an application: the files of the backup directory that
    [_find_latest_backup] keeps, as (path, modification time). *)
Definition backup_entries (self : ThemeApplier) (w : World) (app_name : string)
  : list (string * Q) :=
  match FS.listdir (files w) (backup_dir self) with
  | Ok filenames =>
      flat_map (fun filename =>
                  if Applier.is_backup_of app_name filename then
                    let backup_path := Path.join (backup_dir self) filename in
                    match FS.getmtime (files w) backup_path with
                    | Ok m => [(backup_path, m)]
                    | Raise _ => []
                    end
                  else []) filenames
  | Raise _ => []
  end.

(** The backup that [_find_latest_backup] picks: the first of the backups
    in descending order of modification time. *)
Definition latest_backup (self : ThemeApplier) (w : World) (app_name : string)
  : option string :=
  match PyList.sort_by_desc snd (backup_entries self w app_name) with
  | [] => None
  | (backup_path, _) :: _ => Some backup_path
  end.

(** A state in which the directory of the output file of "waybar-top" is
    gone, its backup being there. *)
Definition output_dir_gone : World :=
  {| files :=
       [("/c/backups/waybar-top_20240101_120000.backup",
         {| content := "old top"; mtime := 100 |})];
     dirs := [];
     now := 300 |}.


(** An applier with the application "waybar" and a second application
    "waybar-top", and a state in which only "waybar-top" has a backup. *)
Definition two_waybars : ThemeApplier :=
  {| template_dir := "/t"; config_dir := "/c"; backup_dir := "/c/backups";
     applications :=
       [("waybar", ApplicationConfig.init "waybar" "waybar/colors.css.j2"
                     "/home/u/.config/waybar/colors.css" None None 2 true false);
        ("waybar-top", ApplicationConfig.init "waybar-top" "waybar/colors.css.j2"
                         "/home/u/.config/waybar/top.css" None None 2 true false)] |}.

Definition only_top_backed_up : World :=
  {| files :=
       [("/home/u/.config/waybar/colors.css", {| content := "new"; mtime := 200 |});
        ("/home/u/.config/waybar/top.css", {| content := "new top"; mtime := 200 |});
        ("/c/backups/waybar-top_20240101_120000.backup",
         {| content := "old top"; mtime := 100 |})];
     dirs := [];
     now := 300 |}.

(** A new machine after the constructor of the applier: the backup
    directory is there and empty. *)
Definition first_run : World :=
  {| files :=
       [("/home/u/.config/waybar/colors.css", {| content := "mine"; mtime := 50 |})];
     dirs := ["/c"; "/c/backups"];
     now := 300 |}.

(** An applier whose output path has no directory part. *)
Definition bare_output : ThemeApplier :=
  {| template_dir := "/t"; config_dir := "/c"; backup_dir := "/c/backups";
     applications :=
       [("kitty", ApplicationConfig.init "kitty" "kitty/colors.conf.j2"
                    "colors.conf" None None 0 true false)] |}.

Definition bare_output_world : World :=
  {| files := [("colors.conf", {| content := "mine"; mtime := 50 |})];
     dirs := ["/c"; "/c/backups"];
     now := 300 |}.

(** ** Stand-ins for the libraries, used to run the code on examples *)

Definition example_numpy : Numpy :=
  {| np_sqrt := fun x => ((x + 1) / 2)%Q;
     np_std := fun l => match l with
                        | [] => 0%Q
                        | x :: rest =>
                            ((PyList.maxQ_list x rest - PyList.minQ_list x rest) / 2)%Q
                        end |}.

Definition example_colorspacious : Colorspacious :=
  {| cspace_convert := fun v _ _ => v |}.

(** Images are lists of pixels; one file exists. *)
Definition example_pixels : list RGB :=
  [(10, 10, 10); (200, 30, 30); (240, 240, 240); (30, 200, 30); (30, 30, 200)].

Definition example_pillow : Pillow :=
  {| Image := list RGB;
     Image_open := fun path =>
       if String.eqb path "/img/wall.png" then Ok example_pixels
       else Raise (FileNotFoundError path);
     Image_mode := fun _ => "RGB";
     Image_convert := fun image _ => Ok image;
     Image_thumbnail := fun image _ => Ok image;
     Image_quantize_mediancut := fun image _ => Ok image;
     Image_getpalette := fun image => flat_map (fun '(r, g, b) => [r; g; b]) image;
     Image_pixels := fun image => image |}.

(** A k-means that takes the first points as centres, after skipping a
    number of points drawn from the global random state when no seed is
    given; it refuses more clusters than points. *)
Definition example_sklearn : Sklearn :=
  {| RandomState := Z;
     KMeans_fit := fun n_clusters random_state _ rng X =>
       if Z.of_nat (List.length X) <? n_clusters
       then Raise (ValueError "n_samples should be >= n_clusters")
       else match random_state with
            | Some _ => Ok (firstn (Z.to_nat n_clusters) X)
            | None => Ok (firstn (Z.to_nat n_clusters) (skipn (Z.to_nat rng) X
                                                          ++ firstn (Z.to_nat rng) X))
            end |}.

(** A ColorThief that cannot read any file. *)
Definition example_colorthief : ColorThiefLib :=
  {| ColorThief := unit;
     ColorThief_init := fun path => Raise (LibraryError "cannot identify image file");
     ColorThief_get_color := fun _ _ => Raise (LibraryError "no image");
     ColorThief_get_palette := fun _ _ _ => Raise (LibraryError "no image") |}.

Definition example_environment : Environment :=
  {| strftime_compact := fun _ => "20240101_120000";
     isoformat := fun _ => "2024-01-01T12:00:00";
     user_home := "/home/u";
     render_template := fun _ _ _ _ _ => Ok "rendered";
     generate_swaync_css := fun _ => Ok "css";
     subprocess_run := fun _ => Ok ("", "", 0) |}.

Definition example_palette : ColorPalette :=
  {| colors := [(BACKGROUND, SemanticColor.init 10 10 10 BACKGROUND 1 255);
                (TEXT, SemanticColor.init 240 240 240 TEXT 1 255);
                (PRIMARY, SemanticColor.init 200 30 30 PRIMARY 1 255)];
     source_image := Some "/img/wall.png";
     extraction_method := Some "automatic_assignment";
     quality_score := None |}.

(** Order of two elements by a sort key. *)
Definition key_le {A} (key : A -> Q) (x y : A) : Prop := (key x <= key y)%Q.

(** A stand-in for [json.dump], used to run [apply_theme] on examples. *)
Definition example_json : JsonLib :=
  {| json_dump_record := fun timestamp _ _ => "{timestamp: " ++ timestamp ++ "}" |}.

(** The test of [list_backups] on one directory entry, for the key
    [app_name]: the name ends in ".backup", has at least two parts and its
    first part is [app_name]. *)
Definition listed_under (app_name filename : string) : bool :=
  PyStr.endswith filename ".backup"
  && match PyStr2.split "_" filename with
     | part :: _ :: _ => String.eqb part app_name
     | _ => false
     end.

(** The entries [list_backups] gathers under [app_name], in directory order. *)
Definition listed_entries (self : ThemeApplier) (fs : FS.t) (app_name : string)
    (filenames : list string) : list (string * Q) :=
  flat_map (fun filename =>
              if listed_under app_name filename then
                let backup_path := Path.join (backup_dir self) filename in
                match FS.getmtime fs backup_path with
                | Ok m => [(backup_path, m)]
                | Raise _ => []
                end
              else []) filenames.

(** [backups[app_name]] after appending [l] (creating the key if needed). *)
Definition appended (o : option (list (string * Q))) (l : list (string * Q))
  : option (list (string * Q)) :=
  match o, l with
  | None, [] => None
  | None, _ :: _ => Some l
  | Some l0, _ => Some (l0 ++ l)%list
  end.

(* ===================================================================== *)
(** * Properties *)
(* ===================================================================== *)

Lemma ColorRole_eqb_spec (a b : ColorRole) : reflect (a = b) (ColorRole_eqb a b).
Proof. destruct a, b; simpl; constructor; congruence. Qed.

Lemma ColorRole_eqb_refl (a : ColorRole) : ColorRole_eqb a a = true.
Proof. destruct a; reflexivity. Qed.

Example hex_example :
  SemanticColor.hex (SemanticColor.init 300 (-4) 171 PRIMARY 1 255) = "#ff00ab".
Proof. reflexivity. Qed.

Example format_02x_examples :
  Py.format_02x 5 = "05" /\ Py.format_02x 255 = "ff" /\ Py.format_02x 4096 = "1000"
  /\ Py.format_02x (-1) = "-1" /\ Py.format_02x (-255) = "-ff" /\ Py.format_02x 0 = "00".
Proof. repeat split; reflexivity. Qed.

Example from_hex_examples :
  SemanticColor.from_hex "#1aB" PRIMARY = Ok (SemanticColor.init 17 170 187 PRIMARY 1 255)
  /\ SemanticColor.from_hex "ff00ab80" TEXT = Ok (SemanticColor.init 255 0 171 TEXT 1 255)
  /\ is_ok (SemanticColor.from_hex "#ff00a" PRIMARY) = false
  /\ is_ok (SemanticColor.from_hex "#ff00ag" PRIMARY) = false.
Proof. repeat split; reflexivity. Qed.

(* --------------------------------------------------------------------- *)
(** ** SemanticColor: clamping and the hexadecimal form *)
(* --------------------------------------------------------------------- *)

Lemma clamp_byte (n : Z) : 0 <= Py.maxZ 0 (Py.minZ 255 n) <= 255.
Proof.
  unfold Py.maxZ, Py.minZ.
  destruct (n <? 255) eqn:E1.
  - apply Z.ltb_lt in E1. destruct (0 <? n) eqn:E2.
    + apply Z.ltb_lt in E2. lia.
    + lia.
  - simpl. lia.
Qed.

Lemma Qltb_true (a b : Q) : Py.Qltb a b = true <-> (a < b)%Q.
Proof.
  unfold Py.Qltb. rewrite negb_true_iff. split.
  - intros H. apply Qnot_le_lt. intros L. apply Qle_bool_iff in L. congruence.
  - intros H. destruct (Qle_bool b a) eqn:E; [|reflexivity].
    apply Qle_bool_iff in E. exfalso. apply (Qlt_not_le _ _ H E).
Qed.

Lemma Qltb_false (a b : Q) : Py.Qltb a b = false <-> (b <= a)%Q.
Proof.
  unfold Py.Qltb. rewrite negb_false_iff. apply Qle_bool_iff.
Qed.

Lemma clamp_unit (x : Q) : (0 <= Py.maxQ 0 (Py.minQ 1 x) <= 1)%Q.
Proof.
  unfold Py.maxQ, Py.minQ.
  destruct (Py.Qltb x 1) eqn:E1.
  - apply Qltb_true in E1. destruct (Py.Qltb 0 x) eqn:E2.
    + apply Qltb_true in E2. split; lra.
    + split; lra.
  - assert (E2 : Py.Qltb 0 1 = true) by reflexivity. rewrite E2. split; lra.
Qed.

Lemma in_byte_values (n : Z) : 0 <= n <= 255 -> In n byte_values.
Proof.
  intros H. unfold byte_values. apply in_map_iff.
  exists (Z.to_nat n). split; [lia|]. apply in_seq. lia.
Qed.

Lemma format_02x_all_bytes : forallb format_02x_reads_back byte_values = true.
Proof. vm_compute. reflexivity. Qed.

Lemma format_02x_byte (n : Z) :
  0 <= n <= 255 ->
  exists a b : ascii,
    Py.format_02x n = String a (String b EmptyString)
    /\ Py.is_lower_hex_digit a = true /\ Py.is_lower_hex_digit b = true
    /\ Py.int16 (String a (String b EmptyString)) = Ok n.
Proof.
  intros H. apply in_byte_values in H.
  pose proof (proj1 (forallb_forall _ _) format_02x_all_bytes n H) as C.
  unfold format_02x_reads_back in C.
  destruct (Py.format_02x n) as [|a [|b [|]]]; try discriminate.
  exists a, b.
  apply andb_true_iff in C. destruct C as [C C3].
  apply andb_true_iff in C. destruct C as [C1 C2].
  destruct (Py.int16 (String a (String b ""))) as [v|]; [|discriminate].
  apply Z.eqb_eq in C3. subst v. auto.
Qed.

(** C8.  Whatever integers and whatever confidence the constructor of
    [SemanticColor] receives, after [__post_init__] the channels [r], [g],
    [b] and [alpha] lie in [0, 255] and [confidence] lies in [0, 1]; hence
    [hex] is ["#"] followed by exactly six lowercase hexadecimal digits. *)
Theorem semantic_color_clamped_and_hex
    (r0 g0 b0 : Z) (ro : ColorRole) (conf : Q) (a0 : Z) :
  let c := SemanticColor.init r0 g0 b0 ro conf a0 in
  0 <= r c <= 255 /\ 0 <= g c <= 255 /\ 0 <= b c <= 255
  /\ 0 <= alpha c <= 255
  /\ (0 <= confidence c <= 1)%Q
  /\ exists digits : string,
       SemanticColor.hex c = String "#" digits
       /\ String.length digits = 6%nat
       /\ Py.all_chars Py.is_lower_hex_digit digits = true.
Proof.
  intros c.
  pose proof (clamp_byte r0) as Hr. pose proof (clamp_byte g0) as Hg.
  pose proof (clamp_byte b0) as Hb. pose proof (clamp_byte a0) as Ha.
  pose proof (clamp_unit conf) as Hc.
  repeat (split; [assumption|]).
  destruct (format_02x_byte _ Hr) as (r1 & r2 & Er & Lr1 & Lr2 & _).
  destruct (format_02x_byte _ Hg) as (g1 & g2 & Eg & Lg1 & Lg2 & _).
  destruct (format_02x_byte _ Hb) as (b1 & b2 & Eb & Lb1 & Lb2 & _).
  unfold SemanticColor.hex. subst c. cbn [r g b SemanticColor.init].
  rewrite Er, Eg, Eb. cbn [append].
  eexists. split; [reflexivity|]. split; [reflexivity|].
  cbn [Py.all_chars]. rewrite Lr1, Lr2, Lg1, Lg2, Lb1, Lb2. reflexivity.
Qed.

(* --------------------------------------------------------------------- *)
(** ** SemanticColor.from_hex *)
(* --------------------------------------------------------------------- *)

Lemma lower_hex_is_hex (c : ascii) :
  Py.is_lower_hex_digit c = true -> Py.is_hex_digit c = true.
Proof.
  unfold Py.is_lower_hex_digit, Py.is_hex_digit, Py.hex_value.
  destruct (_ && _); [reflexivity|]. simpl.
  destruct (_ && _); [reflexivity|discriminate].
Qed.

Lemma hex_digit_not_hash (c : ascii) :
  Py.is_hex_digit c = true -> Ascii.eqb c "#" = false.
Proof.
  destruct (Ascii.eqb_spec c "#") as [->|]; [|reflexivity].
  vm_compute. discriminate.
Qed.

Lemma lstrip_hex_digits (s : string) :
  Py.all_chars Py.is_hex_digit s = true -> Py.lstrip "#" s = s.
Proof.
  destruct s as [|c s]; [reflexivity|]. simpl.
  intros H. apply andb_true_iff in H. destruct H as [H _].
  rewrite (hex_digit_not_hash _ H). reflexivity.
Qed.

Lemma int16_two_digits (a b : ascii) :
  Py.is_hex_digit a = true -> Py.is_hex_digit b = true ->
  exists v, Py.int16 (String a (String b "")) = Ok v /\ 0 <= v <= 255.
Proof.
  unfold Py.is_hex_digit, Py.int16. cbn [Py.int16_digits].
  destruct (Py.hex_value a) as [x|] eqn:Ea; [|discriminate].
  destruct (Py.hex_value b) as [y|] eqn:Eb; [|discriminate].
  intros _ _. eexists. split; [reflexivity|].
  assert (R : forall c v, Py.hex_value c = Some v -> 0 <= v <= 15).
  { clear. intros c v. unfold Py.hex_value.
    repeat match goal with
           | |- context [if ?t then _ else _] => destruct t eqn:?
           end; intros [= <-]; lia. }
  apply R in Ea. apply R in Eb. lia.
Qed.

Lemma clamp_id (n : Z) : 0 <= n <= 255 -> Py.maxZ 0 (Py.minZ 255 n) = n.
Proof.
  intros H. unfold Py.maxZ, Py.minZ.
  destruct (n <? 255) eqn:E1.
  - destruct (0 <? n) eqn:E2; [reflexivity|]. apply Z.ltb_ge in E2. lia.
  - apply Z.ltb_ge in E1. assert (n = 255) by lia. subst. reflexivity.
Qed.

Ltac split_hex_digits H :=
  cbn [Py.all_chars] in H;
  repeat match type of H with
         | (_ && _)%bool = true =>
             let H1 := fresh "D" in
             apply andb_true_iff in H; destruct H as [H1 H]
         end.

Ltac read_two_digits a b Da Db v :=
  let E := fresh "E" in let R := fresh "R" in
  destruct (int16_two_digits a b Da Db) as (v & E & R);
  rewrite ?E; cbn [bind Py.slice Nat.sub substring].

(** C10.  Reading back the [hex] form of a colour gives its [r], [g] and
    [b]; [from_hex] accepts strings of 3, 6 or 8 hexadecimal digits, with
    or without a leading ["#"], and raises [ValueError] whenever the text
    left after stripping ["#"] has any other length. *)
Theorem from_hex_roundtrip_and_lengths :
  (forall (r0 g0 b0 : Z) (ro : ColorRole) (conf : Q) (a0 : Z) (ro' : ColorRole),
      let c := SemanticColor.init r0 g0 b0 ro conf a0 in
      exists c', SemanticColor.from_hex (SemanticColor.hex c) ro' = Ok c'
                 /\ r c' = r c /\ g c' = g c /\ b c' = b c)
  /\ (forall (s : string) (ro : ColorRole),
         Py.all_chars Py.is_hex_digit s = true ->
         String.length s = 3%nat \/ String.length s = 6%nat \/ String.length s = 8%nat ->
         is_ok (SemanticColor.from_hex s ro) = true
         /\ SemanticColor.from_hex (String "#" s) ro = SemanticColor.from_hex s ro)
  /\ (forall (s : string) (ro : ColorRole),
         let n := String.length (Py.lstrip "#" s) in
         n <> 3%nat -> n <> 6%nat -> n <> 8%nat ->
         exists msg, SemanticColor.from_hex s ro = Raise (ValueError msg)).
Proof.
  split; [|split].
  - intros r0 g0 b0 ro conf a0 ro' c.
    pose proof (clamp_byte r0) as Hr. pose proof (clamp_byte g0) as Hg.
    pose proof (clamp_byte b0) as Hb.
    destruct (format_02x_byte _ Hr) as (r1 & r2 & Er & Lr1 & Lr2 & Ir).
    destruct (format_02x_byte _ Hg) as (g1 & g2 & Eg & Lg1 & Lg2 & Ig).
    destruct (format_02x_byte _ Hb) as (b1 & b2 & Eb & Lb1 & Lb2 & Ib).
    unfold SemanticColor.hex. subst c. cbn [r g b SemanticColor.init].
    rewrite Er, Eg, Eb. cbn [append].
    unfold SemanticColor.from_hex. cbn [Py.lstrip].
    rewrite Ascii.eqb_refl.
    rewrite (hex_digit_not_hash _ (lower_hex_is_hex _ Lr1)).
    cbn [Py.len String.length Z.of_nat Pos.of_succ_nat Pos.succ Z.eqb Pos.eqb bind
         Py.slice Nat.sub substring].
    rewrite Ir, Ig, Ib. cbn [bind].
    eexists. split; [reflexivity|]. cbn [r g b SemanticColor.init].
    repeat split; apply clamp_id; assumption.
  - intros s ro Hs Hlen.
    split;
      [|unfold SemanticColor.from_hex; cbn [Py.lstrip];
        rewrite Ascii.eqb_refl; reflexivity].
    unfold SemanticColor.from_hex. rewrite (lstrip_hex_digits s Hs).
    destruct Hlen as [L|[L|L]].
    + destruct s as [|c1 [|c2 [|c3 [|]]]]; try discriminate L.
      split_hex_digits Hs.
      cbn [Py.len String.length Z.of_nat Pos.of_succ_nat Pos.succ Z.eqb Pos.eqb bind
           Py.double_chars Py.slice Nat.sub substring].
      read_two_digits c1 c1 D D v1. read_two_digits c2 c2 D0 D0 v2.
      read_two_digits c3 c3 D1 D1 v3. reflexivity.
    + destruct s as [|c1 [|c2 [|c3 [|c4 [|c5 [|c6 [|]]]]]]]; try discriminate L.
      split_hex_digits Hs.
      cbn [Py.len String.length Z.of_nat Pos.of_succ_nat Pos.succ Z.eqb Pos.eqb bind
           Py.slice Nat.sub substring].
      read_two_digits c1 c2 D D0 v1. read_two_digits c3 c4 D1 D2 v2.
      read_two_digits c5 c6 D3 D4 v3. reflexivity.
    + destruct s as [|c1 [|c2 [|c3 [|c4 [|c5 [|c6 [|c7 [|c8 [|]]]]]]]]];
        try discriminate L.
      split_hex_digits Hs.
      cbn [Py.len String.length Z.of_nat Pos.of_succ_nat Pos.succ Z.eqb Pos.eqb bind
           Py.slice Nat.sub substring].
      read_two_digits c7 c8 D5 D6 va.
      read_two_digits c1 c2 D D0 v1. read_two_digits c3 c4 D1 D2 v2.
      read_two_digits c5 c6 D3 D4 v3. reflexivity.
  - intros s ro n N3 N6 N8. unfold SemanticColor.from_hex.
    fold n. unfold Py.len. fold n.
    destruct (Z.eqb_spec (Z.of_nat n) 3); [lia|].
    destruct (Z.eqb_spec (Z.of_nat n) 6); [lia|].
    destruct (Z.eqb_spec (Z.of_nat n) 8); [lia|].
    cbn [bind]. eexists. reflexivity.
Qed.

(* --------------------------------------------------------------------- *)
(** ** The quality score *)
(* --------------------------------------------------------------------- *)

Lemma clamp_unit_flipped (x : Q) : (0 <= Py.minQ 1 (Py.maxQ 0 x) <= 1)%Q.
Proof.
  unfold Py.maxQ, Py.minQ.
  destruct (Py.Qltb 0 x) eqn:E1.
  - apply Qltb_true in E1. destruct (Py.Qltb x 1) eqn:E2.
    + apply Qltb_true in E2. split; lra.
    + split; lra.
  - assert (E2 : Py.Qltb 0 1 = true) by reflexivity. rewrite E2. split; lra.
Qed.

Lemma required_roles_present (p : ColorPalette) :
  forallb (Dict.mem (colors p)) ColorPalette.required_roles = true ->
  exists primary bg text,
    ColorPalette.get_primary p = Ok primary
    /\ ColorPalette.get_background p = Ok bg
    /\ ColorPalette.get_text p = Ok text.
Proof.
  unfold ColorPalette.required_roles, ColorPalette.get_primary,
    ColorPalette.get_background, ColorPalette.get_text, Dict.getitem, Dict.mem.
  cbn [forallb]. intros H.
  apply andb_true_iff in H. destruct H as [H1 H].
  apply andb_true_iff in H. destruct H as [H2 H].
  apply andb_true_iff in H. destruct H as [H3 _].
  destruct (Dict.get (colors p) PRIMARY) as [x|]; [|discriminate].
  destruct (Dict.get (colors p) BACKGROUND) as [y|]; [|discriminate].
  destruct (Dict.get (colors p) TEXT) as [z|]; [|discriminate].
  exists x, y, z. auto.
Qed.

(** C1.  For a palette that holds the required roles (every constructed
    palette does) and any image, the quality score is the weighted sum of
    the five component scores, with weights 0.3 (contrast, itself
    [min(1.0, text_on_background / 4.5)]), 0.25 (diversity), 0.2
    (saturation balance), 0.15 (luminance distribution) and 0.1 (mean
    confidence); the weights add up to 1, and the result is that sum
    clamped into [0, 1]. *)
Theorem quality_score_weighted_and_clamped
    {FP : FloatPow} {NP : Numpy} {CS : Colorspacious} {PIL : Pillow}
    (palette : ColorPalette) (image : Image) :
  forallb (Dict.mem (colors palette)) ColorPalette.required_roles = true ->
  exists (text bg : SemanticColor) (total q : Q),
    ColorPalette.get_text palette = Ok text
    /\ ColorPalette.get_background palette = Ok bg
    /\ Extractor._calculate_quality_score palette image = Ok q
    /\ (0.3 + 0.25 + 0.2 + 0.15 + 0.1 == 1)%Q
    /\ (let cs := Dict.values (colors palette) in
        total ==
          0.3 * Py.minQ 1 (Color.contrast_ratio text bg / 4.5)
          + 0.25 * Extractor._calculate_color_diversity cs
          + 0.2 * Extractor._calculate_saturation_balance cs
          + 0.15 * Extractor._calculate_luminance_distribution cs
          + 0.1 * PyFloat.mean (map confidence cs))%Q
    /\ q = Py.minQ 1 (Py.maxQ 0 total)
    /\ (0 <= q <= 1)%Q.
Proof.
  intros H.
  destruct (required_roles_present palette H) as (primary & bg & text & Ep & Eb & Et).
  exists text, bg.
  unfold Extractor._calculate_quality_score, Extractor.quality_scores,
    ColorPalette.validate_contrast.
  rewrite Eb, Et, Ep. cbn [bind].
  destruct (ColorPalette.get_accent palette) as [accent|];
    cbn [bind app ColorPalette.contrasts_get];
    rewrite String.eqb_refl; cbn [map PyFloat.sum fold_left];
    (eexists; eexists; split; [reflexivity|]; split; [reflexivity|];
     split; [reflexivity|]; split; [reflexivity|];
     split; [|split; [reflexivity|apply clamp_unit_flipped]];
     cbv zeta; ring).
Qed.

(* --------------------------------------------------------------------- *)
(** ** Lists: the stable sort and [max] with a key *)
(* --------------------------------------------------------------------- *)

Section ListFacts.
Context {A : Type} (key : A -> Q).

Lemma insert_by_perm (x : A) (l : list A) :
    Permutation (PyList.insert_by key x l) (x :: l).
  Proof.
    induction l as [|y l IH]; cbn [PyList.insert_by]; [reflexivity|].
    destruct (Py.Qltb (key y) (key x)); [|reflexivity].
    rewrite IH. apply perm_swap.
  Qed.

Lemma sort_by_perm (l : list A) : Permutation (PyList.sort_by key l) l.
  Proof.
    induction l as [|x l IH]; cbn [PyList.sort_by fold_right]; [reflexivity|].
    rewrite insert_by_perm. apply perm_skip. exact IH.
  Qed.

Lemma sort_by_length (l : list A) :
    List.length (PyList.sort_by key l) = List.length l.
  Proof. apply Permutation_length, sort_by_perm. Qed.

Lemma insert_by_sorted (x : A) (l : list A) :
    StronglySorted (key_le key) l -> StronglySorted (key_le key) (PyList.insert_by key x l).
  Proof.
    induction 1 as [|y l Hs IH Hy]; cbn [PyList.insert_by].
    - repeat constructor.
    - destruct (Py.Qltb (key y) (key x)) eqn:E.
      + apply Qltb_true in E. constructor; [exact IH|].
        apply Forall_forall. intros z Hz.
        apply (Permutation_in _ (insert_by_perm x l)) in Hz.
        destruct Hz as [<-|Hz].
        * unfold key_le. lra.
        * exact (proj1 (Forall_forall _ _) Hy z Hz).
      + apply Qltb_false in E. constructor; [constructor; assumption|].
        constructor; [exact E|].
        apply Forall_forall. intros z Hz.
        pose proof (proj1 (Forall_forall _ _) Hy z Hz) as L.
        unfold key_le in *. lra.
  Qed.

Lemma sort_by_sorted (l : list A) : StronglySorted (key_le key) (PyList.sort_by key l).
  Proof.
    induction l as [|x l IH]; cbn [PyList.sort_by fold_right].
    - constructor.
    - apply insert_by_sorted. exact IH.
  Qed.

Lemma sorted_nth (l : list A) (d : A) :
    StronglySorted (key_le key) l ->
    forall i j, (i <= j)%nat -> (j < List.length l)%nat ->
                (key (nth i l d) <= key (nth j l d))%Q.
  Proof.
    induction 1 as [|x l Hs IH Hx]; intros i j Hij Hj; [simpl in Hj; lia|].
    destruct j as [|j].
    - assert (i = 0)%nat by lia. subst. simpl. lra.
    - destruct i as [|i].
      + cbn [nth]. simpl in Hj.
        apply (proj1 (Forall_forall _ _) Hx). apply nth_In. lia.
      + cbn [nth]. simpl in Hj. apply IH; lia.
  Qed.

Lemma max_by_fold_spec (rest : list A) (first : A) :
    let m := PyList.max_by key first rest in
    In m (first :: rest)
    /\ (key first <= key m)%Q
    /\ forall x, In x rest -> (key x <= key m)%Q.
  Proof.
    revert first. unfold PyList.max_by.
    induction rest as [|y rest IH]; intros first; cbn [fold_left].
    - split; [left; reflexivity|]. split; [lra|]. intros x [].
    - destruct (Py.Qltb (key first) (key y)) eqn:E.
      + apply Qltb_true in E. destruct (IH y) as (I & L & R).
        split; [right; exact I|]. split; [lra|].
        intros x [<-|Hx]; [exact L|apply R, Hx].
      + apply Qltb_false in E. destruct (IH first) as (I & L & R).
        split; [destruct I as [I|I]; [left; exact I|right; right; exact I]|].
        split; [exact L|].
        intros x [<-|Hx]; [lra|apply R, Hx].
  Qed.

Lemma max_by_spec (first : A) (rest : list A) :
    In (PyList.max_by key first rest) (first :: rest)
    /\ forall x, In x (first :: rest) ->
                 (key x <= key (PyList.max_by key first rest))%Q.
  Proof.
    destruct (max_by_fold_spec rest first) as (I & L & R).
    split; [exact I|]. intros x [<-|Hx]; [exact L|apply R, Hx].
  Qed.

End ListFacts.

Lemma max_by_ext {A} (key key' : A -> Q) (first : A) (rest : list A) :
  (forall x, key x = key' x) ->
  PyList.max_by key first rest = PyList.max_by key' first rest.
Proof.
  intros E. unfold PyList.max_by. revert first.
  induction rest as [|y rest IH]; intros first; cbn [fold_left]; [reflexivity|].
  rewrite !E. apply IH.
Qed.

(* --------------------------------------------------------------------- *)
(** ** The heap and the dictionary *)
(* --------------------------------------------------------------------- *)

Lemma update_length (h : Heap.t) (p : Heap.ref) f :
  List.length (Heap.update h p f) = List.length h.
Proof.
  revert p. induction h as [|c h IH]; intros [|p]; cbn [Heap.update List.length];
    try reflexivity. rewrite IH. reflexivity.
Qed.

Lemma deref_update_same (h : Heap.t) (p : Heap.ref) f :
  (p < List.length h)%nat ->
  Heap.deref (Heap.update h p f) p = f (Heap.deref h p).
Proof.
  unfold Heap.deref. revert p.
  induction h as [|c h IH]; intros [|p] H; simpl in H; try lia;
    cbn [Heap.update nth]; [reflexivity|]. apply IH. lia.
Qed.

Lemma deref_update_other (h : Heap.t) (p q : Heap.ref) f :
  p <> q -> Heap.deref (Heap.update h p f) q = Heap.deref h q.
Proof.
  unfold Heap.deref. revert p q.
  induction h as [|c h IH]; intros [|p] [|q] H; cbn [Heap.update nth];
    try reflexivity; try congruence.
  apply IH. congruence.
Qed.

Lemma deref_alloc_old (h : Heap.t) (c : SemanticColor) (q : Heap.ref) :
  (q < List.length h)%nat -> Heap.deref (h ++ [c])%list q = Heap.deref h q.
Proof. intros H. unfold Heap.deref. apply app_nth1. exact H. Qed.

Lemma deref_alloc_new (h : Heap.t) (c : SemanticColor) :
  Heap.deref (h ++ [c])%list (List.length h) = c.
Proof. unfold Heap.deref. rewrite app_nth2, Nat.sub_diag by lia. reflexivity. Qed.

Lemma dict_get_set_same {V} (d : Dict.t V) (k : ColorRole) (v : V) :
  Dict.get (Dict.set d k v) k = Some v.
Proof.
  induction d as [|[k' v'] d IH]; cbn [Dict.set Dict.get].
  - rewrite ColorRole_eqb_refl. reflexivity.
  - destruct (ColorRole_eqb k' k) eqn:E; cbn [Dict.get]; rewrite E; auto.
Qed.

Lemma dict_getitem_set_same {V} (d : Dict.t V) (k : ColorRole) (v : V) :
  Dict.getitem (Dict.set d k v) k = Ok v.
Proof. unfold Dict.getitem. rewrite dict_get_set_same. reflexivity. Qed.

(* --------------------------------------------------------------------- *)
(** ** ColorPalette.from_colors *)
(* --------------------------------------------------------------------- *)

Lemma deref_update (h : Heap.t) (p q : Heap.ref) f :
  Heap.deref (Heap.update h p f) q
  = if (Nat.eqb p q && Nat.ltb p (List.length h))%bool
    then f (Heap.deref h q) else Heap.deref h q.
Proof.
  destruct (Nat.eqb_spec p q) as [->|N]; cbn [andb].
  - destruct (Nat.ltb_spec q (List.length h)) as [L|L].
    + apply deref_update_same, L.
    + revert q L. induction h as [|c h IH]; intros [|q] L; simpl in L;
        cbn [Heap.update]; try reflexivity; try lia.
      unfold Heap.deref in *. cbn [nth]. apply IH. lia.
  - apply deref_update_other, N.
Qed.

Lemma deref_set_role_rgb (h : Heap.t) (p q : Heap.ref) (ro : ColorRole) :
  SemanticColor.rgb (Heap.deref (Heap.set_role h p ro) q)
  = SemanticColor.rgb (Heap.deref h q).
Proof.
  unfold Heap.set_role. rewrite deref_update.
  destruct (_ && _)%bool; reflexivity.
Qed.

Lemma rgb_set_role (c : SemanticColor) (ro : ColorRole) :
  SemanticColor.rgb (SemanticColor.set_role c ro) = SemanticColor.rgb c.
Proof. reflexivity. Qed.

Lemma saturation_rgb (x y : SemanticColor) :
  SemanticColor.rgb x = SemanticColor.rgb y -> Color.saturation x = Color.saturation y.
Proof.
  destruct x, y. unfold SemanticColor.rgb. cbn [r g b]. intros [= -> -> ->].
  reflexivity.
Qed.

Lemma lighten_rgb {FP : FloatPow} (x y : SemanticColor) (amount : Q) :
  SemanticColor.rgb x = SemanticColor.rgb y ->
  role x = role y -> confidence x = confidence y ->
  Color.lighten x amount = Color.lighten y amount.
Proof.
  destruct x, y. unfold SemanticColor.rgb. cbn [r g b role confidence].
  intros [= -> -> ->] -> ->. reflexivity.
Qed.

Section FromColors.
Context {FP : FloatPow}.

Lemma luminance_rgb (x y : SemanticColor) :
    SemanticColor.rgb x = SemanticColor.rgb y -> Color.luminance x = Color.luminance y.
  Proof.
    destruct x, y. unfold SemanticColor.rgb. cbn [r g b]. intros [= -> -> ->].
    reflexivity.
  Qed.

Lemma contrast_rgb (x x' y y' : SemanticColor) :
    SemanticColor.rgb x = SemanticColor.rgb x' ->
    SemanticColor.rgb y = SemanticColor.rgb y' ->
    Color.contrast_ratio x y = Color.contrast_ratio x' y'.
  Proof.
    intros Hx Hy. unfold Color.contrast_ratio.
    rewrite (luminance_rgb _ _ Hx), (luminance_rgb _ _ Hy). reflexivity.
  Qed.

  (** What is known of every object before any role is assigned. *)
Lemma sorted_colors_fresh (colors : list (Z * Z * Z)) (c : SemanticColor) :
    In c (sorted_colors colors) ->
    0 <= r c <= 255 /\ 0 <= g c <= 255 /\ 0 <= b c <= 255
    /\ role c = PRIMARY /\ confidence c = 1%Q /\ alpha c = 255.
  Proof.
    intros H. unfold sorted_colors in H.
    apply (Permutation_in _ (sort_by_perm _ _)) in H.
    apply in_map_iff in H. destruct H as ([[r0 g0] b0] & <- & _).
    unfold SemanticColor.from_rgb. cbn [r g b role confidence alpha SemanticColor.init].
    repeat split; try apply clamp_byte; reflexivity.
  Qed.

Lemma sorted_colors_length (colors : list (Z * Z * Z)) :
    List.length (sorted_colors colors) = List.length colors.
  Proof. unfold sorted_colors. rewrite sort_by_length. apply length_map. Qed.

Hypothesis fpow_nonneg : forall x y : Q, (0 <= x)%Q -> (0 <= fpow x y)%Q.

Lemma gamma_correct_nonneg (c : Q) : (0 <= c)%Q -> (0 <= Color.gamma_correct c)%Q.
  Proof.
    intros H. unfold Color.gamma_correct.
    destruct (PyFloat.le c 0.03928).
    - apply Qle_shift_div_l; lra.
    - apply fpow_nonneg. apply Qle_shift_div_l; lra.
  Qed.

Lemma luminance_nonneg (c : SemanticColor) :
    0 <= r c -> 0 <= g c -> 0 <= b c -> (0 <= Color.luminance c)%Q.
  Proof.
    intros Hr Hg Hb. unfold Color.luminance, Color.rgb_float.
    assert (F : forall n, 0 <= n -> (0 <= Color.gamma_correct (inject_Z n / 255))%Q).
    { intros n Hn. apply gamma_correct_nonneg. apply Qle_shift_div_l; [lra|].
      rewrite Qmult_0_l. change (inject_Z 0 <= inject_Z n)%Q.
      rewrite <- Zle_Qle. exact Hn. }
    pose proof (F _ Hr). pose proof (F _ Hg). pose proof (F _ Hb).
    nra.
  Qed.

  (** Against a darker colour, the contrast ratio grows with luminance. *)
Lemma contrast_monotone (bg x y : SemanticColor) :
    (0 <= Color.luminance bg)%Q ->
    (Color.luminance bg <= Color.luminance x)%Q ->
    (Color.luminance x <= Color.luminance y)%Q ->
    (Color.contrast_ratio x bg <= Color.contrast_ratio y bg)%Q.
  Proof.
    intros H0 H1 H2.
    assert (F : forall z, (Color.luminance bg <= Color.luminance z)%Q ->
                (Color.contrast_ratio z bg
                 == (Color.luminance z + 0.05) / (Color.luminance bg + 0.05))%Q).
    { intros z Hz. unfold Color.contrast_ratio, Py.maxQ, Py.minQ.
      destruct (Py.Qltb (Color.luminance z) (Color.luminance bg)) eqn:E1.
      - apply Qltb_true in E1. lra.
      - destruct (Py.Qltb (Color.luminance bg) (Color.luminance z)) eqn:E2;
          [reflexivity|].
        apply Qltb_false in E2.
        assert (E : (Color.luminance z == Color.luminance bg)%Q) by lra.
        rewrite E. reflexivity. }
    rewrite (F x H1), (F y) by lra.
    unfold Qdiv. apply Qmult_le_compat_r; [lra|].
    apply Qinv_le_0_compat. lra.
  Qed.

End FromColors.

Lemma index_seq0 (n : nat) : (0 < n)%nat -> PyList.index (seq 0 n) 0 = Ok 0%nat.
Proof. destruct n; [lia|]. reflexivity. Qed.

Lemma rev_seq0 (k : nat) : rev (seq 0 (S k)) = k :: rev (seq 0 k).
Proof. rewrite seq_S, rev_app_distr. reflexivity. Qed.

Lemma rev_seq0_pos (n : nat) :
  (0 < n)%nat -> rev (seq 0 n) = (n - 1)%nat :: rev (seq 0 (n - 1)).
Proof.
  destruct n as [|k]; [lia|]. intros _. rewrite rev_seq0.
  replace (S k - 1)%nat with k by lia. reflexivity.
Qed.

Lemma set_role_length (h : Heap.t) (p : Heap.ref) (ro : ColorRole) :
  List.length (Heap.set_role h p ro) = List.length h.
Proof. apply update_length. Qed.

Lemma deref_set_role_same (h : Heap.t) (p : Heap.ref) (ro : ColorRole) :
  (p < List.length h)%nat ->
  Heap.deref (Heap.set_role h p ro) p = SemanticColor.set_role (Heap.deref h p) ro.
Proof. intros H. unfold Heap.set_role. rewrite deref_update_same; auto. Qed.

Lemma deref_set_role_other (h : Heap.t) (p q : Heap.ref) (ro : ColorRole) :
  p <> q -> Heap.deref (Heap.set_role h p ro) q = Heap.deref h q.
Proof. apply deref_update_other. Qed.

Lemma last_item_seq0 (n : nat) :
  (0 < n)%nat -> PyList.last_item (seq 0 n) = Ok (n - 1)%nat.
Proof.
  destruct n as [|k]; [lia|]. intros _. unfold PyList.last_item.
  rewrite rev_seq0. f_equal. lia.
Qed.

Lemma firstn_seq_le (k start len : nat) :
  (k <= len)%nat -> firstn k (seq start len) = seq start k.
Proof.
  revert start len. induction k as [|k IH]; intros start [|len] H;
    cbn [firstn seq]; try reflexivity; try lia.
  f_equal. apply IH. lia.
Qed.

Lemma slice_seq0 (n : nat) :
  (3 <= n)%nat -> PyList.slice 1 (n - 1) (seq 0 n) = 1%nat :: seq 2 (n - 3).
Proof.
  intros H. unfold PyList.slice. rewrite skipn_seq, firstn_seq_le by lia.
  replace (n - 1 - 1)%nat with (S (n - 3)) by lia.
  reflexivity.
Qed.

Lemma deref_alloc_at (h : Heap.t) (c : SemanticColor) (p : Heap.ref) :
  p = List.length h -> Heap.deref (h ++ [c])%list p = c.
Proof. intros ->. apply deref_alloc_new. Qed.

Ltac heap_length := rewrite ?length_app, ?set_role_length; cbn [List.length]; lia.

Ltac heap_simpl :=
  repeat first
    [ rewrite deref_set_role_same by heap_length
    | rewrite deref_set_role_other by heap_length
    | rewrite deref_alloc_at by (rewrite ?set_role_length; reflexivity)
    | rewrite deref_alloc_old by heap_length ].

Section FromColorsRun.
Context {FP : FloatPow}.

Lemma assign_text_none (h : Heap.t) (bg : Heap.ref) (cands : list Heap.ref)
      (cm : Dict.t Heap.ref) :
    (forall c, In c cands ->
       PyFloat.ge (Color.contrast_ratio (Heap.deref h c) (Heap.deref h bg)) 3 = false) ->
    ColorPalette.assign_text h bg cands cm = Ok (cm, h).
  Proof.
    induction cands as [|c cands IH]; intros H; cbn [ColorPalette.assign_text];
      [reflexivity|].
    rewrite (H c (or_introl eq_refl)). apply IH.
    intros c' Hc'. apply H. right. exact Hc'.
  Qed.

Lemma primary_ref_range (h0 : Heap.t) :
    (3 <= List.length h0)%nat ->
    (1 <= primary_ref h0 <= List.length h0 - 2)%nat.
  Proof.
    intros H. unfold primary_ref.
    destruct (max_by_spec (fun c => Color.saturation (Heap.deref h0 c)) 1%nat
                (seq 2 (List.length h0 - 3))) as [[E|I] _].
    - rewrite <- E. lia.
    - apply in_seq in I. lia.
  Qed.

Lemma remaining_refs_spec (h0 : Heap.t) (c : Heap.ref) :
    In c (remaining_refs h0) ->
    (c < List.length h0)%nat /\ c <> 0%nat
    /\ c <> (List.length h0 - 1)%nat /\ c <> primary_ref h0.
  Proof.
    unfold remaining_refs. intros H. apply filter_In in H. destruct H as [I N].
    apply in_seq in I. split; [lia|].
    apply negb_true_iff in N. unfold ColorPalette.in_values, map_after_primary in N.
    cbn [Dict.values map snd existsb] in N.
    repeat match type of N with
           | (_ || _)%bool = false =>
               let E := fresh "E" in
               apply orb_false_iff in N; destruct N as [E N];
               apply orb_false_iff in E; destruct E as [E _];
               apply Nat.eqb_neq in E
           end.
    repeat split; congruence.
  Qed.

Lemma remaining_refs_nodup (h0 : Heap.t) : NoDup (remaining_refs h0).
  Proof. apply NoDup_filter, seq_NoDup. Qed.

Hypothesis fpow_nonneg : forall x y : Q, (0 <= x)%Q -> (0 <= fpow x y)%Q.

  (** If the lightest object fails the contrast test, every object does. *)
Lemma lightest_fails_all_fail (colors : list (Z * Z * Z)) (c : Heap.ref) :
    let h0 := sorted_colors colors in
    let h1 := Heap.set_role h0 0%nat BACKGROUND in
    (c < List.length h0)%nat ->
    PyFloat.ge (Color.contrast_ratio (Heap.deref h1 (List.length h0 - 1)%nat)
                  (Heap.deref h1 0%nat)) 3 = false ->
    PyFloat.ge (Color.contrast_ratio (Heap.deref h1 c) (Heap.deref h1 0%nat)) 3 = false.
  Proof.
    intros h0 h1 Hc F.
    assert (E : forall q, Color.contrast_ratio (Heap.deref h1 q) (Heap.deref h1 0%nat)
                          = Color.contrast_ratio (Heap.deref h0 q) (Heap.deref h0 0%nat)).
    { intros q. apply contrast_rgb; apply deref_set_role_rgb. }
    rewrite E in *.
    pose proof (sort_by_sorted Color.luminance
                  (map (fun '(r, g, b) => SemanticColor.from_rgb r g b PRIMARY) colors))
      as S.
    fold (sorted_colors colors) in S. fold h0 in S.
    assert (B : (0 <= Color.luminance (Heap.deref h0 0%nat))%Q).
    { destruct (sorted_colors_fresh colors (Heap.deref h0 0%nat)) as (R & G & Bl & _).
      - apply nth_In. fold h0. lia.
      - apply luminance_nonneg; tauto. }
    pose proof (contrast_monotone (Heap.deref h0 0%nat) (Heap.deref h0 c)
                  (Heap.deref h0 (List.length h0 - 1)%nat) B) as M.
    unfold PyFloat.ge in *.
    destruct (Qle_bool 3 (Color.contrast_ratio (Heap.deref h0 c) (Heap.deref h0 0%nat)))
      eqn:P; [|reflexivity].
    apply Qle_bool_iff in P.
    assert (L : (3 <= Color.contrast_ratio (Heap.deref h0 (List.length h0 - 1)%nat)
                        (Heap.deref h0 0%nat))%Q).
    { eapply Qle_trans; [exact P|]. apply M.
      - apply (sorted_nth Color.luminance h0 Heap.null_object S); lia.
      - apply (sorted_nth Color.luminance h0 Heap.null_object S); lia. }
    apply Qle_bool_iff in L. congruence.
  Qed.

Lemma from_colors_run (colors : list (Z * Z * Z)) (src : option string) :
    (3 <= List.length colors)%nat ->
    ColorPalette.from_colors colors src
    = Ok {| colors := assigned_colors (sorted_colors colors);
            source_image := src;
            extraction_method := Some "automatic_assignment";
            quality_score := None |}.
  Proof.
    intros Hlen. unfold ColorPalette.from_colors.
    destruct (Z.ltb_spec (Z.of_nat (List.length colors)) 3) as [L|_]; [lia|].
    fold (sorted_colors colors).
    pose proof (lightest_fails_all_fail colors) as Fails.
    set (h0 := sorted_colors colors) in *.
    assert (Hn : (3 <= List.length h0)%nat)
      by (unfold h0; rewrite sorted_colors_length; exact Hlen).
    cbv zeta in *.
    rewrite index_seq0 by lia. cbn [bind].
    rewrite !dict_getitem_set_same. cbn [bind].
    match goal with
    | |- bind _ ?K = ?R =>
        assert (HK : K ([(BACKGROUND, 0%nat); (TEXT, (List.length h0 - 1)%nat)],
                        Heap.set_role (Heap.set_role h0 0%nat BACKGROUND)
                          (List.length h0 - 1)%nat TEXT) = R)
    end.
    2: {
      rewrite rev_seq0_pos by lia. cbn [ColorPalette.assign_text].
      destruct (PyFloat.ge _ 3) eqn:P.
      - rewrite dict_getitem_set_same. cbn [bind]. exact HK.
      - rewrite assign_text_none.
        + cbn [bind Dict.set Dict.empty Dict.mem Dict.get ColorRole_eqb negb].
          rewrite last_item_seq0 by lia.
          cbn [bind Dict.getitem Dict.get Dict.set ColorRole_eqb]. exact HK.
        + intros c Hc. apply in_rev, in_seq in Hc. apply Fails; [lia|reflexivity]. }
    clear Fails. cbn beta iota.
    cbn [Dict.mem Dict.get ColorRole_eqb negb bind].
    rewrite length_seq.
    destruct (Nat.ltb_spec 2 (List.length h0)) as [_|]; [|lia].
    rewrite slice_seq0 by lia.
    rewrite dict_getitem_set_same. cbn [bind].
    rewrite (max_by_ext _ (fun c => Color.saturation (Heap.deref h0 c)))
      by (intros x; apply saturation_rgb; rewrite !deref_set_role_rgb; reflexivity).
    fold (primary_ref h0).
    cbn [Dict.set ColorRole_eqb].
    fold (heap_after_primary h0).
    change (filter _ (seq 0 (List.length h0))) with (remaining_refs h0).
    pose proof (remaining_refs_spec h0) as RS.
    pose proof (remaining_refs_nodup h0) as ND.
    pose proof (primary_ref_range h0 Hn) as PR.
    unfold assigned_colors.
    destruct (remaining_refs h0) as [|s [|a rest]].
    - cbn [bind Dict.getitem Dict.get Dict.set Dict.mem ColorRole_eqb negb
           List.length Nat.ltb Nat.leb Heap.alloc app].
      unfold ColorPalette.init.
      cbn [map filter ColorPalette.required_roles Dict.mem Dict.get ColorRole_eqb negb].
      unfold heap_after_primary. rewrite !set_role_length.
      heap_simpl. reflexivity.
    - pose proof (RS s (or_introl eq_refl)) as Hs.
      cbn [bind Dict.getitem Dict.get Dict.set Dict.mem ColorRole_eqb negb
           List.length Nat.ltb Nat.leb Heap.alloc app].
      unfold ColorPalette.init.
      cbn [map filter ColorPalette.required_roles Dict.mem Dict.get ColorRole_eqb negb].
      unfold heap_after_primary. rewrite !set_role_length.
      heap_simpl. reflexivity.
    - pose proof (RS s (or_introl eq_refl)) as Hs.
      pose proof (RS a (or_intror (or_introl eq_refl))) as Ha.
      assert (Hsa : s <> a).
      { inversion ND as [|? ? N _]. intros ->. apply N. left. reflexivity. }
      cbn [bind Dict.getitem Dict.get Dict.set Dict.mem ColorRole_eqb negb
           List.length Nat.ltb Nat.leb Heap.alloc app PyList.index nth_error].
      unfold ColorPalette.init.
      cbn [map filter ColorPalette.required_roles Dict.mem Dict.get ColorRole_eqb negb].
      unfold heap_after_primary. rewrite !set_role_length.
      heap_simpl. reflexivity.
  Qed.
End FromColorsRun.

Lemma dict_get_in {V} (d : Dict.t V) (k : ColorRole) (v : V) :
  Dict.get d k = Some v -> In (k, v) d.
Proof.
  induction d as [|[k' v'] d IH]; cbn [Dict.get]; [discriminate|].
  destruct (ColorRole_eqb_spec k' k) as [->|N].
  - intros [= ->]. left. reflexivity.
  - intros H. right. apply IH, H.
Qed.

Lemma slice_In {A} (l : list A) (d : A) (i j : nat) (x : A) :
  (j <= List.length l)%nat ->
  In x (PyList.slice i j l) <-> exists m, (i <= m < j)%nat /\ nth m l d = x.
Proof.
  intros Hj. unfold PyList.slice. split.
  - intros H. apply (In_nth _ _ d) in H. destruct H as (k & Hk & E).
    rewrite length_firstn, length_skipn in Hk.
    rewrite nth_firstn in E.
    destruct (Nat.ltb_spec k (j - i)) as [L|L]; [|lia].
    rewrite nth_skipn in E. exists (i + k)%nat. split; [lia|exact E].
  - intros (m & Hm & <-).
    replace m with (i + (m - i))%nat by lia.
    rewrite <- nth_skipn.
    assert (E : nth (m - i) (skipn i l) d = nth (m - i) (firstn (j - i) (skipn i l)) d).
    { rewrite nth_firstn. destruct (Nat.ltb_spec (m - i) (j - i)); [reflexivity|lia]. }
    rewrite E. apply nth_In. rewrite length_firstn, length_skipn. lia.
Qed.

Lemma assigned_colors_entries {FP : FloatPow} (h0 : Heap.t) (k : ColorRole)
    (c : SemanticColor) :
  In (k, c) (assigned_colors h0) -> role c = k.
Proof.
  unfold assigned_colors.
  destruct (remaining_refs h0) as [|s [|a rest]]; cbn [app In];
    intros H; repeat destruct H as [H|H]; try contradiction;
    injection H as <- <-; reflexivity.
Qed.

Lemma assigned_colors_get {FP : FloatPow} (h0 : Heap.t) :
  let bg := SemanticColor.set_role (Heap.deref h0 0%nat) BACKGROUND in
  Dict.get (assigned_colors h0) BACKGROUND = Some bg
  /\ Dict.get (assigned_colors h0) TEXT
     = Some (SemanticColor.set_role (Heap.deref h0 (List.length h0 - 1)%nat) TEXT)
  /\ Dict.get (assigned_colors h0) PRIMARY
     = Some (SemanticColor.set_role (Heap.deref h0 (primary_ref h0)) PRIMARY)
  /\ Dict.get (assigned_colors h0) SURFACE
     = Some (SemanticColor.set_role (Color.lighten bg 0.05) SURFACE).
Proof.
  unfold assigned_colors.
  destruct (remaining_refs h0) as [|s [|a rest]]; repeat split; reflexivity.
Qed.

(** The red, green and blue of a lightened colour depend on the red, green
    and blue of the colour only. *)
Lemma lighten_rgb_only {FP : FloatPow} (x y : SemanticColor) (amount : Q) :
  SemanticColor.rgb x = SemanticColor.rgb y ->
  SemanticColor.rgb (Color.lighten x amount) = SemanticColor.rgb (Color.lighten y amount).
Proof.
  destruct x, y. unfold SemanticColor.rgb. cbn [r g b]. intros [= -> -> ->].
  unfold Color.lighten, Color.hsl64. cbn [r g b role confidence].
  destruct (colorsys64.rgb_to_hls _ _ _) as [[h l] s].
  destruct (colorsys64.hls_to_rgb _ _ _) as [[r' g'] b'].
  reflexivity.
Qed.

(** [lighten(0.05)] on every grey, by running the float operations on each
    of the 256 of them. *)
Lemma lighten_grey_bytes {FP : FloatPow} :
  forallb (fun v =>
             let c := Color.lighten (SemanticColor.from_rgb v v v PRIMARY) 0.05 in
             (r c =? Z.min 255 (v + 12)) && (g c =? Z.min 255 (v + 12))
             && (b c =? Z.min 255 (v + 12)))
    byte_values = true.
Proof. vm_compute. reflexivity. Qed.

Lemma lighten_grey {FP : FloatPow} (v : Z) (ro : ColorRole) (conf : Q) (a : Z) :
  0 <= v <= 255 ->
  SemanticColor.rgb (Color.lighten (SemanticColor.init v v v ro conf a) 0.05)
  = (Z.min 255 (v + 12), Z.min 255 (v + 12), Z.min 255 (v + 12)).
Proof.
  intros Hv.
  rewrite (lighten_rgb_only _ (SemanticColor.from_rgb v v v PRIMARY)) by reflexivity.
  pose proof (proj1 (forallb_forall _ _) lighten_grey_bytes v (in_byte_values v Hv)) as H.
  cbv zeta in H. apply andb_true_iff in H. destruct H as [H Hb].
  apply andb_true_iff in H. destruct H as [Hr Hg].
  apply Z.eqb_eq in Hr, Hg, Hb. unfold SemanticColor.rgb. rewrite Hr, Hg, Hb.
  reflexivity.
Qed.

Section FromColorsTheorems.
Context {FP : FloatPow}.
Hypothesis fpow_nonneg : forall x y : Q, (0 <= x)%Q -> (0 <= fpow x y)%Q.

  (** C5.  The constructor of [ColorPalette] succeeds exactly when
      [BACKGROUND], [TEXT] and [PRIMARY] are keys of the dictionary, and
      raises [ValueError] otherwise; [from_colors] returns a palette for
      every list of at least 3 colours, and that palette also holds
      [SURFACE], the background lightened by 0.05 (with the role
      [SURFACE] and alpha 255); on fewer than 3 colours
      [from_colors] raises [ValueError].  [lighten] is the float
      computation of the code; on a grey it adds 12 to each channel, up to
      255. *)
Theorem palette_required_roles_and_surface :
    (forall cs si em p,
        ColorPalette.init cs si em = Ok p ->
        colors p = cs
        /\ Dict.mem (colors p) BACKGROUND = true
        /\ Dict.mem (colors p) TEXT = true
        /\ Dict.mem (colors p) PRIMARY = true)
    /\ (forall cs si em,
           Dict.mem cs BACKGROUND = false \/ Dict.mem cs TEXT = false
           \/ Dict.mem cs PRIMARY = false ->
           exists msg, ColorPalette.init cs si em = Raise (ValueError msg))
    /\ (forall cs si em,
           Dict.mem cs BACKGROUND = true -> Dict.mem cs TEXT = true ->
           Dict.mem cs PRIMARY = true ->
           is_ok (ColorPalette.init cs si em) = true)
    /\ (forall rgbs src,
           (3 <= List.length rgbs)%nat ->
           exists p bg,
             ColorPalette.from_colors rgbs src = Ok p
             /\ Dict.mem (colors p) BACKGROUND = true
             /\ Dict.mem (colors p) TEXT = true
             /\ Dict.mem (colors p) PRIMARY = true
             /\ ColorPalette.get_color p BACKGROUND = Some bg
             /\ ColorPalette.get_color p SURFACE
                = Some (SemanticColor.set_role (Color.lighten bg 0.05) SURFACE)
             /\ role (SemanticColor.set_role (Color.lighten bg 0.05) SURFACE) = SURFACE
             /\ alpha (SemanticColor.set_role (Color.lighten bg 0.05) SURFACE) = 255)
    /\ (forall rgbs src,
           (List.length rgbs < 3)%nat ->
           exists msg, ColorPalette.from_colors rgbs src = Raise (ValueError msg))
    /\ (forall v ro conf a,
           0 <= v <= 255 ->
           SemanticColor.rgb (Color.lighten (SemanticColor.init v v v ro conf a) 0.05)
           = (Z.min 255 (v + 12), Z.min 255 (v + 12), Z.min 255 (v + 12))).
  Proof.
    assert (I : forall cs si em,
               ColorPalette.init cs si em
               = if (Dict.mem cs PRIMARY && Dict.mem cs BACKGROUND && Dict.mem cs TEXT)%bool
                 then Ok {| colors := cs; source_image := si;
                            extraction_method := em; quality_score := None |}
                 else Raise (ValueError "Missing required color roles")).
    { intros cs si em. unfold ColorPalette.init, ColorPalette.required_roles.
      cbn [filter].
      destruct (Dict.mem cs PRIMARY), (Dict.mem cs BACKGROUND), (Dict.mem cs TEXT);
        reflexivity. }
    split; [|split; [|split; [|split; [|split]]]].
    - intros cs si em p. rewrite I.
      destruct (Dict.mem cs PRIMARY) eqn:E1, (Dict.mem cs BACKGROUND) eqn:E2,
        (Dict.mem cs TEXT) eqn:E3; cbn [andb]; try discriminate.
      intros [= <-]. cbn [colors]. auto.
    - intros cs si em H. rewrite I.
      destruct (Dict.mem cs PRIMARY), (Dict.mem cs BACKGROUND), (Dict.mem cs TEXT);
        cbn [andb]; try (eexists; reflexivity).
      destruct H as [H|[H|H]]; discriminate.
    - intros cs si em H1 H2 H3. rewrite I, H1, H2, H3. reflexivity.
    - intros cs src H.
      rewrite (from_colors_run fpow_nonneg cs src H).
      destruct (assigned_colors_get (sorted_colors cs)) as (G1 & G2 & G3 & G4).
      eexists. eexists. split; [reflexivity|].
      unfold Dict.mem, ColorPalette.get_color. cbn [colors].
      rewrite G1, G2, G3, G4.
      repeat (split; [reflexivity|]).
      unfold Color.lighten. cbn [alpha SemanticColor.set_role].
      destruct (Color.hsl64 _) as [[h s] l].
      destruct (colorsys64.hls_to_rgb _ _ _) as [[r' g'] b']. reflexivity.
    - intros cs src H. unfold ColorPalette.from_colors.
      destruct (Z.ltb_spec (Z.of_nat (List.length cs)) 3) as [_|L]; [|lia].
      eexists. reflexivity.
    - intros v ro conf a Hv. apply lighten_grey, Hv.
  Qed.

  (** C9.  In the palette [from_colors] returns, the colour stored under a
      role has that role as its [role] attribute; and [from_colors] does
      return a palette for every list of at least 3 colours. *)
Theorem from_colors_roles_consistent (cs : list (Z * Z * Z)) (src : option string) :
    ((3 <= List.length cs)%nat -> is_ok (ColorPalette.from_colors cs src) = true)
    /\ forall p, ColorPalette.from_colors cs src = Ok p ->
         (forall k c, In (k, c) (colors p) -> role c = k)
         /\ (forall k c, ColorPalette.get_color p k = Some c -> role c = k).
  Proof.
    split.
    - intros H. rewrite (from_colors_run fpow_nonneg cs src H). reflexivity.
    - intros p Hp.
      assert (H : (3 <= List.length cs)%nat).
      { destruct (le_lt_dec 3 (List.length cs)) as [H|H]; [exact H|].
        unfold ColorPalette.from_colors in Hp.
        destruct (Z.ltb_spec (Z.of_nat (List.length cs)) 3) as [_|L]; [|lia].
        discriminate. }
      rewrite (from_colors_run fpow_nonneg cs src H) in Hp.
      injection Hp as <-. cbn [colors ColorPalette.get_color].
      split.
      + intros k c. apply assigned_colors_entries.
      + intros k c G. apply dict_get_in in G.
        apply (assigned_colors_entries _ _ _ G).
  Qed.

End FromColorsTheorems.

Section RoleAssignment.
Context {FP : FloatPow}.
Hypothesis fpow_nonneg : forall x y : Q, (0 <= x)%Q -> (0 <= fpow x y)%Q.

Lemma sorted_colors_sorted (rgbs : list (Z * Z * Z)) :
    StronglySorted (key_le Color.luminance) (sorted_colors rgbs).
  Proof. apply sort_by_sorted. Qed.

  (** C2.  For a list of at least 3 colours, [from_colors] sorts the
      colours by luminance; [BACKGROUND] is the first of the sorted list and
      no colour has a lower luminance; [TEXT] is the colour of highest
      luminance among those whose contrast against the background is at
      least 3, or the colour of highest luminance when no colour reaches
      that ratio; [PRIMARY] is a colour of highest saturation among the
      sorted colours without the first and the last. *)
Theorem from_colors_role_assignment (rgbs : list (Z * Z * Z)) (src : option string) :
    (3 <= List.length rgbs)%nat ->
    let sorted := sorted_colors rgbs in
    exists p bg text primary,
      ColorPalette.from_colors rgbs src = Ok p
      /\ Permutation sorted
           (map (fun '(r, g, b) => SemanticColor.from_rgb r g b PRIMARY) rgbs)
      /\ StronglySorted (key_le Color.luminance) sorted
      /\ ColorPalette.get_color p BACKGROUND = Some bg
      /\ ColorPalette.get_color p TEXT = Some text
      /\ ColorPalette.get_color p PRIMARY = Some primary
      (* background *)
      /\ (exists c, hd_error sorted = Some c /\ bg = SemanticColor.set_role c BACKGROUND)
      /\ (forall c, In c sorted -> (Color.luminance bg <= Color.luminance c)%Q)
      (* text *)
      /\ (exists c, In c sorted /\ text = SemanticColor.set_role c TEXT)
      /\ ((exists c, In c sorted /\ (3 <= Color.contrast_ratio c bg)%Q) ->
          (3 <= Color.contrast_ratio text bg)%Q
          /\ forall c, In c sorted -> (3 <= Color.contrast_ratio c bg)%Q ->
                       (Color.luminance c <= Color.luminance text)%Q)
      /\ ((forall c, In c sorted -> (Color.contrast_ratio c bg < 3)%Q) ->
          forall c, In c sorted -> (Color.luminance c <= Color.luminance text)%Q)
      (* primary *)
      /\ (exists c, In c (middle_colors rgbs)
                    /\ primary = SemanticColor.set_role c PRIMARY)
      /\ (forall c, In c (middle_colors rgbs) ->
                    (Color.saturation c <= Color.saturation primary)%Q).
  Proof.
    intros Hlen sorted.
    pose proof (sorted_colors_sorted rgbs) as S. fold sorted in S.
    assert (Hn : (3 <= List.length sorted)%nat)
      by (unfold sorted; rewrite sorted_colors_length; exact Hlen).
    destruct (assigned_colors_get sorted) as (G1 & G2 & G3 & _).
    pose proof (primary_ref_range sorted Hn) as PR.
    set (d := Heap.null_object).
    assert (Low : forall c, In c sorted ->
                    (Color.luminance (nth 0 sorted d) <= Color.luminance c)%Q).
    { intros c Hc. apply (In_nth _ _ d) in Hc. destruct Hc as (i & Hi & <-).
      apply (sorted_nth Color.luminance sorted d S); lia. }
    assert (High : forall c, In c sorted ->
                     (Color.luminance c
                      <= Color.luminance (nth (List.length sorted - 1) sorted d))%Q).
    { intros c Hc. apply (In_nth _ _ d) in Hc. destruct Hc as (i & Hi & <-).
      apply (sorted_nth Color.luminance sorted d S); lia. }
    assert (B0 : (0 <= Color.luminance (nth 0 sorted d))%Q).
    { destruct (sorted_colors_fresh rgbs (nth 0 sorted d)) as (R & G & Bl & _).
      - apply nth_In. fold sorted. lia.
      - apply luminance_nonneg; tauto. }
    exists {| colors := assigned_colors sorted; source_image := src;
              extraction_method := Some "automatic_assignment";
              quality_score := None |}.
    exists (SemanticColor.set_role (nth 0 sorted d) BACKGROUND).
    exists (SemanticColor.set_role (nth (List.length sorted - 1) sorted d) TEXT).
    exists (SemanticColor.set_role (nth (primary_ref sorted) sorted d) PRIMARY).
    unfold ColorPalette.get_color. cbn [colors].
    split; [apply (from_colors_run fpow_nonneg rgbs src Hlen)|].
    split; [apply sort_by_perm|].
    split; [exact S|].
    split; [exact G1|]. split; [exact G2|]. split; [exact G3|].
    change (Color.luminance (SemanticColor.set_role (nth 0 sorted d) BACKGROUND))
      with (Color.luminance (nth 0 sorted d)).
    change (Color.luminance
              (SemanticColor.set_role (nth (List.length sorted - 1) sorted d) TEXT))
      with (Color.luminance (nth (List.length sorted - 1) sorted d)).
    split.
    { exists (nth 0 sorted d). split; [|reflexivity].
      destruct sorted; [simpl in Hn; lia|reflexivity]. }
    split; [exact Low|].
    split.
    { exists (nth (List.length sorted - 1) sorted d). split; [|reflexivity].
      apply nth_In. lia. }
    split.
    { intros (c & Hc & P). split; [|intros c' Hc' _; apply High, Hc'].
      change (3 <= Color.contrast_ratio c (nth 0 sorted d))%Q in P.
      change (3 <= Color.contrast_ratio (nth (List.length sorted - 1) sorted d)
                     (nth 0 sorted d))%Q.
      eapply Qle_trans; [exact P|].
      apply contrast_monotone; [exact B0|apply Low, Hc|apply High, Hc]. }
    split; [intros _; exact High|].
    assert (Hmid : forall c, In c (middle_colors rgbs) <->
                     exists m, (1 <= m < List.length sorted - 1)%nat /\ nth m sorted d = c).
    { intros c. unfold middle_colors. fold sorted. apply slice_In. lia. }
    split.
    { exists (nth (primary_ref sorted) sorted d). split; [|reflexivity].
      apply Hmid. exists (primary_ref sorted). split; [lia|reflexivity]. }
    intros c Hc. apply Hmid in Hc. destruct Hc as (m & Hm & <-).
    change (Color.saturation (nth m sorted d)
            <= Color.saturation (nth (primary_ref sorted) sorted d))%Q.
    destruct (max_by_spec (fun c => Color.saturation (Heap.deref sorted c)) 1%nat
                (seq 2 (List.length sorted - 3))) as [_ M].
    apply (M m).
    destruct (Nat.eq_dec m 1) as [->|N]; [left; reflexivity|].
    right. apply in_seq. lia.
  Qed.

End RoleAssignment.

(* --------------------------------------------------------------------- *)
(** ** The extractor: fallbacks and determinism *)
(* --------------------------------------------------------------------- *)

Section ExtractorTheorems.
Context {FP : FloatPow} {NP : Numpy} {CS : Colorspacious} {PIL : Pillow}
          {SK : Sklearn} {CT : ColorThiefLib}.

Lemma adaptive_loop_all_fail (rng : RandomState) (image : Image) (image_path : string)
      (methods : list (string * Z)) (results : list (list RGB * Q * string)) :
    (forall method n, In (method, n) methods ->
       is_ok (Extractor.adaptive_attempt rng image image_path method n) = false) ->
    Extractor.adaptive_loop rng image image_path methods results = results.
  Proof.
    revert results. induction methods as [|[method n] methods IH]; intros results H;
      cbn [Extractor.adaptive_loop]; [reflexivity|].
    pose proof (H method n (or_introl eq_refl)) as F.
    destruct (Extractor.adaptive_attempt rng image image_path method n);
      [discriminate|].
    apply IH. intros m k Hm. apply H. right. exact Hm.
  Qed.

  (** C4.  When the ColorThief calls raise, [_extract_colorthief] gives
      what median cut gives on the image at the same path with the same
      colour count (and when they do not raise, their result); when every
      method that [_extract_adaptive] tries fails, it gives what median cut
      with 5 colours gives on the image, not the error of an attempt. *)
Theorem extraction_fallbacks :
    (forall image_path num_colors e,
        Extractor.colorthief_try image_path num_colors = Raise e ->
        Extractor._extract_colorthief image_path num_colors
        = (image <- Image_open image_path ;;
           image <- Image_convert image "RGB" ;;
           Extractor._extract_median_cut image num_colors))
    /\ (forall image_path num_colors palette,
           Extractor.colorthief_try image_path num_colors = Ok palette ->
           Extractor._extract_colorthief image_path num_colors = Ok palette)
    /\ (forall rng image image_path,
           (forall method n, In (method, n) Extractor.methods_to_try ->
              is_ok (Extractor.adaptive_attempt rng image image_path method n) = false) ->
           Extractor._extract_adaptive rng image image_path
           = Extractor._extract_median_cut image 5).
  Proof.
    split; [|split].
    - intros image_path num_colors e H. unfold Extractor._extract_colorthief.
      rewrite H. reflexivity.
    - intros image_path num_colors palette H. unfold Extractor._extract_colorthief.
      rewrite H. reflexivity.
    - intros rng image image_path H. unfold Extractor._extract_adaptive.
      rewrite (adaptive_loop_all_fail rng image image_path _ [] H). reflexivity.
  Qed.

  (** scikit-learn's contract for an integer [random_state]: the fit does
      not depend on the global random state. *)
Hypothesis KMeans_seeded :
    forall n_clusters seed n_init (rng1 rng2 : RandomState) X,
      KMeans_fit n_clusters (Some seed) n_init rng1 X
      = KMeans_fit n_clusters (Some seed) n_init rng2 X.

Lemma kmeans_lab_deterministic (rng1 rng2 : RandomState) image num_colors :
    Extractor._extract_kmeans_lab rng1 image num_colors
    = Extractor._extract_kmeans_lab rng2 image num_colors.
  Proof.
    unfold Extractor._extract_kmeans_lab.
    rewrite (KMeans_seeded _ _ _ rng1 rng2). reflexivity.
  Qed.

Lemma kmeans_rgb_deterministic (rng1 rng2 : RandomState) image num_colors :
    Extractor._extract_kmeans_rgb rng1 image num_colors
    = Extractor._extract_kmeans_rgb rng2 image num_colors.
  Proof.
    unfold Extractor._extract_kmeans_rgb.
    rewrite (KMeans_seeded _ _ _ rng1 rng2). reflexivity.
  Qed.

Lemma adaptive_attempt_deterministic (rng1 rng2 : RandomState) image image_path
      method num_colors :
    Extractor.adaptive_attempt rng1 image image_path method num_colors
    = Extractor.adaptive_attempt rng2 image image_path method num_colors.
  Proof.
    unfold Extractor.adaptive_attempt.
    rewrite (kmeans_lab_deterministic rng1 rng2). reflexivity.
  Qed.

Lemma adaptive_loop_deterministic (rng1 rng2 : RandomState) image image_path
      methods results :
    Extractor.adaptive_loop rng1 image image_path methods results
    = Extractor.adaptive_loop rng2 image image_path methods results.
  Proof.
    revert results. induction methods as [|[method n] methods IH]; intros results;
      cbn [Extractor.adaptive_loop]; [reflexivity|].
    rewrite (adaptive_attempt_deterministic rng1 rng2).
    destruct (Extractor.adaptive_attempt rng2 image image_path method n); apply IH.
  Qed.

  (** C3.  Two runs of [extract_colors] on the same extractor, image file,
      method and colour count give the same list of colours and the same
      palette (or the same exception), whatever the global random state of
      each run: k-means is always called with the seed 42, and no other
      step draws random numbers. *)
Theorem extraction_deterministic (self : ColorExtractor) (rng1 rng2 : RandomState)
      (image_path : string) (method : option string) (num_colors : option Z) :
    Extractor.extract_color_list self rng1 image_path method num_colors
    = Extractor.extract_color_list self rng2 image_path method num_colors
    /\ Extractor.extract_colors self rng1 image_path method num_colors
       = Extractor.extract_colors self rng2 image_path method num_colors.
  Proof.
    assert (E : Extractor.extract_color_list self rng1 image_path method num_colors
                = Extractor.extract_color_list self rng2 image_path method num_colors).
    { unfold Extractor.extract_color_list.
      destruct (Extractor._load_and_preprocess_image self image_path) as [image|e];
        [|reflexivity].
      cbn [bind].
      rewrite (kmeans_lab_deterministic rng1 rng2),
        (kmeans_rgb_deterministic rng1 rng2).
      unfold Extractor._extract_adaptive.
      rewrite (adaptive_loop_deterministic rng1 rng2). reflexivity. }
    split; [exact E|].
    unfold Extractor.extract_colors. rewrite E. reflexivity.
  Qed.

End ExtractorTheorems.

(* --------------------------------------------------------------------- *)
(** ** Strings, string-keyed dictionaries and the file system *)
(* --------------------------------------------------------------------- *)

Lemma strip_prefix_spec (pre s rest : string) :
  PyStr.strip_prefix pre s = Some rest <-> s = pre ++ rest.
Proof.
  revert s. induction pre as [|a pre IH]; intros s; cbn [PyStr.strip_prefix append].
  - split; [intros [= ->]; reflexivity|intros ->; reflexivity].
  - destruct s as [|c s].
    + split; discriminate.
    + destruct (Ascii.eqb_spec a c) as [->|N].
      * rewrite IH. split; [intros ->; reflexivity|intros [= ->]; reflexivity].
      * split; [discriminate|intros [= E _]; congruence].
Qed.

Lemma strdict_get_set_same {V} (d : StrDict.t V) (k : string) (v : V) :
  StrDict.get (StrDict.set d k v) k = Some v.
Proof.
  induction d as [|[k' v'] d IH]; cbn [StrDict.set StrDict.get].
  - rewrite String.eqb_refl. reflexivity.
  - destruct (String.eqb k' k) eqn:E; cbn [StrDict.get]; rewrite E; auto.
Qed.

Lemma strdict_get_set_other {V} (d : StrDict.t V) (k k' : string) (v : V) :
  k <> k' -> StrDict.get (StrDict.set d k v) k' = StrDict.get d k'.
Proof.
  intros N. induction d as [|[k0 v0] d IH]; cbn [StrDict.set StrDict.get].
  - destruct (String.eqb_spec k k'); [contradiction|reflexivity].
  - destruct (String.eqb_spec k0 k) as [->|N0]; cbn [StrDict.get].
    + destruct (String.eqb_spec k k'); [contradiction|reflexivity].
    + destruct (String.eqb k0 k'); [reflexivity|exact IH].
Qed.

Lemma strdict_mem_set {V} (d : StrDict.t V) (k k' : string) (v : V) :
  StrDict.mem (StrDict.set d k v) k'
  = (String.eqb k k' || StrDict.mem d k')%bool.
Proof.
  unfold StrDict.mem. destruct (String.eqb_spec k k') as [->|N].
  - rewrite strdict_get_set_same. reflexivity.
  - rewrite strdict_get_set_other by exact N. reflexivity.
Qed.



(* --------------------------------------------------------------------- *)
(** ** The entries of the backup directory *)
(* --------------------------------------------------------------------- *)

Lemma append_assoc (a b c : string) : (a ++ b) ++ c = a ++ b ++ c.
Proof. induction a as [|x a IH]; cbn [append]; [reflexivity|]. rewrite IH. reflexivity. Qed.

Lemma join_dir_prefix (d n : string) :
  PyStr.truthy d = true -> PyStr.startswith n "/" = false ->
  Path.join d n = FS.dir_prefix d ++ n.
Proof.
  intros Hd Hn. unfold Path.join, FS.dir_prefix. rewrite Hn, Hd. cbn [negb orb].
  destruct (PyStr.endswith d "/"); [reflexivity|].
  rewrite append_assoc. reflexivity.
Qed.

Lemma truthy_append (a b : string) :
  PyStr.truthy a = true -> PyStr.truthy (a ++ b) = true.
Proof. destruct a; [discriminate|reflexivity]. Qed.

Lemma truthy_dir_prefix (d : string) :
  PyStr.truthy d = true -> PyStr.truthy (FS.dir_prefix d) = true.
Proof.
  intros H. unfold FS.dir_prefix. destruct (PyStr.endswith d "/"); [exact H|].
  apply truthy_append, H.
Qed.

Lemma strdict_in_get {V} (d : StrDict.t V) (k : string) (v : V) :
  In (k, v) d -> exists v', StrDict.get d k = Some v'.
Proof.
  induction d as [|[k' v'] d IH]; [intros []|].
  intros [E|H]; cbn [StrDict.get].
  - injection E as -> ->. rewrite String.eqb_refl. eauto.
  - destruct (String.eqb k' k); [eauto|apply IH, H].
Qed.

Lemma listdir_entries (fs : FS.t) (d : string) (names : list string) (n : string) :
  FS.listdir fs d = Ok names -> In n names ->
  PyStr.truthy (Path.join d n) = true
  /\ exists f, StrDict.get fs (Path.join d n) = Some f.
Proof.
  unfold FS.listdir. destruct (FS.is_dir fs d) eqn:D; [|discriminate].
  intros [= <-] H.
  unfold FS.is_dir in D. apply andb_true_iff in D. destruct D as [Td _].
  apply in_flat_map in H. destruct H as ([p f] & Hp & Hn).
  unfold FS.entry_name in Hn.
  destruct (PyStr.strip_prefix (FS.dir_prefix d) p) as [name|] eqn:E; [|destruct Hn].
  destruct (PyStr.truthy name && negb (PyStr.contains "/" name)
            && negb (PyStr.startswith name "/"))%bool eqn:C; [|destruct Hn].
  destruct Hn as [<-|[]].
  apply andb_true_iff in C. destruct C as [_ C]. apply negb_true_iff in C.
  apply strip_prefix_spec in E.
  rewrite (join_dir_prefix d name Td C), <- E.
  split.
  - rewrite E. apply truthy_append, truthy_dir_prefix, Td.
  - apply (strdict_in_get fs p f Hp).
Qed.

Section SortDesc.
Context {A : Type} (key : A -> Q).

Lemma insert_by_desc_perm (x : A) (l : list A) :
  Permutation (PyList.insert_by_desc key x l) (x :: l).
Proof.
  induction l as [|y l IH]; cbn [PyList.insert_by_desc]; [reflexivity|].
  destruct (Py.Qltb (key x) (key y)); [|reflexivity].
  rewrite IH. apply perm_swap.
Qed.

Lemma sort_by_desc_perm (l : list A) : Permutation (PyList.sort_by_desc key l) l.
Proof.
  induction l as [|x l IH]; cbn [PyList.sort_by_desc fold_right]; [reflexivity|].
  rewrite insert_by_desc_perm. apply perm_skip. exact IH.
Qed.

Lemma insert_by_desc_head (x : A) (l : list A) :
  (forall h t, l = h :: t -> forall y, In y l -> (key y <= key h)%Q) ->
  forall h t, PyList.insert_by_desc key x l = h :: t ->
              forall y, In y (x :: l) -> (key y <= key h)%Q.
Proof.
  intros Hl h t. destruct l as [|z l]; cbn [PyList.insert_by_desc].
  - intros [= <- <-] y [<-|[]]. lra.
  - pose proof (Hl z l eq_refl) as M.
    destruct (Py.Qltb (key x) (key z)) eqn:E.
    + apply Qltb_true in E. intros [= <- _] y [<-|Hy]; [lra|apply M, Hy].
    + apply Qltb_false in E. intros [= <- _] y [<-|Hy]; [lra|].
      pose proof (M y Hy). lra.
Qed.

Lemma sort_by_desc_head (l : list A) (h : A) (t : list A) :
  PyList.sort_by_desc key l = h :: t ->
  In h l /\ forall y, In y l -> (key y <= key h)%Q.
Proof.
  intros E. split.
  - apply (Permutation_in _ (sort_by_desc_perm l)). rewrite E. left. reflexivity.
  - revert h t E. induction l as [|x l IH]; intros h t E; [discriminate|].
    cbn [PyList.sort_by_desc fold_right] in E.
    intros y Hy.
    apply (insert_by_desc_head x (PyList.sort_by_desc key l)) with (h := h) (t := t).
    + intros h' t' E' y' Hy'. apply (IH h' t' E').
      apply (Permutation_in _ (sort_by_desc_perm l)). exact Hy'.
    + exact E.
    + destruct Hy as [<-|Hy]; [left; reflexivity|right].
      apply (Permutation_in _ (Permutation_sym (sort_by_desc_perm l))). exact Hy.
Qed.

Lemma sort_by_desc_nil (l : list A) : PyList.sort_by_desc key l = [] -> l = [].
Proof.
  intros E. pose proof (sort_by_desc_perm l) as P. rewrite E in P.
  apply Permutation_nil in P. exact P.
Qed.

End SortDesc.

Lemma collect_backups_entries (self : ThemeApplier) (fs : FS.t) (app_name : string)
    (filenames : list string) :
  (forall n, In n filenames ->
     exists f, StrDict.get fs (Path.join (backup_dir self) n) = Some f) ->
  Applier.collect_backups self fs app_name filenames
  = Ok (flat_map (fun filename =>
                    if Applier.is_backup_of app_name filename then
                      let backup_path := Path.join (backup_dir self) filename in
                      match FS.getmtime fs backup_path with
                      | Ok m => [(backup_path, m)]
                      | Raise _ => []
                      end
                    else []) filenames).
Proof.
  induction filenames as [|n rest IH]; intros H; cbn [Applier.collect_backups flat_map];
    [reflexivity|].
  rewrite IH by (intros m Hm; apply H; right; exact Hm).
  destruct (Applier.is_backup_of app_name n); [|reflexivity].
  destruct (H n (or_introl eq_refl)) as [f Hf].
  unfold FS.getmtime. cbv zeta. rewrite Hf. reflexivity.
Qed.


(* --------------------------------------------------------------------- *)
(** ** The theorems at concrete inputs *)
(* --------------------------------------------------------------------- *)

Lemma pow_approx_nonneg :
  forall x y : Q, (0 <= x)%Q -> (0 <= @fpow pow_approx x y)%Q.
Proof.
  intros x y H. cbn [fpow pow_approx].
  apply Qle_shift_div_l; [lra|]. nra.
Qed.

Lemma example_kmeans_seeded :
  forall n_clusters seed n_init (rng1 rng2 : @RandomState example_sklearn) X,
    @KMeans_fit example_sklearn n_clusters (Some seed) n_init rng1 X
    = @KMeans_fit example_sklearn n_clusters (Some seed) n_init rng2 X.
Proof. intros. reflexivity. Qed.

Lemma quality_score_weighted_and_clamped_witness :
  exists q : Q,
    @Extractor._calculate_quality_score pow_approx example_numpy
      example_colorspacious example_pillow example_palette example_pixels = Ok q
    /\ (0 <= q <= 1)%Q.
Proof.
  destruct (@quality_score_weighted_and_clamped pow_approx example_numpy
              example_colorspacious example_pillow example_palette example_pixels)
    as (text & bg & total & q & _ & _ & E & _ & _ & _ & R).
  - reflexivity.
  - exists q. split; [exact E|exact R].
Defined.

Lemma from_colors_role_assignment_witness :
  exists p bg text primary,
    @ColorPalette.from_colors pow_approx example_pixels None = Ok p
    /\ ColorPalette.get_color p BACKGROUND = Some bg
    /\ ColorPalette.get_color p TEXT = Some text
    /\ ColorPalette.get_color p PRIMARY = Some primary.
Proof.
  destruct (@from_colors_role_assignment pow_approx pow_approx_nonneg
              example_pixels None)
    as (p & bg & text & primary & E & _ & _ & G1 & G2 & G3 & _).
  - simpl. lia.
  - exists p, bg, text, primary. auto.
Defined.

Lemma extraction_deterministic_witness :
  @Extractor.extract_colors pow_approx example_numpy example_colorspacious
    example_pillow example_sklearn example_colorthief
    Extractor.default 0 "/img/wall.png" (Some "kmeans_rgb") (Some 3)
  = @Extractor.extract_colors pow_approx example_numpy example_colorspacious
      example_pillow example_sklearn example_colorthief
      Extractor.default 7 "/img/wall.png" (Some "kmeans_rgb") (Some 3).
Proof.
  exact (proj2 (@extraction_deterministic pow_approx example_numpy
                  example_colorspacious example_pillow example_sklearn
                  example_colorthief example_kmeans_seeded
                  Extractor.default 0 7 "/img/wall.png" (Some "kmeans_rgb") (Some 3))).
Defined.

Lemma extraction_fallbacks_witness :
  @Extractor._extract_colorthief example_pillow example_colorthief "/img/wall.png" 5
  = Ok example_pixels
  /\ @Extractor._extract_adaptive pow_approx example_numpy example_colorspacious
       example_pillow example_sklearn example_colorthief 0 example_pixels "/gone.png"
     = Ok example_pixels.
Proof.
  destruct (@extraction_fallbacks pow_approx example_numpy example_colorspacious
              example_pillow example_sklearn example_colorthief) as (A & _ & C).
  split.
  - rewrite (A "/img/wall.png" 5 (LibraryError "cannot identify image file") eq_refl).
    reflexivity.
  - rewrite (C 0 example_pixels "/gone.png").
    + reflexivity.
    + intros method n [H|[H|[H|[]]]]; injection H as <- <-; vm_compute; reflexivity.
Defined.

Lemma palette_required_roles_and_surface_witness :
  is_ok (ColorPalette.init (colors example_palette) None None) = true
  /\ (exists msg, ColorPalette.init [] None None = Raise (ValueError msg))
  /\ (exists p, @ColorPalette.from_colors pow_approx example_pixels None = Ok p
                /\ Dict.mem (colors p) SURFACE = true)
  /\ (exists msg, @ColorPalette.from_colors pow_approx [(1, 2, 3); (4, 5, 6)] None
                  = Raise (ValueError msg)).
Proof.
  destruct (@palette_required_roles_and_surface pow_approx pow_approx_nonneg)
    as (_ & A & B & C & D & _).
  split; [apply B; reflexivity|].
  split; [apply A; left; reflexivity|].
  split.
  - destruct (C example_pixels None) as (p & bg & E & _ & _ & _ & _ & S & _).
    + simpl. lia.
    + exists p. split; [exact E|].
      unfold ColorPalette.get_color in S. unfold Dict.mem. rewrite S. reflexivity.
  - apply D. simpl. lia.
Defined.

Lemma from_colors_roles_consistent_witness :
  is_ok (@ColorPalette.from_colors pow_approx example_pixels None) = true.
Proof.
  apply (proj1 (@from_colors_roles_consistent pow_approx pow_approx_nonneg
                  example_pixels None)).
  simpl. lia.
Defined.

Lemma from_hex_roundtrip_and_lengths_witness :
  is_ok (SemanticColor.from_hex "1aB" PRIMARY) = true
  /\ exists msg, SemanticColor.from_hex "#12345" PRIMARY = Raise (ValueError msg).
Proof.
  destruct from_hex_roundtrip_and_lengths as (_ & A & B). split.
  - apply (A "1aB" PRIMARY); [reflexivity|left; reflexivity].
  - apply (B "#12345" PRIMARY); simpl; discriminate.
Defined.

(* --------------------------------------------------------------------- *)
(** ** Runs of the code *)
(* --------------------------------------------------------------------- *)

Example from_colors_six_colors :
  match @ColorPalette.from_colors pow_approx
          [(10, 10, 10); (200, 30, 30); (240, 240, 240); (30, 200, 30);
           (30, 30, 200); (200, 30, 30)] None with
  | Ok p =>
      map (fun '(ro, c) => (ro, SemanticColor.hex c, role c)) (colors p)
      = [(BACKGROUND, "#0a0a0a", BACKGROUND); (TEXT, "#f0f0f0", TEXT);
         (PRIMARY, "#1e1ec8", PRIMARY); (SECONDARY, "#c81e1e", SECONDARY);
         (ACCENT, "#c81e1e", ACCENT); (SURFACE, "#161616", SURFACE)]
  | Raise _ => False
  end.
Proof. vm_compute. reflexivity. Qed.

Example from_colors_low_contrast :
  match @ColorPalette.from_colors pow_approx
          [(10, 10, 10); (12, 10, 10); (11, 10, 10)] None with
  | Ok p =>
      map (fun '(ro, c) => (ro, SemanticColor.hex c, role c)) (colors p)
      = [(BACKGROUND, "#0a0a0a", BACKGROUND); (TEXT, "#0c0a0a", TEXT);
         (PRIMARY, "#0b0a0a", PRIMARY); (SURFACE, "#161616", SURFACE)]
  | Raise _ => False
  end.
Proof. vm_compute. reflexivity. Qed.

(** The surface of a palette is what the floats give: exact arithmetic
    would end the blue channel at 19. *)
Example from_colors_surface_rounding :
  match @ColorPalette.from_colors pow_approx
          [(1, 1, 2); (255, 255, 255); (0, 255, 0)] None with
  | Ok p => option_map SemanticColor.hex (ColorPalette.get_color p SURFACE)
            = Some "#090912"
  | Raise _ => False
  end.
Proof. vm_compute. reflexivity. Qed.

(** The two variants of [colorsys.rgb_to_hls] at a light colour. *)
Example lighten_colorsys_variants :
  SemanticColor.rgb
    (@Color.lighten pow_approx (SemanticColor.from_rgb 5 5 255 PRIMARY) 0.05)
  = (30, 30, 254)
  /\ SemanticColor.rgb
       (@Color.lighten pow_approx_later (SemanticColor.from_rgb 5 5 255 PRIMARY) 0.05)
     = (30, 30, 255).
Proof. vm_compute. split; reflexivity. Qed.

(* ===================================================================== *)
(** * Further properties of the code *)
(* ===================================================================== *)

(* --------------------------------------------------------------------- *)
(** ** SemanticColor: luminance, contrast, alpha, darkening *)
(* --------------------------------------------------------------------- *)

Lemma maxQ_cases (a b : Q) :
  (Py.maxQ a b = a /\ (b <= a)%Q) \/ (Py.maxQ a b = b /\ (a < b)%Q).
Proof.
  unfold Py.maxQ. destruct (Py.Qltb a b) eqn:E.
  - right. split; [reflexivity|apply Qltb_true, E].
  - left. split; [reflexivity|apply Qltb_false, E].
Qed.

Lemma minQ_cases (a b : Q) :
  (Py.minQ a b = a /\ (a <= b)%Q) \/ (Py.minQ a b = b /\ (b < a)%Q).
Proof.
  unfold Py.minQ. destruct (Py.Qltb b a) eqn:E.
  - right. split; [reflexivity|apply Qltb_true, E].
  - left. split; [reflexivity|apply Qltb_false, E].
Qed.

(** The contrast ratio does not depend on the order of its two colours. *)
Theorem contrast_ratio_symmetric {FP : FloatPow} (x y : SemanticColor) :
  (Color.contrast_ratio x y == Color.contrast_ratio y x)%Q.
Proof.
  unfold Color.contrast_ratio.
  set (l1 := Color.luminance x). set (l2 := Color.luminance y).
  assert (M : (Py.maxQ l1 l2 == Py.maxQ l2 l1)%Q).
  { destruct (maxQ_cases l1 l2) as [[-> ?]|[-> ?]],
      (maxQ_cases l2 l1) as [[-> ?]|[-> ?]]; lra. }
  assert (N : (Py.minQ l1 l2 == Py.minQ l2 l1)%Q).
  { destruct (minQ_cases l1 l2) as [[-> ?]|[-> ?]],
      (minQ_cases l2 l1) as [[-> ?]|[-> ?]]; lra. }
  rewrite M, N. reflexivity.
Qed.

Section LuminanceRange.
Context {FP : FloatPow}.
Hypothesis fpow_unit : forall x : Q, (0 <= x <= 1)%Q -> (0 <= fpow x 2.4 <= 1)%Q.

Lemma gamma_correct_unit (c : Q) :
  (0 <= c <= 1)%Q -> (0 <= Color.gamma_correct c <= 1)%Q.
Proof.
  intros H. unfold Color.gamma_correct.
  destruct (PyFloat.le c 0.03928).
  - split; [apply Qle_shift_div_l; lra|apply Qle_shift_div_r; lra].
  - apply fpow_unit. split; [apply Qle_shift_div_l; lra|apply Qle_shift_div_r; lra].
Qed.

Lemma channel_unit (n : Z) : 0 <= n <= 255 -> (0 <= inject_Z n / 255 <= 1)%Q.
Proof.
  intros [H0 H1].
  assert (A : (inject_Z 0 <= inject_Z n)%Q) by (rewrite <- Zle_Qle; exact H0).
  assert (B : (inject_Z n <= inject_Z 255)%Q) by (rewrite <- Zle_Qle; exact H1).
  change (inject_Z 0) with 0%Q in A. change (inject_Z 255) with 255%Q in B.
  split; [apply Qle_shift_div_l; lra|apply Qle_shift_div_r; lra].
Qed.

Lemma luminance_unit (c : SemanticColor) :
  0 <= r c <= 255 -> 0 <= g c <= 255 -> 0 <= b c <= 255 ->
  (0 <= Color.luminance c <= 1)%Q.
Proof.
  intros Hr Hg Hb. unfold Color.luminance, Color.rgb_float.
  pose proof (gamma_correct_unit _ (channel_unit _ Hr)).
  pose proof (gamma_correct_unit _ (channel_unit _ Hg)).
  pose proof (gamma_correct_unit _ (channel_unit _ Hb)).
  split; lra.
Qed.

(** For constructed colours the relative luminance lies in [0, 1], black
    has luminance 0, and the contrast ratio of two colours lies in
    [1, 21], as the docstrings say. *)
Theorem luminance_and_contrast_range
    (r1 g1 b1 : Z) (ro1 : ColorRole) (c1 : Q) (a1 : Z)
    (r2 g2 b2 : Z) (ro2 : ColorRole) (c2 : Q) (a2 : Z) :
  let x := SemanticColor.init r1 g1 b1 ro1 c1 a1 in
  let y := SemanticColor.init r2 g2 b2 ro2 c2 a2 in
  (0 <= Color.luminance x <= 1)%Q
  /\ (Color.luminance (SemanticColor.init 0 0 0 ro1 c1 a1) == 0)%Q
  /\ (1 <= Color.contrast_ratio x y <= 21)%Q.
Proof.
  intros x y.
  assert (Lx : (0 <= Color.luminance x <= 1)%Q)
    by (apply luminance_unit; apply clamp_byte).
  assert (Ly : (0 <= Color.luminance y <= 1)%Q)
    by (apply luminance_unit; apply clamp_byte).
  split; [exact Lx|]. split; [vm_compute; reflexivity|].
  unfold Color.contrast_ratio.
  set (l1 := Color.luminance x) in *. set (l2 := Color.luminance y) in *.
  destruct (maxQ_cases l1 l2) as [[-> ?]|[-> ?]],
    (minQ_cases l1 l2) as [[-> ?]|[-> ?]];
    (split; [apply Qle_shift_div_l; lra|apply Qle_shift_div_r; lra]).
Qed.

End LuminanceRange.

(** [from_hex] reads the alpha digits of an 8-digit string and then drops
    them: read back from [hex_with_alpha], a colour keeps its [r], [g] and
    [b] but gets the default alpha 255 (and the given role, confidence 1). *)
Theorem from_hex_drops_alpha
    (r0 g0 b0 : Z) (ro : ColorRole) (conf : Q) (a0 : Z) (ro' : ColorRole) :
  let c := SemanticColor.init r0 g0 b0 ro conf a0 in
  SemanticColor.from_hex (SemanticColor.hex_with_alpha c) ro'
  = Ok {| r := r c; g := g c; b := b c; role := ro';
          confidence := 1; alpha := 255 |}.
Proof.
  intros c.
  pose proof (clamp_byte r0) as Hr. pose proof (clamp_byte g0) as Hg.
  pose proof (clamp_byte b0) as Hb. pose proof (clamp_byte a0) as Ha.
  destruct (format_02x_byte _ Hr) as (r1 & r2 & Er & Lr1 & Lr2 & Ir).
  destruct (format_02x_byte _ Hg) as (g1 & g2 & Eg & Lg1 & Lg2 & Ig).
  destruct (format_02x_byte _ Hb) as (b1 & b2 & Eb & Lb1 & Lb2 & Ib).
  destruct (format_02x_byte _ Ha) as (a1 & a2 & Ea & La1 & La2 & Ia).
  unfold SemanticColor.hex_with_alpha, SemanticColor.hex. subst c.
  cbn [r g b alpha SemanticColor.init].
  rewrite Er, Eg, Eb, Ea. cbn [append].
  unfold SemanticColor.from_hex. cbn [Py.lstrip].
  rewrite Ascii.eqb_refl.
  rewrite (hex_digit_not_hash _ (lower_hex_is_hex _ Lr1)).
  cbn [Py.len String.length Z.of_nat Pos.of_succ_nat Pos.succ Z.eqb Pos.eqb bind
       Py.slice Nat.sub substring].
  rewrite Ia. cbn [bind Py.slice Nat.sub substring].
  rewrite Ir, Ig, Ib. cbn [bind].
  unfold SemanticColor.init.
  rewrite (clamp_id _ Hr), (clamp_id _ Hg), (clamp_id _ Hb).
  reflexivity.
Qed.

(** The 3-digit form is the 6-digit form with every digit doubled. *)
Theorem from_hex_short_form (x y z : ascii) (ro : ColorRole) :
  x <> "#"%char ->
  SemanticColor.from_hex (String x (String y (String z ""))) ro
  = SemanticColor.from_hex
      (String x (String x (String y (String y (String z (String z "")))))) ro.
Proof.
  intros N. unfold SemanticColor.from_hex. cbn [Py.lstrip].
  destruct (Ascii.eqb_spec x "#") as [E|_]; [contradiction|].
  reflexivity.
Qed.

Lemma from_hex_short_form_witness :
  SemanticColor.from_hex "f0a" TEXT = SemanticColor.from_hex "ff00aa" TEXT.
Proof. apply from_hex_short_form. discriminate. Defined.

Lemma clampQ_idempotent (x : Q) :
  (Py.maxQ 0 (Py.minQ 1 (Py.maxQ 0 (Py.minQ 1 x))) == Py.maxQ 0 (Py.minQ 1 x))%Q.
Proof.
  pose proof (clamp_unit x) as H.
  set (y := Py.maxQ 0 (Py.minQ 1 x)) in *.
  destruct (minQ_cases 1 y) as [[-> ?]|[-> ?]];
    destruct (maxQ_cases 0 1) as [[E ?]|[E ?]];
    destruct (maxQ_cases 0 y) as [[E' ?]|[E' ?]];
    rewrite ?E, ?E'; lra.
Qed.

(** [with_alpha] changes the alpha channel only, and clamps it: on a
    constructed colour the channels, the role and the confidence stay. *)
Theorem with_alpha_changes_alpha_only
    (r0 g0 b0 : Z) (ro : ColorRole) (conf : Q) (a0 a : Z) :
  let c := SemanticColor.init r0 g0 b0 ro conf a0 in
  let c' := SemanticColor.with_alpha c a in
  r c' = r c /\ g c' = g c /\ b c' = b c /\ role c' = role c
  /\ (confidence c' == confidence c)%Q
  /\ 0 <= alpha c' <= 255
  /\ (0 <= a <= 255 -> alpha c' = a).
Proof.
  intros c c'. subst c c'. unfold SemanticColor.with_alpha.
  cbn [r g b role confidence alpha SemanticColor.init].
  rewrite !(clamp_id _ (clamp_byte _)).
  repeat split; try reflexivity; try apply clamp_byte.
  - apply clampQ_idempotent.
  - intros H. apply clamp_id, H.
Qed.

Lemma to_int_zero (x : Q) : (x == 0)%Q -> PyFloat.to_int x = 0.
Proof.
  unfold Qeq, PyFloat.to_int. cbn [Qnum Qden]. intros H.
  rewrite Z.mul_1_r, Z.mul_0_l in H. rewrite H. reflexivity.
Qed.

Lemma _v_zero (m1 m2 hue : Q) :
  (m1 == 0)%Q -> (m2 == 0)%Q -> (colorsys._v m1 m2 hue == 0)%Q.
Proof.
  intros H1 H2. unfold colorsys._v.
  repeat match goal with
         | |- context [if ?t then _ else _] => destruct t
         end; rewrite ?H1, ?H2; ring.
Qed.

Lemma hls_to_rgb_black (h s : Q) :
  let '(r, g, b) := colorsys.hls_to_rgb h (0 / 100) s in
  (r == 0 /\ g == 0 /\ b == 0)%Q.
Proof.
  unfold colorsys.hls_to_rgb.
  destruct (PyFloat.eq s 0).
  - repeat split; reflexivity.
  - change (PyFloat.le (0 / 100) 0.5) with true. cbv iota.
    assert (M2 : (0 / 100 * (1 + s) == 0)%Q) by (unfold Qdiv; ring).
    assert (M1 : (2 * (0 / 100) - 0 / 100 * (1 + s) == 0)%Q) by (unfold Qdiv; ring).
    repeat split; apply _v_zero; assumption.
Qed.

(** Darkening by at least the lightness of the colour gives black, with
    the role and the confidence of the colour ([lightness] being [hsl[2]],
    between 0 and 100). *)
Theorem darken_to_black (c : SemanticColor) (amount : Q) :
  (snd (Color.hsl c) <= amount * 100)%Q ->
  let d := Color.darken c amount in
  r d = 0 /\ g d = 0 /\ b d = 0
  /\ role d = role c /\ (confidence d == Py.maxQ 0 (Py.minQ 1 (confidence c)))%Q.
Proof.
  intros H. unfold Color.darken.
  destruct (Color.hsl c) as [[h s] l] eqn:E. cbn [snd] in H.
  assert (N : Py.maxQ 0 (l - amount * 100) = 0%Q).
  { unfold Py.maxQ. destruct (Py.Qltb 0 (l - amount * 100)) eqn:L; [|reflexivity].
    apply Qltb_true in L. lra. }
  rewrite N.
  pose proof (hls_to_rgb_black (h / 360) (s / 100)) as B.
  destruct (colorsys.hls_to_rgb (h / 360) (0 / 100) (s / 100)) as [[r' g'] b'].
  destruct B as (Br & Bg & Bb).
  cbn [r g b role confidence SemanticColor.init].
  rewrite !to_int_zero by (rewrite ?Br, ?Bg, ?Bb; ring).
  repeat split; reflexivity.
Qed.

Lemma darken_to_black_witness :
  SemanticColor.rgb (Color.darken (SemanticColor.init 200 30 30 PRIMARY 1 255) 1)
  = (0, 0, 0).
Proof.
  destruct (darken_to_black (SemanticColor.init 200 30 30 PRIMARY 1 255) 1)
    as (R & G & B & _).
  - vm_compute. discriminate.
  - unfold SemanticColor.rgb. rewrite R, G, B. reflexivity.
Defined.

(* --------------------------------------------------------------------- *)
(** ** ColorPalette: contrast validation *)
(* --------------------------------------------------------------------- *)

(** On a palette with the required roles, [validate_contrast] reports the
    contrast of TEXT and of PRIMARY against BACKGROUND, and that of ACCENT
    exactly when the palette has an accent; the palette meets the
    accessibility standard exactly when TEXT on BACKGROUND reaches 4.5. *)
Theorem validate_contrast_entries {FP : FloatPow} (p : ColorPalette) :
  forallb (Dict.mem (colors p)) ColorPalette.required_roles = true ->
  exists bg text primary contrasts,
    ColorPalette.get_background p = Ok bg
    /\ ColorPalette.get_text p = Ok text
    /\ ColorPalette.get_primary p = Ok primary
    /\ ColorPalette.validate_contrast p = Ok contrasts
    /\ map fst contrasts
       = (["text_on_background"; "primary_on_background"]
          ++ (if Dict.mem (colors p) ACCENT then ["accent_on_background"] else []))%list
    /\ ColorPalette.contrasts_get contrasts "text_on_background" 0
       = Color.contrast_ratio text bg
    /\ ColorPalette.contrasts_get contrasts "primary_on_background" 0
       = Color.contrast_ratio primary bg
    /\ (forall accent, ColorPalette.get_accent p = Some accent ->
          ColorPalette.contrasts_get contrasts "accent_on_background" 0
          = Color.contrast_ratio accent bg)
    /\ ColorPalette.meets_accessibility_standards p
       = Ok (Qle_bool 4.5 (Color.contrast_ratio text bg)).
Proof.
  intros H.
  destruct (required_roles_present p H) as (primary & bg & text & Ep & Eb & Et).
  exists bg, text, primary.
  unfold ColorPalette.meets_accessibility_standards, ColorPalette.validate_contrast.
  rewrite Eb, Et, Ep. cbn [bind].
  unfold Dict.mem, ColorPalette.get_accent.
  destruct (Dict.get (colors p) ACCENT) as [accent|];
    (eexists; split; [reflexivity|]; split; [reflexivity|]; split; [reflexivity|];
     split; [reflexivity|]; split; [reflexivity|]; split; [reflexivity|];
     split; [reflexivity|]; split; [|reflexivity]).
  - intros a [= <-]. reflexivity.
  - intros a [=].
Qed.

Lemma validate_contrast_entries_witness :
  exists contrasts,
    @ColorPalette.validate_contrast pow_approx example_palette = Ok contrasts
    /\ map fst contrasts = ["text_on_background"; "primary_on_background"].
Proof.
  destruct (@validate_contrast_entries pow_approx example_palette)
    as (bg & text & primary & contrasts & _ & _ & _ & E & K & _).
  - reflexivity.
  - exists contrasts. split; [exact E|exact K].
Defined.

(* --------------------------------------------------------------------- *)
(** ** ColorPalette.from_colors: the roles it fills *)
(* --------------------------------------------------------------------- *)

Lemma contrast_against_darker {FP : FloatPow} (bg z : SemanticColor) :
  (Color.luminance bg <= Color.luminance z)%Q ->
  (Color.contrast_ratio z bg
   == (Color.luminance z + 0.05) / (Color.luminance bg + 0.05))%Q.
Proof.
  intros Hz. unfold Color.contrast_ratio.
  destruct (maxQ_cases (Color.luminance z) (Color.luminance bg)) as [[-> ?]|[-> ?]],
    (minQ_cases (Color.luminance z) (Color.luminance bg)) as [[-> ?]|[-> ?]];
    try reflexivity; try lra.
  assert (E : (Color.luminance z == Color.luminance bg)%Q) by lra.
  rewrite E. reflexivity.
Qed.

Lemma remaining_refs_differ_from_primary (h0 : Heap.t) (c : Heap.ref) :
  (3 <= List.length h0)%nat ->
  In c (remaining_refs h0) ->
  Color.eqb (SemanticColor.set_role (Heap.deref h0 (primary_ref h0)) PRIMARY)
    (Heap.deref h0 c) = false.
Proof.
  intros Hn H.
  pose proof (primary_ref_range h0 Hn) as PR.
  destruct (remaining_refs_spec h0 c H) as (Hc & C0 & C1 & C2).
  unfold remaining_refs in H. apply filter_In in H. destruct H as [_ N].
  apply negb_true_iff in N. unfold ColorPalette.in_values, map_after_primary in N.
  cbn [Dict.values map snd existsb] in N.
  apply orb_false_iff in N. destruct N as [_ N].
  apply orb_false_iff in N. destruct N as [_ N].
  apply orb_false_iff in N. destruct N as [N _].
  apply orb_false_iff in N. destruct N as [_ N].
  unfold heap_after_primary in N.
  rewrite deref_set_role_same in N by heap_length.
  rewrite (deref_set_role_other _ (primary_ref h0) c) in N by congruence.
  rewrite (deref_set_role_other _ _ (primary_ref h0)) in N by lia.
  rewrite (deref_set_role_other _ _ (primary_ref h0)) in N by lia.
  rewrite (deref_set_role_other _ _ c) in N by congruence.
  rewrite (deref_set_role_other _ _ c) in N by congruence.
  exact N.
Qed.

Section FromColorsRoles.
Context {FP : FloatPow}.
Hypothesis fpow_nonneg : forall x y : Q, (0 <= x)%Q -> (0 <= fpow x y)%Q.

(** The palette of [from_colors] has, in this order, BACKGROUND, TEXT,
    PRIMARY, then SECONDARY and ACCENT when colours remain (ACCENT only
    after SECONDARY), then SURFACE, and never another role; three colours
    give exactly the four roles BACKGROUND, TEXT, PRIMARY and SURFACE.  The
    palette records the source image and the method
    ["automatic_assignment"], and has no quality score. *)
Theorem from_colors_roles_filled (rgbs : list (Z * Z * Z)) (src : option string) :
  (3 <= List.length rgbs)%nat ->
  exists p,
    ColorPalette.from_colors rgbs src = Ok p
    /\ source_image p = src
    /\ extraction_method p = Some "automatic_assignment"
    /\ quality_score p = None
    /\ (Dict.keys (colors p) = [BACKGROUND; TEXT; PRIMARY; SURFACE]
        \/ Dict.keys (colors p) = [BACKGROUND; TEXT; PRIMARY; SECONDARY; SURFACE]
        \/ Dict.keys (colors p)
           = [BACKGROUND; TEXT; PRIMARY; SECONDARY; ACCENT; SURFACE])
    /\ (List.length rgbs = 3%nat ->
        Dict.keys (colors p) = [BACKGROUND; TEXT; PRIMARY; SURFACE]).
Proof.
  intros Hlen.
  rewrite (from_colors_run fpow_nonneg rgbs src Hlen).
  eexists. split; [reflexivity|]. cbn [source_image extraction_method quality_score colors].
  repeat (split; [reflexivity|]).
  set (h0 := sorted_colors rgbs).
  assert (Hn : List.length h0 = List.length rgbs) by apply sorted_colors_length.
  pose proof (remaining_refs_spec h0) as RS.
  assert (PR : (1 <= primary_ref h0 <= List.length h0 - 2)%nat)
    by (apply primary_ref_range; lia).
  unfold assigned_colors.
  destruct (remaining_refs h0) as [|s [|a rest]]; cbn [app Dict.keys map fst].
  - split; [left; reflexivity|reflexivity].
  - split; [right; left; reflexivity|].
    intros L3. destruct (RS s (or_introl eq_refl)) as (A & B & C & D). lia.
  - split; [right; right; reflexivity|].
    intros L3. destruct (RS s (or_introl eq_refl)) as (A & B & C & D). lia.
Qed.

(** The colours that [from_colors] stores under SECONDARY and ACCENT never
    have the red, green and blue of the PRIMARY colour: a remaining colour
    equal to the primary one is skipped. *)
Theorem from_colors_secondary_not_primary (rgbs : list (Z * Z * Z))
    (src : option string) (p : ColorPalette) (primary c : SemanticColor) :
  ColorPalette.from_colors rgbs src = Ok p ->
  ColorPalette.get_color p PRIMARY = Some primary ->
  ColorPalette.get_color p SECONDARY = Some c
  \/ ColorPalette.get_color p ACCENT = Some c ->
  SemanticColor.rgb c <> SemanticColor.rgb primary.
Proof.
  intros Hp Gp Gc.
  assert (Hlen : (3 <= List.length rgbs)%nat).
  { destruct (le_lt_dec 3 (List.length rgbs)) as [H|H]; [exact H|].
    unfold ColorPalette.from_colors in Hp.
    destruct (Z.ltb_spec (Z.of_nat (List.length rgbs)) 3) as [_|L]; [|lia].
    discriminate. }
  rewrite (from_colors_run fpow_nonneg rgbs src Hlen) in Hp.
  injection Hp as <-. unfold ColorPalette.get_color in *. cbn [colors] in *.
  set (h0 := sorted_colors rgbs) in *.
  assert (Hn : (3 <= List.length h0)%nat)
    by (unfold h0; rewrite sorted_colors_length; exact Hlen).
  destruct (assigned_colors_get h0) as (_ & _ & G3 & _).
  rewrite G3 in Gp. injection Gp as <-.
  assert (K : exists i, In i (remaining_refs h0)
                        /\ SemanticColor.rgb c = SemanticColor.rgb (Heap.deref h0 i)).
  { unfold assigned_colors in Gc.
    destruct (remaining_refs h0) as [|s [|a rest]];
      cbn [app Dict.get ColorRole_eqb] in Gc;
      destruct Gc as [Gc|Gc]; try discriminate; injection Gc as <-.
    - exists s. split; [left; reflexivity|reflexivity].
    - exists s. split; [left; reflexivity|reflexivity].
    - exists a. split; [right; left; reflexivity|reflexivity]. }
  destruct K as (i & Hi & E).
  pose proof (remaining_refs_differ_from_primary h0 i Hn Hi) as N.
  destruct (remaining_refs_spec h0 i Hi) as (Li & _).
  destruct (sorted_colors_fresh rgbs (Heap.deref h0 i)) as (_ & _ & _ & Ro & Co & Al).
  { apply nth_In. exact Li. }
  pose proof (primary_ref_range h0 Hn) as PR.
  destruct (sorted_colors_fresh rgbs (Heap.deref h0 (primary_ref h0)))
    as (_ & _ & _ & _ & Co' & Al').
  { apply nth_In. fold h0. lia. }
  rewrite E. intros Eq. unfold SemanticColor.rgb in Eq.
  injection Eq as E1 E2 E3.
  unfold Color.eqb in N.
  cbn [r g b role confidence alpha SemanticColor.set_role] in N.
  rewrite <- E1, <- E2, <- E3, Ro, Co, Al, Co', Al', !Z.eqb_refl in N.
  discriminate N.
Qed.

(** Every colour of the palette of [from_colors], SURFACE apart, is one of
    the input colours (with channels clamped to [0, 255]), carrying its
    role, confidence 1 and alpha 255. *)
Theorem from_colors_colors_from_input (rgbs : list (Z * Z * Z))
    (src : option string) (p : ColorPalette) (k : ColorRole) (c : SemanticColor) :
  ColorPalette.from_colors rgbs src = Ok p ->
  In (k, c) (colors p) -> k <> SURFACE ->
  exists r0 g0 b0, In (r0, g0, b0) rgbs /\ c = SemanticColor.from_rgb r0 g0 b0 k.
Proof.
  intros Hp Hin Hk.
  assert (Hlen : (3 <= List.length rgbs)%nat).
  { destruct (le_lt_dec 3 (List.length rgbs)) as [H|H]; [exact H|].
    unfold ColorPalette.from_colors in Hp.
    destruct (Z.ltb_spec (Z.of_nat (List.length rgbs)) 3) as [_|L]; [|lia].
    discriminate. }
  rewrite (from_colors_run fpow_nonneg rgbs src Hlen) in Hp.
  injection Hp as <-. cbn [colors] in Hin.
  set (h0 := sorted_colors rgbs) in *.
  assert (Hn : (3 <= List.length h0)%nat)
    by (unfold h0; rewrite sorted_colors_length; exact Hlen).
  pose proof (primary_ref_range h0 Hn) as PR.
  pose proof (remaining_refs_spec h0) as RS.
  assert (F : forall i ro, (i < List.length h0)%nat ->
                exists r0 g0 b0, In (r0, g0, b0) rgbs
                  /\ SemanticColor.set_role (Heap.deref h0 i) ro
                     = SemanticColor.from_rgb r0 g0 b0 ro).
  { intros i ro Hi.
    assert (I : In (Heap.deref h0 i) h0) by (apply nth_In; exact Hi).
    unfold h0, sorted_colors in I.
    apply (Permutation_in _ (sort_by_perm _ _)) in I.
    apply in_map_iff in I. destruct I as ([[r0 g0] b0] & E & I).
    exists r0, g0, b0. split; [exact I|].
    unfold h0, sorted_colors. rewrite <- E. reflexivity. }
  unfold assigned_colors in Hin.
  destruct (remaining_refs h0) as [|s [|a rest]]; cbn [app In] in Hin;
    repeat destruct Hin as [Hin|Hin]; try contradiction;
    injection Hin as <- <-; try congruence;
    apply F; try lia.
  - apply (RS s). left. reflexivity.
  - apply (RS s). left. reflexivity.
  - apply (RS a). right. left. reflexivity.
Qed.

End FromColorsRoles.

Lemma from_colors_roles_filled_witness :
  exists p, @ColorPalette.from_colors pow_approx
              [(10, 10, 10); (200, 30, 30); (240, 240, 240)] None = Ok p
            /\ Dict.keys (colors p) = [BACKGROUND; TEXT; PRIMARY; SURFACE].
Proof.
  destruct (@from_colors_roles_filled pow_approx pow_approx_nonneg
              [(10, 10, 10); (200, 30, 30); (240, 240, 240)] None)
    as (p & E & _ & _ & _ & _ & K).
  - simpl. lia.
  - exists p. split; [exact E|apply K; reflexivity].
Defined.

Lemma example_six_run :
  @ColorPalette.from_colors pow_approx
    [(10, 10, 10); (200, 30, 30); (240, 240, 240); (30, 200, 30);
     (30, 30, 200); (200, 30, 30)] None
  = Ok {| colors :=
            [(BACKGROUND, SemanticColor.init 10 10 10 BACKGROUND 1 255);
             (TEXT, SemanticColor.init 240 240 240 TEXT 1 255);
             (PRIMARY, SemanticColor.init 30 30 200 PRIMARY 1 255);
             (SECONDARY, SemanticColor.init 200 30 30 SECONDARY 1 255);
             (ACCENT, SemanticColor.init 200 30 30 ACCENT 1 255);
             (SURFACE, SemanticColor.init 22 22 22 SURFACE 1 255)];
          source_image := None;
          extraction_method := Some "automatic_assignment";
          quality_score := None |}.
Proof. vm_compute. reflexivity. Qed.

Lemma from_colors_secondary_not_primary_witness :
  SemanticColor.rgb (SemanticColor.init 200 30 30 SECONDARY 1 255)
  <> SemanticColor.rgb (SemanticColor.init 30 30 200 PRIMARY 1 255).
Proof.
  apply (@from_colors_secondary_not_primary pow_approx pow_approx_nonneg
           _ _ _ _ _ example_six_run).
  - reflexivity.
  - left. reflexivity.
Defined.

Lemma from_colors_colors_from_input_witness :
  exists r0 g0 b0,
    In (r0, g0, b0)
      [(10, 10, 10); (200, 30, 30); (240, 240, 240); (30, 200, 30);
       (30, 30, 200); (200, 30, 30)]
    /\ SemanticColor.init 200 30 30 ACCENT 1 255
       = SemanticColor.from_rgb r0 g0 b0 ACCENT.
Proof.
  apply (@from_colors_colors_from_input pow_approx pow_approx_nonneg
           _ _ _ ACCENT _ example_six_run).
  - cbn [colors]. do 4 right. left. reflexivity.
  - discriminate.
Defined.

Lemma meets_accessibility_eq {FP : FloatPow} (p : ColorPalette)
    (bg text primary : SemanticColor) :
  ColorPalette.get_background p = Ok bg ->
  ColorPalette.get_text p = Ok text ->
  ColorPalette.get_primary p = Ok primary ->
  ColorPalette.meets_accessibility_standards p
  = Ok (Qle_bool 4.5 (Color.contrast_ratio text bg)).
Proof.
  intros Eb Et Ep.
  unfold ColorPalette.meets_accessibility_standards, ColorPalette.validate_contrast.
  rewrite Eb, Et, Ep. cbn [bind].
  destruct (ColorPalette.get_accent p); reflexivity.
Qed.

Lemma Qdiv_le_cross (a b c d : Q) :
  (0 < b)%Q -> (0 < d)%Q -> (a * d <= c * b)%Q -> (a / b <= c / d)%Q.
Proof.
  intros Hb Hd H.
  apply Qle_shift_div_r; [exact Hb|].
  assert (E : (c / d * b == c * b / d)%Q) by (field; lra).
  rewrite E. apply Qle_shift_div_l; [exact Hd|exact H].
Qed.

Section BestContrast.
Context {FP : FloatPow}.
Hypothesis fpow_nonneg : forall x y : Q, (0 <= x)%Q -> (0 <= fpow x y)%Q.

(** [from_colors] gives TEXT on BACKGROUND the highest contrast ratio that
    any two of the colours have; so the palette meets the accessibility
    standard exactly when some pair of the colours has a contrast of at
    least 4.5. *)
Theorem from_colors_best_contrast (rgbs : list (Z * Z * Z)) (src : option string) :
  (3 <= List.length rgbs)%nat ->
  exists p bg text,
    ColorPalette.from_colors rgbs src = Ok p
    /\ ColorPalette.get_color p BACKGROUND = Some bg
    /\ ColorPalette.get_color p TEXT = Some text
    /\ (forall x y, In x (sorted_colors rgbs) -> In y (sorted_colors rgbs) ->
                    (Color.contrast_ratio x y <= Color.contrast_ratio text bg)%Q)
    /\ (ColorPalette.meets_accessibility_standards p = Ok true <->
        exists x y, In x (sorted_colors rgbs) /\ In y (sorted_colors rgbs)
                    /\ (4.5 <= Color.contrast_ratio x y)%Q).
Proof.
  intros Hlen.
  set (sorted := sorted_colors rgbs).
  pose proof (sort_by_sorted Color.luminance
                (map (fun '(r, g, b) => SemanticColor.from_rgb r g b PRIMARY) rgbs)) as S.
  fold (sorted_colors rgbs) in S. fold sorted in S.
  assert (Hn : (3 <= List.length sorted)%nat)
    by (unfold sorted; rewrite sorted_colors_length; exact Hlen).
  destruct (assigned_colors_get sorted) as (G1 & G2 & G3 & _).
  set (d := Heap.null_object).
  set (lo := nth 0 sorted d). set (hi := nth (List.length sorted - 1) sorted d).
  assert (Low : forall c, In c sorted -> (Color.luminance lo <= Color.luminance c)%Q).
  { intros c Hc. apply (In_nth _ _ d) in Hc. destruct Hc as (i & Hi & <-).
    apply (sorted_nth Color.luminance sorted d S); lia. }
  assert (High : forall c, In c sorted -> (Color.luminance c <= Color.luminance hi)%Q).
  { intros c Hc. apply (In_nth _ _ d) in Hc. destruct Hc as (i & Hi & <-).
    apply (sorted_nth Color.luminance sorted d S); lia. }
  assert (B0 : (0 <= Color.luminance lo)%Q).
  { destruct (sorted_colors_fresh rgbs lo) as (R & G & Bl & _).
    - apply nth_In. fold sorted. lia.
    - apply luminance_nonneg; tauto. }
  assert (Ihi : In hi sorted) by (apply nth_In; lia).
  assert (Best : forall x y, In x sorted -> In y sorted ->
                   (Color.contrast_ratio x y <= Color.contrast_ratio hi lo)%Q).
  { intros x y Hx Hy.
    rewrite (contrast_against_darker lo hi (Low hi Ihi)).
    pose proof (Low x Hx). pose proof (Low y Hy).
    pose proof (High x Hx). pose proof (High y Hy).
    unfold Color.contrast_ratio.
    destruct (maxQ_cases (Color.luminance x) (Color.luminance y)) as [[-> ?]|[-> ?]],
      (minQ_cases (Color.luminance x) (Color.luminance y)) as [[-> ?]|[-> ?]];
      apply Qdiv_le_cross; try lra; nra. }
  exists {| colors := assigned_colors sorted; source_image := src;
            extraction_method := Some "automatic_assignment";
            quality_score := None |}.
  exists (SemanticColor.set_role lo BACKGROUND), (SemanticColor.set_role hi TEXT).
  split; [apply (from_colors_run fpow_nonneg rgbs src Hlen)|].
  unfold ColorPalette.get_color. cbn [colors].
  split; [exact G1|]. split; [exact G2|].
  change (Color.contrast_ratio (SemanticColor.set_role hi TEXT)
            (SemanticColor.set_role lo BACKGROUND))
    with (Color.contrast_ratio hi lo).
  split; [exact Best|].
  rewrite (meets_accessibility_eq _ (SemanticColor.set_role lo BACKGROUND)
             (SemanticColor.set_role hi TEXT)
             (SemanticColor.set_role (Heap.deref sorted (primary_ref sorted)) PRIMARY)).
  2: { unfold ColorPalette.get_background, Dict.getitem. cbn [colors].
       rewrite G1. reflexivity. }
  2: { unfold ColorPalette.get_text, Dict.getitem. cbn [colors].
       rewrite G2. reflexivity. }
  2: { unfold ColorPalette.get_primary, Dict.getitem. cbn [colors].
       rewrite G3. reflexivity. }
  change (Color.contrast_ratio (SemanticColor.set_role hi TEXT)
            (SemanticColor.set_role lo BACKGROUND))
    with (Color.contrast_ratio hi lo).
  split.
  - intros [= E]. apply Qle_bool_iff in E.
    exists hi, lo. split; [exact Ihi|]. split; [apply nth_In; lia|exact E].
  - intros (x & y & Hx & Hy & E). f_equal. apply Qle_bool_iff.
    eapply Qle_trans; [exact E|apply Best; assumption].
Qed.

End BestContrast.

Lemma from_colors_best_contrast_witness :
  exists p, @ColorPalette.from_colors pow_approx example_pixels None = Ok p.
Proof.
  destruct (@from_colors_best_contrast pow_approx pow_approx_nonneg
              example_pixels None) as (p & _ & _ & E & _).
  - simpl. lia.
  - exists p. exact E.
Defined.

(* --------------------------------------------------------------------- *)
(** ** The extractor: what it returns and when it raises *)
(* --------------------------------------------------------------------- *)

Lemma to_int_byte (x : Q) : (0 <= x <= 255)%Q -> 0 <= PyFloat.to_int x <= 255.
Proof.
  destruct x as [n d]. unfold Qle, PyFloat.to_int. cbn [Qnum Qden].
  intros [H0 H1]. rewrite Z.mul_1_r in H0, H1. rewrite Z.mul_0_l in H0.
  rewrite Z.quot_div_nonneg by lia.
  split.
  - apply Z.div_pos; lia.
  - apply Z.div_le_upper_bound; lia.
Qed.

Lemma from_colors_ok_length {FP : FloatPow} (rgbs : list (Z * Z * Z))
    (src : option string) (p : ColorPalette) :
  ColorPalette.from_colors rgbs src = Ok p -> (3 <= List.length rgbs)%nat.
Proof.
  intros Hp. destruct (le_lt_dec 3 (List.length rgbs)) as [H|H]; [exact H|].
  unfold ColorPalette.from_colors in Hp.
  destruct (Z.ltb_spec (Z.of_nat (List.length rgbs)) 3) as [_|L]; [|lia].
  discriminate.
Qed.

Lemma palette_entries_spec {PIL : Pillow} (palette : list Z) (indices : list nat) :
  (forall i, In i indices -> (i * 3 + 2 < List.length palette)%nat) ->
  Extractor.palette_entries palette indices
  = Ok (map (fun i => (nth (i * 3) palette 0, nth (i * 3 + 1) palette 0,
                       nth (i * 3 + 2) palette 0)) indices).
Proof.
  assert (N : forall k, (k < List.length palette)%nat ->
                PyList.index palette k = Ok (nth k palette 0)).
  { intros k Hk. unfold PyList.index.
    rewrite (nth_error_nth' palette 0 Hk). reflexivity. }
  induction indices as [|i rest IH]; intros H; cbn [Extractor.palette_entries map];
    [reflexivity|].
  pose proof (H i (or_introl eq_refl)) as Hi.
  rewrite !N by lia. cbn [bind].
  rewrite IH by (intros j Hj; apply H; right; exact Hj).
  reflexivity.
Qed.

Lemma palette_entries_short {PIL : Pillow} (palette : list Z) (indices : list nat) :
  (exists i, In i indices /\ (List.length palette <= i * 3 + 2)%nat) ->
  exists e, Extractor.palette_entries palette indices = Raise e.
Proof.
  induction indices as [|i rest IH]; intros (j & Hj & L); [destruct Hj|].
  cbn [Extractor.palette_entries].
  destruct (PyList.index palette (i * 3)) as [r0|e]; [|eexists; reflexivity].
  destruct (PyList.index palette (i * 3 + 1)) as [g0|e]; [|eexists; reflexivity].
  destruct (PyList.index palette (i * 3 + 2)) as [b0|e] eqn:E; [|eexists; reflexivity].
  cbn [bind]. destruct Hj as [<-|Hj].
  - unfold PyList.index in E.
    rewrite (proj2 (nth_error_None palette (i * 3 + 2)) L) in E. discriminate.
  - destruct (IH (ex_intro _ j (conj Hj L))) as [e ->]. eexists. reflexivity.
Qed.

(** Median cut returns exactly [num_colors] colours, the consecutive
    triples of the palette of the quantized image, when that palette has
    at least [3 * num_colors] entries, and raises when it is shorter. *)
Theorem median_cut_colors {PIL : Pillow} (image quantized : Image) (num_colors : Z) :
  Image_quantize_mediancut image num_colors = Ok quantized ->
  let palette := Image_getpalette quantized in
  let n := Z.to_nat num_colors in
  ((3 * n <= List.length palette)%nat ->
   exists colors,
     Extractor._extract_median_cut image num_colors = Ok colors
     /\ List.length colors = n
     /\ forall i, (i < n)%nat ->
          nth_error colors i
          = Some (nth (i * 3) palette 0, nth (i * 3 + 1) palette 0,
                  nth (i * 3 + 2) palette 0))
  /\ ((List.length palette < 3 * n)%nat ->
      exists e, Extractor._extract_median_cut image num_colors = Raise e).
Proof.
  intros Hq palette n. unfold Extractor._extract_median_cut. rewrite Hq. cbn [bind].
  fold palette. fold n. split.
  - intros H. rewrite palette_entries_spec
      by (intros i Hi; apply in_seq in Hi; lia).
    eexists. split; [reflexivity|]. split.
    + rewrite length_map, length_seq. reflexivity.
    + intros i Hi. rewrite nth_error_map.
      rewrite (nth_error_nth' (seq 0 n) 0%nat) by (rewrite length_seq; exact Hi).
      rewrite seq_nth by exact Hi. reflexivity.
  - intros H. apply palette_entries_short.
    exists (n - 1)%nat. split; [apply in_seq; lia|lia].
Qed.

Lemma median_cut_colors_witness :
  exists colors,
    @Extractor._extract_median_cut example_pillow example_pixels 3 = Ok colors
    /\ List.length colors = 3%nat.
Proof.
  destruct (@median_cut_colors example_pillow example_pixels example_pixels 3 eq_refl)
    as [A _].
  destruct A as (colors & E & L & _).
  - simpl. lia.
  - exists colors. split; [exact E|exact L].
Defined.

(** The colours of k-means in LAB space have their channels in [0, 255],
    whatever centres the clustering and the colour conversion return, and
    there is one colour for each centre. *)
Theorem kmeans_lab_channels_in_range
    {CS : Colorspacious} {PIL : Pillow} {SK : Sklearn}
    (rng : RandomState) (image : Image) (num_colors : Z) (colors : list RGB) :
  Extractor._extract_kmeans_lab rng image num_colors = Ok colors ->
  (forall r0 g0 b0, In (r0, g0, b0) colors ->
     0 <= r0 <= 255 /\ 0 <= g0 <= 255 /\ 0 <= b0 <= 255)
  /\ exists centers,
       KMeans_fit num_colors (Some 42) 10 rng
         (map (fun pixel =>
                 cspace_convert (Extractor.div3 (Extractor.to_float3 pixel) 255)
                   "sRGB1" "CIELab") (Image_pixels image)) = Ok centers
       /\ List.length colors = List.length centers.
Proof.
  unfold Extractor._extract_kmeans_lab.
  destruct (KMeans_fit _ _ _ _ _) as [centers|e]; [|discriminate].
  cbn [bind]. intros [= <-]. split.
  - intros r0 g0 b0 H. apply in_map_iff in H. destruct H as (center & E & _).
    destruct (cspace_convert center "CIELab" "sRGB1") as [[x y] z].
    cbn [Extractor.clip01 Extractor.scale3 Extractor.astype_int] in E.
    injection E as <- <- <-.
    assert (C : forall v, (0 <= Py.minQ (Py.maxQ v 0) 1 * 255 <= 255)%Q).
    { intros v.
      destruct (maxQ_cases v 0) as [[-> ?]|[-> ?]];
        [destruct (minQ_cases v 1) as [[-> ?]|[-> ?]]
        |destruct (minQ_cases 0 1) as [[-> ?]|[-> ?]]]; lra. }
    repeat split; apply to_int_byte, C.
  - exists centers. split; [reflexivity|apply length_map].
Qed.

Lemma kmeans_lab_channels_in_range_witness :
  @Extractor._extract_kmeans_lab example_colorspacious example_pillow
    example_sklearn 0 example_pixels 3
  = Ok [(10, 10, 10); (200, 30, 30); (240, 240, 240)]
  /\ 0 <= 200 <= 255 /\ 0 <= 30 <= 255 /\ 0 <= 30 <= 255.
Proof.
  split; [reflexivity|].
  apply (proj1 (@kmeans_lab_channels_in_range example_colorspacious example_pillow
                  example_sklearn 0 example_pixels 3 _ eq_refl) 200 30 30).
  right. left. reflexivity.
Defined.

Section ExtractorResults.
Context {FP : FloatPow} {NP : Numpy} {CS : Colorspacious} {PIL : Pillow}
        {SK : Sklearn} {CT : ColorThiefLib}.

Lemma adaptive_loop_spec (rng : RandomState) (image : Image) (image_path : string)
    (methods : list (string * Z)) (results : list (list RGB * Q * string)) :
  Extractor.adaptive_loop rng image image_path methods results
  = (results
     ++ flat_map (fun '(method, n) =>
                    match Extractor.adaptive_attempt rng image image_path method n with
                    | Ok entry => [entry]
                    | Raise _ => []
                    end) methods)%list.
Proof.
  revert results. induction methods as [|[method n] methods IH]; intros results;
    cbn [Extractor.adaptive_loop flat_map].
  - rewrite app_nil_r. reflexivity.
  - destruct (Extractor.adaptive_attempt rng image image_path method n).
    + rewrite IH, <- app_assoc. reflexivity.
    + rewrite IH. reflexivity.
Qed.

Lemma adaptive_attempt_ok (rng : RandomState) (image : Image) (image_path : string)
    (method : string) (n : Z) (colors : list RGB) (q : Q) (m : string) :
  Extractor.adaptive_attempt rng image image_path method n = Ok (colors, q, m) ->
  m = method /\ (3 <= List.length colors)%nat.
Proof.
  unfold Extractor.adaptive_attempt.
  destruct (if String.eqb method _ then _ else _) as [cs|e]; [|discriminate].
  cbn [bind].
  destruct (ColorPalette.from_colors cs (Some image_path)) as [p|e] eqn:E;
    [|discriminate].
  cbn [bind].
  destruct (Extractor._calculate_quality_score p image) as [q0|e]; [|discriminate].
  cbn [bind]. intros [= <- <- <-].
  split; [reflexivity|apply (from_colors_ok_length _ _ _ E)].
Qed.

(** When at least one of the methods that [_extract_adaptive] tries
    succeeds, it returns the colours of a successful attempt whose quality
    no other successful attempt exceeds; they are at least 3 colours. *)
Theorem adaptive_returns_best (rng : RandomState) (image : Image)
    (image_path : string) :
  (exists method n, In (method, n) Extractor.methods_to_try
     /\ is_ok (Extractor.adaptive_attempt rng image image_path method n) = true) ->
  exists colors q method n,
    Extractor._extract_adaptive rng image image_path = Ok colors
    /\ In (method, n) Extractor.methods_to_try
    /\ Extractor.adaptive_attempt rng image image_path method n
       = Ok (colors, q, method)
    /\ (3 <= List.length colors)%nat
    /\ forall method' n' colors' q',
         In (method', n') Extractor.methods_to_try ->
         Extractor.adaptive_attempt rng image image_path method' n'
         = Ok (colors', q', method') ->
         (q' <= q)%Q.
Proof.
  intros (method0 & n0 & H0 & Ok0).
  unfold Extractor._extract_adaptive. rewrite adaptive_loop_spec. cbn [app].
  set (f := fun '(method, n) =>
              match Extractor.adaptive_attempt rng image image_path method n with
              | Ok entry => [entry]
              | Raise _ => []
              end).
  assert (In_results : forall e, In e (flat_map f Extractor.methods_to_try) <->
            exists method n, In (method, n) Extractor.methods_to_try
              /\ Extractor.adaptive_attempt rng image image_path method n = Ok e).
  { intros e. rewrite in_flat_map. split.
    - intros ([method n] & Hm & He). exists method, n. split; [exact Hm|].
      unfold f in He.
      destruct (Extractor.adaptive_attempt rng image image_path method n);
        [destruct He as [<-|[]]; reflexivity|destruct He].
    - intros (method & n & Hm & He). exists (method, n). split; [exact Hm|].
      unfold f. rewrite He. left. reflexivity. }
  destruct (flat_map f Extractor.methods_to_try) as [|first rest] eqn:R.
  - exfalso.
    destruct (Extractor.adaptive_attempt rng image image_path method0 n0) as [e|]
      eqn:E; [|discriminate].
    apply (proj2 (In_results e)). exists method0, n0. auto.
  - destruct (max_by_spec (fun x : list RGB * Q * string => snd (fst x)) first rest)
      as [I M].
    set (best := PyList.max_by (fun x : list RGB * Q * string => snd (fst x))
                   first rest) in *.
    destruct (proj1 (In_results best) I) as (method & n & Hm & He).
    destruct best as [[colors q] m] eqn:B.
    destruct (adaptive_attempt_ok _ _ _ _ _ _ _ _ He) as [-> L].
    exists colors, q, method, n. cbn [fst].
    split; [reflexivity|]. split; [exact Hm|]. split; [exact He|].
    split; [exact L|].
    intros method' n' colors' q' Hm' He'.
    apply (M (colors', q', method')).
    apply (proj2 (In_results _)). exists method', n'. auto.
Qed.

(** A falsy argument falls back to the default: [extract_colors] treats
    the method [""] like no method, and the colour count 0 like no count;
    without a count, the count is the default of the method (8 for median
    cut, 5 for ColorThief, 6 otherwise). *)
Theorem extract_colors_defaults (self : ColorExtractor) (rng : RandomState)
    (image_path : string) (method : option string) (num_colors : option Z) :
  Extractor.extract_colors self rng image_path (Some "") num_colors
  = Extractor.extract_colors self rng image_path None num_colors
  /\ Extractor.extract_colors self rng image_path method (Some 0)
     = Extractor.extract_colors self rng image_path method None
  /\ Extractor.extract_colors self rng image_path method None
     = Extractor.extract_colors self rng image_path method
         (Some (let m := Extractor.or_string method (default_method self) in
                if String.eqb m "median_cut" then 8
                else if String.eqb m "colorthief" then 5 else 6)).
Proof.
  split; [reflexivity|]. split; [reflexivity|].
  unfold Extractor.extract_colors, Extractor.extract_color_list.
  set (m := Extractor.or_string method (default_method self)).
  assert (E : Extractor.or_int None (Extractor._get_default_color_count m)
              = Extractor.or_int
                  (Some (if String.eqb m "median_cut" then 8
                         else if String.eqb m "colorthief" then 5 else 6))
                  (Extractor._get_default_color_count m)).
  { unfold Extractor.or_int, Extractor._get_default_color_count,
      ColorExtractionMethod.KMEANS_LAB, ColorExtractionMethod.KMEANS_RGB,
      ColorExtractionMethod.MEDIAN_CUT, ColorExtractionMethod.COLORTHIEF,
      ColorExtractionMethod.ADAPTIVE.
    destruct (String.eqb_spec m "median_cut") as [->|]; [reflexivity|].
    destruct (String.eqb_spec m "colorthief") as [->|]; [reflexivity|].
    cbn [Z.eqb].
    destruct (String.eqb m "kmeans_lab"), (String.eqb m "kmeans_rgb"),
      (String.eqb m "adaptive"); reflexivity. }
  cbv zeta. rewrite E. reflexivity.
Qed.

(** [extract_colors] raises [ValueError] whenever the image cannot be
    loaded, whatever the library raised and whatever the method; for an
    image that loads, a method name that is none of the five known ones
    raises [ValueError] as well. *)
Theorem extract_colors_errors (self : ColorExtractor) (rng : RandomState)
    (image_path : string) (method : option string) (num_colors : option Z) :
  (forall e, Image_open image_path = Raise e ->
     exists msg, Extractor.extract_colors self rng image_path method num_colors
                 = Raise (ValueError msg))
  /\ (forall image,
        Extractor._load_and_preprocess_image self image_path = Ok image ->
        let m := Extractor.or_string method (default_method self) in
        ~ In m ["kmeans_lab"; "kmeans_rgb"; "median_cut"; "colorthief"; "adaptive"] ->
        Extractor.extract_colors self rng image_path method num_colors
        = Raise (ValueError ("Unknown extraction method: " ++ m))).
Proof.
  split.
  - intros e H. unfold Extractor.extract_colors, Extractor.extract_color_list,
      Extractor._load_and_preprocess_image.
    rewrite H. cbn [bind try_except]. eexists. reflexivity.
  - intros image H m N. unfold Extractor.extract_colors, Extractor.extract_color_list.
    fold m. rewrite H. cbn [bind].
    unfold ColorExtractionMethod.KMEANS_LAB, ColorExtractionMethod.KMEANS_RGB,
      ColorExtractionMethod.MEDIAN_CUT, ColorExtractionMethod.COLORTHIEF,
      ColorExtractionMethod.ADAPTIVE.
    cbn [In] in N.
    destruct (String.eqb_spec m "kmeans_lab") as [E|_]; [exfalso; apply N; auto|].
    destruct (String.eqb_spec m "kmeans_rgb") as [E|_]; [exfalso; apply N; auto|].
    destruct (String.eqb_spec m "median_cut") as [E|_]; [exfalso; apply N; auto|].
    destruct (String.eqb_spec m "colorthief") as [E|_]; [exfalso; apply N; auto 6|].
    destruct (String.eqb_spec m "adaptive") as [E|_]; [exfalso; apply N; auto 7|].
    reflexivity.
Qed.

Hypothesis fpow_nonneg : forall x y : Q, (0 <= x)%Q -> (0 <= fpow x y)%Q.

(** A palette that [extract_colors] returns records the image path and
    the method used (one of the five known names), has a quality score in
    [0, 1], and holds BACKGROUND, TEXT, PRIMARY and SURFACE. *)
Theorem extract_colors_result (self : ColorExtractor) (rng : RandomState)
    (image_path : string) (method : option string) (num_colors : option Z)
    (p : ColorPalette) :
  Extractor.extract_colors self rng image_path method num_colors = Ok p ->
  let m := Extractor.or_string method (default_method self) in
  source_image p = Some image_path
  /\ extraction_method p = Some m
  /\ In m ["kmeans_lab"; "kmeans_rgb"; "median_cut"; "colorthief"; "adaptive"]
  /\ (exists q, quality_score p = Some q /\ (0 <= q <= 1)%Q)
  /\ Dict.mem (colors p) BACKGROUND = true
  /\ Dict.mem (colors p) TEXT = true
  /\ Dict.mem (colors p) PRIMARY = true
  /\ Dict.mem (colors p) SURFACE = true.
Proof.
  intros H m. unfold Extractor.extract_colors, Extractor.extract_color_list in H.
  fold m in H.
  destruct (Extractor._load_and_preprocess_image self image_path) as [image|e];
    [|discriminate].
  cbn [bind] in H.
  assert (K : In m ["kmeans_lab"; "kmeans_rgb"; "median_cut"; "colorthief"; "adaptive"]
              \/ ~ In m ["kmeans_lab"; "kmeans_rgb"; "median_cut"; "colorthief";
                         "adaptive"]).
  { destruct (in_dec string_dec m
                ["kmeans_lab"; "kmeans_rgb"; "median_cut"; "colorthief"; "adaptive"]);
      auto. }
  destruct K as [K|K].
  2: { exfalso. revert H.
       unfold ColorExtractionMethod.KMEANS_LAB, ColorExtractionMethod.KMEANS_RGB,
         ColorExtractionMethod.MEDIAN_CUT, ColorExtractionMethod.COLORTHIEF,
         ColorExtractionMethod.ADAPTIVE.
       cbn [In] in K.
       destruct (String.eqb_spec m "kmeans_lab") as [E|_]; [exfalso; apply K; auto|].
       destruct (String.eqb_spec m "kmeans_rgb") as [E|_]; [exfalso; apply K; auto|].
       destruct (String.eqb_spec m "median_cut") as [E|_]; [exfalso; apply K; auto|].
       destruct (String.eqb_spec m "colorthief") as [E|_];
         [exfalso; apply K; auto 6|].
       destruct (String.eqb_spec m "adaptive") as [E|_]; [exfalso; apply K; auto 7|].
       discriminate. }
  destruct (if String.eqb m ColorExtractionMethod.KMEANS_LAB then _ else _)
    as [rgbs|e]; [|discriminate].
  cbn [bind] in H.
  destruct (ColorPalette.from_colors rgbs (Some image_path)) as [p0|e] eqn:E;
    [|discriminate].
  pose proof (from_colors_ok_length _ _ _ E) as L.
  rewrite (from_colors_run fpow_nonneg rgbs (Some image_path) L) in E.
  injection E as <-. cbn [bind] in H.
  destruct (Extractor._calculate_quality_score _ image) as [q|e] eqn:Q;
    [|discriminate].
  cbn [bind] in H. injection H as <-.
  unfold ColorPalette.set_quality_score, ColorPalette.set_extraction_method.
  cbn [colors source_image extraction_method quality_score].
  split; [reflexivity|]. split; [reflexivity|]. split; [exact K|].
  split.
  - exists q. split; [reflexivity|].
    unfold Extractor._calculate_quality_score in Q.
    destruct (Extractor.quality_scores _ image); [|discriminate].
    cbn [bind] in Q. injection Q as <-. apply clamp_unit_flipped.
  - destruct (assigned_colors_get (sorted_colors rgbs)) as (G1 & G2 & G3 & G4).
    unfold Dict.mem. rewrite G1, G2, G3, G4. auto.
Qed.

End ExtractorResults.

Lemma adaptive_returns_best_witness :
  exists colors,
    @Extractor._extract_adaptive pow_approx example_numpy example_colorspacious
      example_pillow example_sklearn example_colorthief 0 example_pixels
      "/img/wall.png" = Ok colors
    /\ (3 <= List.length colors)%nat.
Proof.
  destruct (@adaptive_returns_best pow_approx example_numpy example_colorspacious
              example_pillow example_sklearn example_colorthief 0 example_pixels
              "/img/wall.png") as (colors & q & method & n & E & _ & _ & L & _).
  - exists "colorthief", 5. split; [right; left; reflexivity|].
    vm_compute. reflexivity.
  - exists colors. split; [exact E|exact L].
Defined.

Lemma extract_colors_errors_witness :
  (exists msg,
     @Extractor.extract_colors pow_approx example_numpy example_colorspacious
       example_pillow example_sklearn example_colorthief
       Extractor.default 0 "/gone.png" None None = Raise (ValueError msg))
  /\ @Extractor.extract_colors pow_approx example_numpy example_colorspacious
       example_pillow example_sklearn example_colorthief
       Extractor.default 0 "/img/wall.png" (Some "octree") None
     = Raise (ValueError "Unknown extraction method: octree").
Proof.
  destruct (@extract_colors_errors pow_approx example_numpy example_colorspacious
              example_pillow example_sklearn example_colorthief
              Extractor.default 0 "/gone.png" None None) as [A _].
  destruct (@extract_colors_errors pow_approx example_numpy example_colorspacious
              example_pillow example_sklearn example_colorthief
              Extractor.default 0 "/img/wall.png" (Some "octree") None) as [_ B].
  split.
  - apply (A (FileNotFoundError "/gone.png")). reflexivity.
  - apply (B example_pixels); [reflexivity|].
    cbn [In]. intros [H|[H|[H|[H|[H|[]]]]]]; discriminate H.
Defined.

Lemma extract_colors_result_witness :
  exists p,
    @Extractor.extract_colors pow_approx example_numpy example_colorspacious
      example_pillow example_sklearn example_colorthief
      Extractor.default 0 "/img/wall.png" (Some "kmeans_rgb") (Some 3) = Ok p
    /\ extraction_method p = Some "kmeans_rgb"
    /\ Dict.mem (colors p) SURFACE = true.
Proof.
  destruct (@Extractor.extract_colors pow_approx example_numpy example_colorspacious
              example_pillow example_sklearn example_colorthief
              Extractor.default 0 "/img/wall.png" (Some "kmeans_rgb") (Some 3))
    as [p|e] eqn:E; [|vm_compute in E; discriminate E].
  exists p. split; [reflexivity|].
  destruct (@extract_colors_result pow_approx example_numpy example_colorspacious
              example_pillow example_sklearn example_colorthief pow_approx_nonneg
              Extractor.default 0 "/img/wall.png" (Some "kmeans_rgb") (Some 3) p E)
    as (_ & M & _ & _ & _ & _ & _ & S).
  split; [exact M|exact S].
Defined.

(* --------------------------------------------------------------------- *)
(** ** Witnesses for the range and alpha properties *)
(* --------------------------------------------------------------------- *)

Lemma pow_approx_unit :
  forall x : Q, (0 <= x <= 1)%Q -> (0 <= @fpow pow_approx x 2.4 <= 1)%Q.
Proof.
  intros x [H0 H1]. cbn [fpow pow_approx].
  split; [apply Qle_shift_div_l; [lra|]; nra|apply Qle_shift_div_r; [lra|]; nra].
Qed.

Lemma luminance_and_contrast_range_witness :
  let x := SemanticColor.init 300 128 (-5) PRIMARY 1 255 in
  let y := SemanticColor.init 10 20 30 TEXT 1 255 in
  (0 <= @Color.luminance pow_approx x <= 1)%Q
  /\ (1 <= @Color.contrast_ratio pow_approx x y <= 21)%Q.
Proof.
  destruct (@luminance_and_contrast_range pow_approx pow_approx_unit
              300 128 (-5) PRIMARY 1 255 10 20 30 TEXT 1 255) as (A & _ & B).
  split; [exact A|exact B].
Defined.

Lemma with_alpha_changes_alpha_only_witness :
  alpha (SemanticColor.with_alpha (SemanticColor.init 10 20 30 PRIMARY 1 255) 128) = 128
  /\ alpha (SemanticColor.with_alpha (SemanticColor.init 10 20 30 PRIMARY 1 255) 300) = 255.
Proof.
  split.
  - apply (with_alpha_changes_alpha_only 10 20 30 PRIMARY 1 255 128). lia.
  - reflexivity.
Defined.

(* --------------------------------------------------------------------- *)
(** ** compare_methods *)
(* --------------------------------------------------------------------- *)

Section CompareMethods.
Context {FP : FloatPow} {NP : Numpy} {CS : Colorspacious} {PIL : Pillow}
        {SK : Sklearn} {CT : ColorThiefLib}.

Lemma method_report_has_score (self : ColorExtractor) (rng : RandomState)
    (image_path method : string) (report : MethodReport) :
  Extractor2.method_report self rng image_path method = Ok report ->
  exists q, report_quality_score report = Some q.
Proof.
  unfold Extractor2.method_report, Extractor.extract_colors.
  destruct (Extractor.extract_color_list self rng image_path (Some method) None)
    as [[[m image] rgbs]|e]; [|discriminate].
  cbn [bind].
  destruct (ColorPalette.from_colors rgbs (Some image_path)) as [p|e]; [|discriminate].
  cbn [bind].
  destruct (Extractor._calculate_quality_score _ image) as [q|e]; [|discriminate].
  cbn [bind].
  destruct (ColorPalette.meets_accessibility_standards _) as [acc|e]; [|discriminate].
  cbn [bind].
  destruct (ColorPalette.validate_contrast _) as [cr|e]; [|discriminate].
  cbn [bind]. intros [= <-]. exists q. reflexivity.
Qed.

Lemma successful_methods_spec (rs : list (string * result MethodReport))
    (m : string) (r : MethodReport) :
  In (m, r) (flat_map (fun '(k, v) => match v with
                                      | Ok report => [(k, report)]
                                      | Raise _ => []
                                      end) rs)
  <-> In (m, Ok r) rs.
Proof.
  rewrite in_flat_map. split.
  - intros ([k [report|e]] & I & H); cbn in H; [|contradiction].
    destruct H as [[= -> ->]|[]]. exact I.
  - intros I. exists (m, Ok r). split; [exact I|left; reflexivity].
Qed.

(** [compare_methods] never raises and reports on the four methods
    kmeans_lab, kmeans_rgb, median_cut and colorthief, in this order: each
    entry is what the method gave, or its error.  The ranking holds
    exactly the methods that succeeded, and [best_method] is its first
    element, a method whose quality score no other successful method
    exceeds; when every method failed there is neither key. *)
Theorem compare_methods_ranking (self : ColorExtractor) (rng : RandomState)
    (image_path : string) :
  let report := Extractor2.method_report self rng image_path in
  let c := Extractor2.compare_methods self rng image_path in
  reports c = [("kmeans_lab", report "kmeans_lab"); ("kmeans_rgb", report "kmeans_rgb");
               ("median_cut", report "median_cut"); ("colorthief", report "colorthief")]
  /\ match ranking c with
     | None =>
         best_method c = None
         /\ forall m, In m Extractor2.compared_methods -> is_ok (report m) = false
     | Some l =>
         Permutation l (filter (fun m => is_ok (report m)) Extractor2.compared_methods)
         /\ exists best r q,
              best_method c = Some best /\ hd_error l = Some best
              /\ report best = Ok r /\ report_quality_score r = Some q
              /\ forall m r' q', In m Extractor2.compared_methods ->
                                 report m = Ok r' ->
                                 report_quality_score r' = Some q' -> (q' <= q)%Q
     end.
Proof.
  intros report c.
  set (rs := [("kmeans_lab", report "kmeans_lab"); ("kmeans_rgb", report "kmeans_rgb");
              ("median_cut", report "median_cut"); ("colorthief", report "colorthief")]).
  assert (R : fold_left (fun results method =>
                           StrDict.set results method (report method))
                Extractor2.compared_methods [] = rs) by reflexivity.
  unfold c, Extractor2.compare_methods. fold report. rewrite R.
  set (succ := flat_map (fun '(k, v) => match v with
                                        | Ok report => [(k, report)]
                                        | Raise _ => []
                                        end) rs).
  assert (Hsucc : forall m r, In (m, r) succ <-> In (m, Ok r) rs)
    by (intros m r; apply successful_methods_spec).
  assert (Hrs : forall m v, In (m, v) rs <-> In m Extractor2.compared_methods
                                             /\ v = report m).
  { intros m v. unfold rs, Extractor2.compared_methods,
      ColorExtractionMethod.KMEANS_LAB, ColorExtractionMethod.KMEANS_RGB,
      ColorExtractionMethod.MEDIAN_CUT, ColorExtractionMethod.COLORTHIEF.
    cbn [In]. split.
    - intros [H|[H|[H|[H|[]]]]]; inversion H; subst; auto 6.
    - intros [[H|[H|[H|[H|[]]]]] ->]; subst; auto 6. }
  assert (Hfst : map fst succ
                 = filter (fun m => is_ok (report m)) Extractor2.compared_methods).
  { unfold succ, rs, Extractor2.compared_methods,
      ColorExtractionMethod.KMEANS_LAB, ColorExtractionMethod.KMEANS_RGB,
      ColorExtractionMethod.MEDIAN_CUT, ColorExtractionMethod.COLORTHIEF.
    cbn [flat_map filter].
    destruct (report "kmeans_lab"), (report "kmeans_rgb"), (report "median_cut"),
      (report "colorthief"); reflexivity. }
  destruct succ as [|s0 succ'] eqn:Es.
  - cbn [reports ranking best_method]. split; [reflexivity|]. split; [reflexivity|].
    intros m Hm. destruct (report m) as [r|e] eqn:Er; [|reflexivity].
    exfalso. apply (proj2 (Hsucc m r)). apply Hrs. split; [exact Hm|]. symmetry. exact Er.
  - rewrite <- Es in *. cbn [reports ranking best_method].
    split; [reflexivity|]. split.
    + rewrite <- Hfst. apply Permutation_map. apply sort_by_desc_perm.
    + destruct (PyList.sort_by_desc Extractor2.ranking_key succ) as [|[best r] t] eqn:S.
      * apply sort_by_desc_nil in S. rewrite S in Es. discriminate.
      * destruct (sort_by_desc_head _ _ _ _ S) as [I M].
        apply Hsucc, Hrs in I. destruct I as [Ib Er].
        destruct (method_report_has_score self rng image_path best r (eq_sym Er))
          as [q Hq].
        exists best, r, q. split; [reflexivity|]. split; [reflexivity|].
        split; [symmetry; exact Er|]. split; [exact Hq|].
        intros m r' q' Hm Er' Hq'.
        assert (I' : In (m, r') succ).
        { apply Hsucc, Hrs. split; [exact Hm|]. symmetry. exact Er'. }
        specialize (M (m, r') I'). unfold Extractor2.ranking_key in M.
        cbn [snd] in M. rewrite Hq, Hq' in M. exact M.
Qed.

End CompareMethods.

(* --------------------------------------------------------------------- *)
(** ** The template filters mix and alpha *)
(* --------------------------------------------------------------------- *)

Lemma to_int_inject_Z (x : Q) (n : Z) : (x == inject_Z n)%Q -> PyFloat.to_int x = n.
Proof.
  unfold Qeq, PyFloat.to_int. cbn [Qnum Qden inject_Z]. intros H.
  rewrite Z.mul_1_r in H. rewrite H. apply Z.quot_mul. discriminate.
Qed.

(** At ratio 0 the mix filter gives the channels of the first colour, at
    ratio 1 those of the second; at every ratio the result has the role
    of the first colour, the smaller of the two confidences, and is fully
    opaque whatever the alpha of the two colours. *)
Theorem filter_mix_endpoints (c1 c2 : SemanticColor) :
  0 <= r c1 <= 255 -> 0 <= g c1 <= 255 -> 0 <= b c1 <= 255 ->
  0 <= r c2 <= 255 -> 0 <= g c2 <= 255 -> 0 <= b c2 <= 255 ->
  (0 <= confidence c1 <= 1)%Q -> (0 <= confidence c2 <= 1)%Q ->
  SemanticColor.rgb (TemplateFilters._filter_mix c1 c2 0) = SemanticColor.rgb c1
  /\ SemanticColor.rgb (TemplateFilters._filter_mix c1 c2 1) = SemanticColor.rgb c2
  /\ forall ratio,
       role (TemplateFilters._filter_mix c1 c2 ratio) = role c1
       /\ alpha (TemplateFilters._filter_mix c1 c2 ratio) = 255
       /\ (confidence (TemplateFilters._filter_mix c1 c2 ratio)
           == Py.minQ (confidence c1) (confidence c2))%Q.
Proof.
  intros R1 G1 B1 R2 G2 B2 C1 C2.
  unfold TemplateFilters._filter_mix, SemanticColor.rgb.
  cbn [r g b role alpha confidence SemanticColor.init].
  split; [|split].
  - rewrite (to_int_inject_Z _ (r c1)) by ring.
    rewrite (to_int_inject_Z _ (g c1)) by ring.
    rewrite (to_int_inject_Z _ (b c1)) by ring.
    rewrite (clamp_id _ R1), (clamp_id _ G1), (clamp_id _ B1). reflexivity.
  - rewrite (to_int_inject_Z _ (r c2)) by ring.
    rewrite (to_int_inject_Z _ (g c2)) by ring.
    rewrite (to_int_inject_Z _ (b c2)) by ring.
    rewrite (clamp_id _ R2), (clamp_id _ G2), (clamp_id _ B2). reflexivity.
  - intros ratio. split; [reflexivity|]. split; [reflexivity|].
    set (m := Py.minQ (confidence c1) (confidence c2)).
    assert (Hm : (0 <= m <= 1)%Q).
    { unfold m. destruct (minQ_cases (confidence c1) (confidence c2))
        as [[-> ?]|[-> ?]]; lra. }
    destruct (minQ_cases 1 m) as [[E ?]|[E ?]]; rewrite E;
      destruct (maxQ_cases 0 1) as [[E1 ?]|[E1 ?]];
      destruct (maxQ_cases 0 m) as [[E2 ?]|[E2 ?]]; rewrite ?E1, ?E2; lra.
Qed.

Lemma filter_mix_endpoints_witness :
  SemanticColor.rgb
    (TemplateFilters._filter_mix (SemanticColor.init 10 20 30 PRIMARY 1 128)
       (SemanticColor.init 200 100 0 TEXT 0.5 64) 1)
  = (200, 100, 0).
Proof.
  apply (filter_mix_endpoints (SemanticColor.init 10 20 30 PRIMARY 1 128)
           (SemanticColor.init 200 100 0 TEXT 0.5 64));
    cbn; try lia; split; discriminate.
Defined.

(** The alpha filter reads a value up to 1 as a fraction of 255 and a
    larger one as the alpha itself: 0 gives 0, 0.5 gives 127, 1 gives 255
    (never alpha 1), and an integer from 2 to 255 gives that alpha.  The
    colour channels do not change. *)
Theorem filter_alpha_scale (c : SemanticColor) :
  0 <= r c <= 255 -> 0 <= g c <= 255 -> 0 <= b c <= 255 ->
  alpha (TemplateFilters._filter_alpha c 0) = 0
  /\ alpha (TemplateFilters._filter_alpha c 0.5) = 127
  /\ alpha (TemplateFilters._filter_alpha c 1) = 255
  /\ (forall n, 2 <= n <= 255 ->
                alpha (TemplateFilters._filter_alpha c (inject_Z n)) = n)
  /\ forall a, SemanticColor.rgb (TemplateFilters._filter_alpha c a)
               = SemanticColor.rgb c
               /\ 0 <= alpha (TemplateFilters._filter_alpha c a) <= 255.
Proof.
  intros R G B.
  split; [reflexivity|]. split; [reflexivity|]. split; [reflexivity|]. split.
  - intros n Hn. unfold TemplateFilters._filter_alpha.
    assert (L : PyFloat.le (inject_Z n) 1 = false).
    { unfold PyFloat.le. destruct (Qle_bool (inject_Z n) 1) eqn:E; [|reflexivity].
      apply Qle_bool_iff in E. change 1%Q with (inject_Z 1) in E.
      rewrite <- Zle_Qle in E. lia. }
    rewrite L. rewrite (to_int_inject_Z _ n) by reflexivity.
    unfold SemanticColor.with_alpha. cbn [alpha SemanticColor.init].
    apply clamp_id. lia.
  - intros a. unfold TemplateFilters._filter_alpha, SemanticColor.with_alpha,
      SemanticColor.rgb.
    cbn [r g b alpha SemanticColor.init].
    rewrite (clamp_id _ R), (clamp_id _ G), (clamp_id _ B).
    split; [reflexivity|apply clamp_byte].
Qed.

Lemma filter_alpha_scale_witness :
  alpha (TemplateFilters._filter_alpha (SemanticColor.init 10 20 30 PRIMARY 1 255) 1)
  = 255
  /\ alpha (TemplateFilters._filter_alpha (SemanticColor.init 10 20 30 PRIMARY 1 255)
              (inject_Z 2))
     = 2.
Proof.
  destruct (filter_alpha_scale (SemanticColor.init 10 20 30 PRIMARY 1 255))
    as (_ & _ & A & N & _); [cbn; lia|cbn; lia|cbn; lia|].
  split; [exact A|apply N; lia].
Defined.

(* ===================================================================== *)
(** * theme_applier.py: properties *)
(* ===================================================================== *)

(* --------------------------------------------------------------------- *)
(** ** Strings and paths *)
(* --------------------------------------------------------------------- *)


Lemma strip_prefix_append (a b : string) : PyStr.strip_prefix a (a ++ b) = Some b.
Proof. apply strip_prefix_spec. reflexivity. Qed.

Lemma startswith_append (a b : string) : PyStr.startswith (a ++ b) a = true.
Proof. unfold PyStr.startswith. rewrite strip_prefix_append. reflexivity. Qed.

Lemma rev_append_acc (s acc : string) :
  PyStr.rev_append s acc = PyStr.rev_append s "" ++ acc.
Proof.
  revert acc. induction s as [|c s IH]; intros acc; cbn [PyStr.rev_append];
    [reflexivity|].
  rewrite (IH (String c acc)), (IH (String c "")), append_assoc. reflexivity.
Qed.

Lemma reverse_append (a b : string) :
  PyStr.reverse (a ++ b) = PyStr.reverse b ++ PyStr.reverse a.
Proof.
  unfold PyStr.reverse. revert b.
  induction a as [|c a IH]; intros b; cbn [append PyStr.rev_append].
  - induction (PyStr.rev_append b "") as [|x s IHs]; cbn [append];
      [reflexivity|]. rewrite <- IHs. reflexivity.
  - rewrite (rev_append_acc (a ++ b)), IH, (rev_append_acc a (String c "")).
    rewrite append_assoc. reflexivity.
Qed.


Lemma contains_append (ch : ascii) (a b : string) :
  PyStr.contains ch (a ++ b) = (PyStr.contains ch a || PyStr.contains ch b)%bool.
Proof.
  induction a as [|c a IH]; cbn [append PyStr.contains]; [reflexivity|].
  rewrite IH, orb_assoc. reflexivity.
Qed.



Lemma existsb_strdict_set {V} (P : string -> bool) (d : StrDict.t V) (k : string) (v : V) :
  existsb (fun '(p, _) => P p) (StrDict.set d k v)
  = (existsb (fun '(p, _) => P p) d || P k)%bool.
Proof.
  induction d as [|[k' v'] d IH]; cbn [StrDict.set existsb].
  - rewrite orb_false_r. reflexivity.
  - destruct (String.eqb_spec k' k) as [->|N]; cbn [existsb].
    + destruct (P k); [rewrite ?orb_true_r|rewrite ?orb_false_r]; reflexivity.
    + rewrite IH, orb_assoc. reflexivity.
Qed.

Lemma is_dir_set (fs : FS.t) (k : string) (f : File) (d : string) :
  FS.is_dir (StrDict.set fs k f) d
  = (FS.is_dir fs d || (PyStr.truthy d && FS.under d k))%bool.
Proof.
  unfold FS.is_dir. rewrite (existsb_strdict_set (FS.under d)).
  destruct (PyStr.truthy d); reflexivity.
Qed.

Lemma entry_name_spec (d p n : string) :
  FS.entry_name d p = Some n ->
  p = FS.dir_prefix d ++ n /\ PyStr.truthy n = true
  /\ PyStr.startswith n "/" = false /\ FS.under d p = true.
Proof.
  unfold FS.entry_name, FS.under.
  destruct (PyStr.strip_prefix (FS.dir_prefix d) p) as [name|] eqn:E; [|discriminate].
  destruct (PyStr.truthy name && negb (PyStr.contains "/" name)
            && negb (PyStr.startswith name "/"))%bool eqn:C; [|discriminate].
  intros [= <-].
  apply andb_true_iff in C. destruct C as [C C3].
  apply andb_true_iff in C. destruct C as [C1 _].
  apply negb_true_iff in C3. apply strip_prefix_spec in E. auto.
Qed.






Lemma truthy_append_r (a b : string) :
  PyStr.truthy b = true -> PyStr.truthy (a ++ b) = true.
Proof. destruct a; [intros H; exact H|reflexivity]. Qed.

Lemma join_ends (a b : string) : exists pre, Path.join a b = pre ++ b.
Proof.
  unfold Path.join. destruct (PyStr.startswith b "/"); [exists ""; reflexivity|].
  destruct (negb (PyStr.truthy a) || PyStr.endswith a "/")%bool.
  - exists a. reflexivity.
  - exists (a ++ "/"). rewrite append_assoc. reflexivity.
Qed.

(** A path that ends in a file name is not empty and has no trailing
    slash. *)
Lemma ends_in_name (pre name : string) (c : ascii) (rest : string) :
  PyStr.reverse name = String c rest -> c <> "/"%char ->
  PyStr.truthy (pre ++ name) = true /\ PyStr.endswith (pre ++ name) "/" = false.
Proof.
  intros R N. split.
  - apply truthy_append_r. destruct name; [discriminate R|reflexivity].
  - unfold PyStr.endswith. rewrite reverse_append, R.
    unfold PyStr.startswith. cbn [PyStr.reverse PyStr.rev_append append PyStr.strip_prefix].
    destruct (Ascii.eqb_spec "/" c) as [E|_]; [congruence|reflexivity].
Qed.

Lemma backup_path_name (d app_name ts : string) :
  let bp := Path.join d (app_name ++ "_" ++ ts ++ ".backup") in
  PyStr.truthy bp = true /\ PyStr.endswith bp "/" = false.
Proof.
  intros bp. unfold bp.
  destruct (join_ends d (app_name ++ "_" ++ ts ++ ".backup")) as [pre ->].
  rewrite <- !append_assoc.
  rewrite (append_assoc pre). 
  apply (ends_in_name _ ".backup" "p" "ukcab."); [reflexivity|discriminate].
Qed.

Lemma record_path_name (d : string) :
  let p := Path.join d "last_application.json" in
  PyStr.truthy p = true /\ PyStr.endswith p "/" = false.
Proof.
  intros p. unfold p. destruct (join_ends d "last_application.json") as [pre ->].
  apply (ends_in_name _ _ "n" "osj.noitacilppa_tsal"); [reflexivity|discriminate].
Qed.

(* --------------------------------------------------------------------- *)
(** ** Directories and files of a state *)
(* --------------------------------------------------------------------- *)

Lemma isdir_truthy (w : World) (d : string) :
  OS.isdir w d = true -> PyStr.truthy d = true.
Proof.
  unfold OS.isdir, OS.is_root, FS.is_dir, OS.made.
  destruct (PyStr.truthy d); [reflexivity|]. cbn. intros H. exact H.
Qed.

Lemma isdir_set_files (w : World) (k : string) (f : File) (d : string) :
  OS.isdir (OS.set_files w (StrDict.set (files w) k f)) d
  = (OS.isdir w d || (PyStr.truthy d && FS.under d k))%bool.
Proof.
  unfold OS.isdir. cbn [files dirs OS.set_files]. rewrite is_dir_set.
  destruct (OS.is_root d), (FS.is_dir (files w) d), (OS.made (dirs w) d),
    (PyStr.truthy d && FS.under d k)%bool; reflexivity.
Qed.

Lemma isdir_set_files_mono (w : World) (k : string) (f : File) (d : string) :
  OS.isdir w d = true ->
  OS.isdir (OS.set_files w (StrDict.set (files w) k f)) d = true.
Proof. intros H. rewrite isdir_set_files, H. reflexivity. Qed.


(** Opening for writing succeeds on a named path that is not a directory
    and whose directory exists. *)
Lemma open_for_writing_ok (w : World) (p : string) :
  PyStr.truthy p = true -> PyStr.endswith p "/" = false ->
  OS.isdir w p = false -> OS.parent_exists w p = true ->
  OS.open_for_writing w p = Ok tt.
Proof.
  intros T S D P. unfold OS.open_for_writing. rewrite T, S, D, P. reflexivity.
Qed.

Lemma open_for_writing_inv (w : World) (p : string) :
  OS.open_for_writing w p = Ok tt ->
  PyStr.truthy p = true /\ PyStr.endswith p "/" = false
  /\ OS.isdir w p = false /\ OS.parent_exists w p = true.
Proof.
  unfold OS.open_for_writing.
  destruct (PyStr.truthy p); [|discriminate]. cbn [negb].
  destruct (OS.isdir w p); [discriminate|]. cbn [orb].
  destruct (PyStr.endswith p "/"); [discriminate|].
  destruct (OS.parent_exists w p); [|discriminate]. auto.
Qed.

Lemma write_spec (w : World) (p data : string) :
  match OS.write w p data with
  | Ok w' => OS.open_for_writing w p = Ok tt
             /\ w' = OS.set_files w (StrDict.set (files w) p
                                       {| content := data; mtime := now w |})
  | Raise _ => OS.open_for_writing w p <> Ok tt
  end.
Proof.
  unfold OS.write. destruct (OS.open_for_writing w p) as [[]|e]; cbn [bind].
  - split; reflexivity.
  - discriminate.
Qed.

Lemma copy2_spec (w : World) (src dst : string) :
  match OS.copy2 w src dst with
  | Ok w' =>
      let dst' := if OS.isdir w dst then Path.join dst (OS.basename src) else dst in
      exists f, StrDict.get (files w) src = Some f /\ src <> dst'
                /\ OS.open_for_writing w dst' = Ok tt
                /\ w' = OS.set_files w (StrDict.set (files w) dst' f)
  | Raise _ => True
  end.
Proof.
  unfold OS.copy2. cbv zeta.
  set (dst' := if OS.isdir w dst then Path.join dst (OS.basename src) else dst).
  destruct (PyStr.truthy src); cbn [negb]; [|exact I].
  destruct (StrDict.get (files w) src) as [f|]; [|exact I].
  destruct (String.eqb_spec src dst') as [E|N]; [exact I|].
  destruct (OS.open_for_writing w dst') as [[]|e]; cbn [bind]; [|exact I].
  exists f. auto.
Qed.

Lemma copy2_ok (w : World) (src dst : string) (f : File) :
  PyStr.truthy src = true -> StrDict.get (files w) src = Some f -> src <> dst ->
  PyStr.truthy dst = true -> PyStr.endswith dst "/" = false ->
  OS.isdir w dst = false -> OS.parent_exists w dst = true ->
  OS.copy2 w src dst = Ok (OS.set_files w (StrDict.set (files w) dst f)).
Proof.
  intros Ts Hf N Td S D P. unfold OS.copy2. rewrite D, Ts, Hf. cbn [negb].
  destruct (String.eqb_spec src dst) as [E|_]; [contradiction|].
  rewrite (open_for_writing_ok w dst Td S D P). reflexivity.
Qed.

(* --------------------------------------------------------------------- *)
(** ** Applying a theme to one application *)
(* --------------------------------------------------------------------- *)

Section ApplierTheorems.
Context {ENV : Environment}.

Lemma reload_step_world (config : ApplicationConfig.t) (w : World) (reload : bool) :
  files (snd (Applier.reload_step config w reload)) = files w
  /\ dirs (snd (Applier.reload_step config w reload)) = dirs w.
Proof.
  unfold Applier.reload_step, OS.sleep.
  destruct reload; [|split; reflexivity].
  destruct (match ApplicationConfig.reload_command config with
            | Some cmd => if PyStr.truthy cmd then Some cmd else None
            | None => None
            end) as [cmd|];
    destruct (Py.Qltb (ApplicationConfig.reload_delay config) 0);
    try (split; reflexivity).
  destruct (subprocess_run cmd) as [[[stdout stderr] code]|[]]; split; reflexivity.
Qed.

(** The reload step raises only for a negative delay. *)
Lemma reload_step_ok (config : ApplicationConfig.t) (w : World) (reload : bool) :
  (0 <= ApplicationConfig.reload_delay config)%Q ->
  is_ok (fst (Applier.reload_step config w reload)) = true.
Proof.
  intros H. unfold Applier.reload_step, OS.sleep.
  assert (L : Py.Qltb (ApplicationConfig.reload_delay config) 0 = false).
  { unfold Py.Qltb. apply negb_false_iff, Qle_bool_iff, H. }
  rewrite L. destruct reload; [|reflexivity].
  destruct (match ApplicationConfig.reload_command config with
            | Some cmd => if PyStr.truthy cmd then Some cmd else None
            | None => None
            end) as [cmd|]; [|reflexivity].
  destruct (subprocess_run cmd) as [[[stdout stderr] code]|[]]; reflexivity.
Qed.

Lemma apply_to_application_unfold (self : ThemeApplier) (w : World)
    (app_name : string) (palette : ColorPalette) (create_backup reload : bool)
    (config : ApplicationConfig.t) :
  StrDict.get (applications self) app_name = Some config ->
  let output := ApplicationConfig.output_path config in
  let backup_path :=
    Path.join (backup_dir self)
      (app_name ++ "_" ++ strftime_compact (now w) ++ ".backup") in
  Applier._apply_to_application self w app_name palette create_backup reload
  = if (create_backup && OS.exists_ w output)%bool then
      match OS.copy2 w output backup_path with
      | Ok w1 => apply_after_backup config app_name palette true w1 reload
      | Raise e => (Raise e, w)
      end
    else apply_after_backup config app_name palette false w reload.
Proof.
  intros Hcfg output backup_path.
  unfold Applier._apply_to_application, StrDict.getitem. rewrite Hcfg. fold output.
  destruct (create_backup && OS.exists_ w output)%bool.
  - unfold Applier._create_backup. fold backup_path.
    destruct (OS.copy2 w output backup_path) as [w1|e]; reflexivity.
  - reflexivity.
Qed.

Lemma ensure_dir_spec (w : World) (d : string) :
  match Applier.ensure_dir w d with
  | Ok w' => files w' = files w /\ now w' = now w
             /\ (OS.isdir w d = true -> w' = w)
  | Raise _ => OS.isdir w d = false
  end.
Proof.
  unfold Applier.ensure_dir, OS.exists_.
  destruct (OS.isdir w d) eqn:D.
  - rewrite (isdir_truthy w d D), orb_true_r. cbn. auto.
  - destruct (PyStr.truthy d && (FS.is_file (files w) d || false))%bool; cbn [negb].
    + split; [reflexivity|]. split; [reflexivity|discriminate].
    + unfold OS.makedirs. destruct (negb (PyStr.truthy d)); [reflexivity|].
      destruct (existsb _ (files w)); [reflexivity|].
      cbn [files now]. split; [reflexivity|]. split; [reflexivity|discriminate].
Qed.

(** What the part after the backup does: it touches no file but the
    output file, its result carries the name and [backup_created], and it
    returns when the directory of the output file exists and the reload
    delay is not negative. *)
Lemma apply_after_backup_spec (config : ApplicationConfig.t) (app_name : string)
    (palette : ColorPalette) (created : bool) (w : World) (reload : bool) :
  let output := ApplicationConfig.output_path config in
  let r := fst (apply_after_backup config app_name palette created w reload) in
  let w' := snd (apply_after_backup config app_name palette created w reload) in
  (forall p, p <> output -> StrDict.get (files w') p = StrDict.get (files w) p)
  /\ (forall res, r = Ok res ->
        ThemeApplication.backup_created res = created
        /\ ThemeApplication.app_name res = app_name)
  /\ (files w' = files w \/ exists f, files w' = StrDict.set (files w) output f)
  /\ (OS.isdir w (OS.dirname output) = true ->
      dirs w' = dirs w
      /\ ((0 <= ApplicationConfig.reload_delay config)%Q -> is_ok r = true)).
Proof.
  intros output r w'. subst r w'. unfold apply_after_backup. fold output.
  destruct (if String.eqb app_name "swaync" then _ else _) as [rendered|e].
  2:{ cbn [fst snd]. split; [reflexivity|].
      split; [intros res [= <-]; split; reflexivity|].
      split; [left; reflexivity|]. intros _. split; reflexivity. }
  pose proof (ensure_dir_spec w (OS.dirname output)) as En.
  destruct (Applier.ensure_dir w (OS.dirname output)) as [w1|e].
  2:{ cbn [fst snd]. split; [reflexivity|]. split; [discriminate|].
      split; [left; reflexivity|]. intros D. congruence. }
  destruct En as (Ef & Et & Ew).
  pose proof (write_spec w1 output rendered) as Wr.
  destruct (OS.write w1 output rendered) as [w2|e].
  2:{ cbn [fst snd]. rewrite Ef. split; [reflexivity|].
      split; [intros res [= <-]; split; reflexivity|].
      split; [left; reflexivity|]. intros D. rewrite (Ew D). split; reflexivity. }
  destruct Wr as [Op ->].
  match goal with
  | |- context [Applier.reload_step config ?w0 reload] =>
      pose proof (reload_step_world config w0 reload) as [RF RD];
      pose proof (reload_step_ok config w0 reload) as RO;
      destruct (Applier.reload_step config w0 reload) as [[[reloaded out]|e] w3]
  end; cbn [fst snd files dirs OS.set_files] in *; rewrite RF, Ef.
  - split; [intros p Hp; apply strdict_get_set_other; congruence|].
    split; [intros res [= <-]; split; reflexivity|].
    split; [right; eexists; reflexivity|].
    intros D. rewrite RD, (Ew D). split; reflexivity.
  - split; [intros p Hp; apply strdict_get_set_other; congruence|].
    split; [discriminate|].
    split; [right; eexists; reflexivity|].
    intros D. rewrite RD, (Ew D). split; [reflexivity|exact RO].
Qed.


(** C6.  For a configured application whose output path and backup path
    are different and are not directories, the backup directory being
    there: a backup is made exactly when [create_backup] is set and the
    output file exists.  Then the backup file, named
    [<app>_<timestamp>.backup] in the backup directory, holds afterwards
    the file that was at the output path before the new content was
    written, also when a later step raises; otherwise (in particular
    whenever [create_backup] is false) no file other than the output file
    changes.  A result that is returned reports it in [backup_created],
    and a result is returned whenever the directory of the output file
    exists and the reload delay is not negative. *)
Theorem backup_on_apply (self : ThemeApplier) (w : World) (app_name : string)
    (palette : ColorPalette) (create_backup reload_application : bool)
    (config : ApplicationConfig.t) :
  StrDict.get (applications self) app_name = Some config ->
  let output := ApplicationConfig.output_path config in
  let backup_path :=
    Path.join (backup_dir self)
      (app_name ++ "_" ++ strftime_compact (now w) ++ ".backup") in
  let backup_made := (create_backup && OS.exists_ w output)%bool in
  let r := fst (Applier._apply_to_application self w app_name palette create_backup
                  reload_application) in
  let w' := snd (Applier._apply_to_application self w app_name palette create_backup
                   reload_application) in
  OS.isdir w output = false ->
  OS.isdir w backup_path = false ->
  backup_path <> output ->
  OS.parent_exists w backup_path = true ->
  (forall res, r = Ok res -> ThemeApplication.backup_created res = backup_made)
  /\ (backup_made = true ->
      exists old, StrDict.get (files w) output = Some old
                  /\ StrDict.get (files w') backup_path = Some old)
  /\ (backup_made = false ->
      forall p, p <> output -> StrDict.get (files w') p = StrDict.get (files w) p)
  /\ (create_backup = false ->
      forall res, r = Ok res -> ThemeApplication.backup_created res = false)
  /\ (OS.isdir w (OS.dirname output) = true ->
      (0 <= ApplicationConfig.reload_delay config)%Q ->
      exists res, r = Ok res).
Proof.
  intros Hcfg output backup_path backup_made r w' Hout Hbp Hne Hparent.
  subst r w'.
  rewrite (apply_to_application_unfold self w app_name palette create_backup
             reload_application config Hcfg).
  fold output. fold backup_path. fold backup_made.
  destruct (backup_path_name (backup_dir self) app_name (strftime_compact (now w)))
    as [Tb Sb]. fold backup_path in Tb, Sb.
  destruct backup_made eqn:C.
  - (* a backup is made *)
    unfold backup_made in C. apply andb_true_iff in C. destruct C as [Hcb Ex].
    unfold OS.exists_ in Ex. rewrite Hout, orb_false_r in Ex.
    apply andb_true_iff in Ex. destruct Ex as [To Ex].
    unfold FS.is_file, StrDict.mem in Ex.
    destruct (StrDict.get (files w) output) as [old|] eqn:Eold; [|discriminate].
    rewrite (copy2_ok w output backup_path old To Eold (not_eq_sym Hne) Tb Sb Hbp
               Hparent).
    set (w1 := OS.set_files w (StrDict.set (files w) backup_path old)).
    destruct (apply_after_backup_spec config app_name palette true w1
                reload_application) as (Fr & Res & _ & Dir).
    fold output in Fr, Dir.
    split; [intros res E; apply (Res res E)|].
    split.
    { intros _. exists old. split; [reflexivity|].
      rewrite (Fr backup_path Hne). apply strdict_get_set_same. }
    split; [discriminate|].
    split; [rewrite Hcb; discriminate|].
    intros D Hdelay.
    assert (D1 : OS.isdir w1 (OS.dirname output) = true)
      by (apply isdir_set_files_mono, D).
    destruct (Dir D1) as [_ K]. specialize (K Hdelay).
    destruct (fst (apply_after_backup config app_name palette true w1
                     reload_application)) as [res|e]; [|discriminate].
    exists res. reflexivity.
  - (* no backup *)
    destruct (apply_after_backup_spec config app_name palette false w
                reload_application) as (Fr & Res & _ & Dir).
    fold output in Fr, Dir.
    split; [intros res E; apply (Res res E)|].
    split; [discriminate|].
    split; [intros _; exact Fr|].
    split; [intros _ res E; apply (Res res E)|].
    intros D Hdelay. destruct (Dir D) as [_ K]. specialize (K Hdelay).
    destruct (fst (apply_after_backup config app_name palette false w
                     reload_application)) as [res|e]; [|discriminate].
    exists res. reflexivity.
Qed.

End ApplierTheorems.

Lemma backup_on_apply_witness :
  exists res,
    fst (@Applier._apply_to_application example_environment two_waybars first_run
           "waybar" example_palette true true) = Ok res
    /\ ThemeApplication.backup_created res = true
    /\ StrDict.get
         (files (snd (@Applier._apply_to_application example_environment two_waybars
                        first_run "waybar" example_palette true true)))
         "/c/backups/waybar_20240101_120000.backup"
       = Some {| content := "mine"; mtime := 50 |}.
Proof.
  destruct (@backup_on_apply example_environment two_waybars first_run
              "waybar" example_palette true true
              (ApplicationConfig.init "waybar" "waybar/colors.css.j2"
                 "/home/u/.config/waybar/colors.css" None None 2 true false))
    as (B & C & _ & _ & R).
  - reflexivity.
  - reflexivity.
  - reflexivity.
  - vm_compute. discriminate.
  - reflexivity.
  - destruct R as [res E]; [reflexivity|vm_compute; discriminate|].
    exists res. split; [exact E|]. split; [apply (B res E)|].
    destruct (C eq_refl) as (old & O & K).
    vm_compute in O. injection O as <-. exact K.
Defined.

(** An output path without a directory part: the backup is made, then
    [ensure_dir("")] raises, and [apply_theme] reports the failure. *)
Example apply_bare_output_path :
  @Applier._apply_to_application example_environment bare_output bare_output_world
    "kitty" example_palette true false
  = (Raise (FileNotFoundError ""),
     {| files := [("colors.conf", {| content := "mine"; mtime := 50 |});
                  ("/c/backups/kitty_20240101_120000.backup",
                   {| content := "mine"; mtime := 50 |})];
        dirs := ["/c"; "/c/backups"];
        now := 300 |}).
Proof. vm_compute. reflexivity. Qed.

Example apply_without_backup :
  match @Applier._apply_to_application example_environment two_waybars
          only_top_backed_up "waybar" example_palette false false with
  | (Ok res, w') =>
      ThemeApplication.backup_created res = false
      /\ map fst (files w')
         = ["/home/u/.config/waybar/colors.css"; "/home/u/.config/waybar/top.css";
            "/c/backups/waybar-top_20240101_120000.backup"]
  | (Raise _, _) => False
  end.
Proof. vm_compute. split; reflexivity. Qed.

(* --------------------------------------------------------------------- *)
(** ** Restoring backups *)
(* --------------------------------------------------------------------- *)

Lemma entries_without_directory (fs : FS.t) (d : string) :
  FS.is_dir fs d = false -> PyStr.truthy d = true ->
  flat_map (fun '(p, _) => match FS.entry_name d p with
                           | Some name => [name]
                           | None => []
                           end) fs = [].
Proof.
  unfold FS.is_dir. intros D T. rewrite T in D. cbn [andb] in D.
  induction fs as [|[p f] fs IH]; [reflexivity|].
  cbn [existsb] in D. apply orb_false_iff in D. destruct D as [U D].
  cbn [flat_map]. rewrite (IH D).
  destruct (FS.entry_name d p) as [n|] eqn:E; [|reflexivity].
  destruct (entry_name_spec _ _ _ E) as (_ & _ & _ & U'). congruence.
Qed.

(** [os.listdir] on a state lists what the files show; a directory that
    only [os.makedirs] knows is empty. *)
Lemma os_listdir_spec (w : World) (d : string) :
  match OS.listdir w d with
  | Ok names => FS.listdir (files w) d = Ok names
                \/ (names = [] /\ FS.is_dir (files w) d = false)
  | Raise _ => FS.is_dir (files w) d = false
  end.
Proof.
  unfold OS.listdir, FS.listdir.
  destruct (OS.isdir w d) eqn:D.
  - destruct (FS.is_dir (files w) d) eqn:F; [left; reflexivity|right].
    split; [|reflexivity].
    apply entries_without_directory; [exact F|apply (isdir_truthy w d D)].
  - unfold OS.isdir in D. apply orb_false_iff in D. destruct D as [D _].
    apply orb_false_iff in D. destruct D as [_ D]. exact D.
Qed.

Lemma exists_false_not_dir (w : World) (d : string) :
  OS.exists_ w d = false -> FS.is_dir (files w) d = false.
Proof.
  unfold OS.exists_, OS.isdir, FS.is_dir.
  destruct (PyStr.truthy d); [|reflexivity]. cbn [andb].
  intros H. apply orb_false_iff in H. destruct H as [_ H].
  apply orb_false_iff in H. destruct H as [H _].
  apply orb_false_iff in H. destruct H as [_ H]. exact H.
Qed.














Example restore_both_waybars :
  fst (Applier.restore_backups two_waybars only_top_backed_up None)
  = [("waybar", false); ("waybar-top", true)].
Proof. vm_compute. reflexivity. Qed.

(** When the directory of the output file is gone, the copy raises and the
    application is reported [False], its backup being there. *)
Example restore_without_output_directory :
  latest_backup two_waybars output_dir_gone "waybar-top"
  = Some "/c/backups/waybar-top_20240101_120000.backup"
  /\ Applier.restore_backups two_waybars output_dir_gone (Some ["waybar-top"])
     = ([("waybar-top", false)], output_dir_gone).
Proof. vm_compute. split; reflexivity. Qed.

(* --------------------------------------------------------------------- *)
(** ** Backup and restore together *)
(* --------------------------------------------------------------------- *)




Section RoundTrip.
Context {ENV : Environment}.



End RoundTrip.


(* --------------------------------------------------------------------- *)
(** ** apply_theme *)
(* --------------------------------------------------------------------- *)


Section ApplyTheme.
Context {ENV : Environment} {JSON : JsonLib}.

(** The names [apply_theme] works on. *)
Lemma apply_to_application_app_name (self : ThemeApplier) (w : World)
    (app_name : string) (palette : ColorPalette) (cb ra : bool)
    (r : ThemeApplication.t) (w' : World) :
  Applier._apply_to_application self w app_name palette cb ra = (Ok r, w') ->
  ThemeApplication.app_name r = app_name.
Proof.
  destruct (StrDict.get (applications self) app_name) as [config|] eqn:Hcfg.
  - rewrite (apply_to_application_unfold self w app_name palette cb ra config Hcfg).
    destruct (cb && OS.exists_ w (ApplicationConfig.output_path config))%bool.
    + destruct (OS.copy2 w _ _) as [w1|e]; [|discriminate].
      intros E.
      destruct (apply_after_backup_spec config app_name palette true w1 ra)
        as (_ & Res & _).
      rewrite E in Res. apply (Res r eq_refl).
    + intros E.
      destruct (apply_after_backup_spec config app_name palette false w ra)
        as (_ & Res & _).
      rewrite E in Res. apply (Res r eq_refl).
  - unfold Applier._apply_to_application, StrDict.getitem. rewrite Hcfg. discriminate.
Qed.

Lemma apply_loop_spec (self : ThemeApplier) (palette : ColorPalette) (cb ra : bool)
    (apps : list string) :
  forall (w : World) (results : StrDict.t ThemeApplication.t),
    let res := fst (Applier2.apply_loop self w palette apps cb ra results) in
    (forall k, StrDict.mem res k = true <-> StrDict.mem results k = true \/ In k apps)
    /\ ((forall k r, StrDict.get results k = Some r -> ThemeApplication.app_name r = k) ->
        forall k r, StrDict.get res k = Some r -> ThemeApplication.app_name r = k)
    /\ (forall k, StrDict.mem (applications self) k = false ->
                  StrDict.get results k = Some (Applier2.unknown_application k)
                  \/ In k apps ->
                  StrDict.get res k = Some (Applier2.unknown_application k)).
Proof.
  induction apps as [|app rest IH]; intros w results; cbn [Applier2.apply_loop].
  - cbn [fst]. split; [|split].
    + intros k. cbn [In]. tauto.
    + auto.
    + intros k _ [H|[]]. exact H.
  - assert (Step : forall v w1,
               (ThemeApplication.app_name v = app) ->
               (StrDict.mem (applications self) app = false ->
                v = Applier2.unknown_application app) ->
               let res := fst (Applier2.apply_loop self w1 palette rest cb ra
                                 (StrDict.set results app v)) in
               (forall k, StrDict.mem res k = true
                          <-> StrDict.mem results k = true \/ In k (app :: rest))
               /\ ((forall k r, StrDict.get results k = Some r ->
                                ThemeApplication.app_name r = k) ->
                   forall k r, StrDict.get res k = Some r ->
                               ThemeApplication.app_name r = k)
               /\ (forall k, StrDict.mem (applications self) k = false ->
                             StrDict.get results k
                             = Some (Applier2.unknown_application k)
                             \/ In k (app :: rest) ->
                             StrDict.get res k
                             = Some (Applier2.unknown_application k))).
    { intros v w1 Hname Hunk res.
      destruct (IH w1 (StrDict.set results app v)) as (K & N & U). fold res in K, N, U.
      split; [|split].
      - intros k. rewrite K, strdict_mem_set. cbn [In].
        destruct (String.eqb_spec app k) as [->|Ne]; cbn [orb].
        + intuition.
        + intuition congruence.
      - intros Hres. apply N. intros k r.
        destruct (String.eqb_spec app k) as [<-|Ne].
        + rewrite strdict_get_set_same. intros E. inversion E. subst r. exact Hname.
        + rewrite strdict_get_set_other by exact Ne. apply Hres.
      - intros k Hk Hin. apply U; [exact Hk|].
        destruct (String.eqb_spec app k) as [<-|Ne].
        + left. rewrite strdict_get_set_same, (Hunk Hk). reflexivity.
        + rewrite strdict_get_set_other by exact Ne.
          destruct Hin as [H|[H|H]]; [left; exact H|congruence|right; exact H]. }
    destruct (StrDict.mem (applications self) app) eqn:M; cbn [negb].
    + destruct (Applier._apply_to_application self w app palette cb ra)
        as [[r|e] w1] eqn:E.
      * apply Step; [|congruence].
        exact (apply_to_application_app_name _ _ _ _ _ _ _ _ E).
      * apply Step; [reflexivity|congruence].
    + apply Step; [reflexivity|reflexivity].
Qed.


(** [apply_theme] reports on exactly the requested applications (the
    enabled ones when none are given): the result has an entry for a name
    if and only if it was requested, every entry carries its own name,
    and a requested name that is not configured gets the failed entry
    "Unknown application: <name>" instead of an exception. *)
Theorem apply_theme_reports_requested (self : ThemeApplier) (w : World)
    (palette : ColorPalette) (apps : option (list string))
    (create_backup reload_applications : bool) :
  let requested := Applier2.requested_applications self apps in
  let results := fst (Applier2.apply_theme self w palette apps create_backup
                        reload_applications) in
  (forall app, StrDict.mem results app = true <-> In app requested)
  /\ (forall app r, StrDict.get results app = Some r ->
                    ThemeApplication.app_name r = app)
  /\ (forall app, In app requested ->
                  StrDict.mem (applications self) app = false ->
                  StrDict.get results app
                  = Some {| ThemeApplication.app_name := app;
                            ThemeApplication.success := false;
                            ThemeApplication.output_path := "";
                            ThemeApplication.backup_created := false;
                            ThemeApplication.reloaded := false;
                            ThemeApplication.error :=
                              Some ("Unknown application: " ++ app);
                            ThemeApplication.reload_output := None |}).
Proof.
  intros requested results.
  assert (R : results
              = fst (Applier2.apply_loop self w palette requested create_backup
                       reload_applications [])).
  { unfold results, Applier2.apply_theme. fold requested.
    destruct (Applier2.apply_loop self w palette requested create_backup
                reload_applications []) as [res w1]. reflexivity. }
  destruct (apply_loop_spec self palette create_backup reload_applications requested
              w []) as (K & N & U).
  rewrite <- R in K, N, U.
  split; [|split].
  - intros app. rewrite K. cbn. intuition discriminate.
  - apply N. intros k r H. discriminate H.
  - intros app Hin Hunk. apply (U app Hunk). right. exact Hin.
Qed.


Lemma apply_to_application_no_backup_frame (self : ThemeApplier) (w : World)
    (app_name : string) (palette : ColorPalette) (ra : bool) (p : string) :
  (forall config, StrDict.get (applications self) app_name = Some config ->
                  p <> ApplicationConfig.output_path config) ->
  StrDict.get (files (snd (Applier._apply_to_application self w app_name palette
                             false ra))) p
  = StrDict.get (files w) p.
Proof.
  intros Hp.
  destruct (StrDict.get (applications self) app_name) as [config|] eqn:Hcfg.
  - rewrite (apply_to_application_unfold self w app_name palette false ra config Hcfg).
    cbn [andb].
    destruct (apply_after_backup_spec config app_name palette false w ra) as (Fr & _).
    apply Fr, Hp. reflexivity.
  - unfold Applier._apply_to_application, StrDict.getitem. rewrite Hcfg. reflexivity.
Qed.

Lemma apply_loop_no_backup_frame (self : ThemeApplier) (palette : ColorPalette)
    (ra : bool) (p : string) (apps : list string) :
  (forall app config, In app apps ->
                      StrDict.get (applications self) app = Some config ->
                      p <> ApplicationConfig.output_path config) ->
  forall (w : World) (results : StrDict.t ThemeApplication.t),
    StrDict.get (files (snd (Applier2.apply_loop self w palette apps false ra
                               results))) p
    = StrDict.get (files w) p.
Proof.
  induction apps as [|app rest IH]; intros Hp w results; cbn [Applier2.apply_loop].
  - reflexivity.
  - assert (Hrest : forall app' config, In app' rest ->
                      StrDict.get (applications self) app' = Some config ->
                      p <> ApplicationConfig.output_path config)
      by (intros app' config H; apply Hp; right; exact H).
    destruct (negb (StrDict.mem (applications self) app)); [apply IH, Hrest|].
    pose proof (apply_to_application_no_backup_frame self w app palette ra p
                  (fun config => Hp app config (or_introl eq_refl))) as F.
    destruct (Applier._apply_to_application self w app palette false ra)
      as [[r|e] w1]; cbn [snd] in F; rewrite IH by exact Hrest; exact F.
Qed.

(** Without backups, [apply_theme] touches nothing but the output files of
    the requested, configured applications and its own record
    [last_application.json]: every other file, existing backups included,
    is as before. *)
Theorem apply_theme_without_backup_frame (self : ThemeApplier) (w : World)
    (palette : ColorPalette) (apps : option (list string))
    (reload_applications : bool) (p : string) :
  let requested := Applier2.requested_applications self apps in
  let w' := snd (Applier2.apply_theme self w palette apps false reload_applications) in
  p <> Path.join (config_dir self) "last_application.json" ->
  (forall app config, In app requested ->
                      StrDict.get (applications self) app = Some config ->
                      p <> ApplicationConfig.output_path config) ->
  StrDict.get (files w') p = StrDict.get (files w) p.
Proof.
  intros requested w' Hrec Hout. unfold w', Applier2.apply_theme. fold requested.
  pose proof (apply_loop_no_backup_frame self palette reload_applications p requested
                Hout w []) as F.
  destruct (Applier2.apply_loop self w palette requested false reload_applications [])
    as [results w1]. cbn [snd] in *.
  unfold Applier2._save_application_record.
  match goal with
  | |- context [OS.write w1 ?path ?data] =>
      pose proof (write_spec w1 path data) as Wr;
      destruct (OS.write w1 path data) as [w2|e]
  end; [|exact F].
  destruct Wr as [_ ->]. cbn [files OS.set_files].
  rewrite strdict_get_set_other by congruence. exact F.
Qed.

(** The record [apply_theme] leaves in [last_application.json] is the dump
    of exactly the results it returns, stamped with the time at which it
    finished; only if that path is a directory, or its directory is
    missing, is no record written (and no exception raised). *)
Theorem apply_theme_saves_record (self : ThemeApplier) (w : World)
    (palette : ColorPalette) (apps : option (list string))
    (create_backup reload_applications : bool) :
  let results := fst (Applier2.apply_theme self w palette apps create_backup
                        reload_applications) in
  let w' := snd (Applier2.apply_theme self w palette apps create_backup
                   reload_applications) in
  let record_path := Path.join (config_dir self) "last_application.json" in
  OS.isdir w' record_path = false ->
  OS.parent_exists w' record_path = true ->
  StrDict.get (files w') record_path
  = Some {| content := json_dump_record (isoformat (now w')) palette results;
            mtime := now w' |}.
Proof.
  intros results w' record_path. unfold results, w', Applier2.apply_theme.
  destruct (Applier2.apply_loop self w palette
              (Applier2.requested_applications self apps) create_backup
              reload_applications []) as [res w1].
  cbn [fst snd]. unfold Applier2._save_application_record. fold record_path.
  destruct (record_path_name (config_dir self)) as [T S]. fold record_path in T, S.
  pose proof (write_spec w1 record_path
                (json_dump_record (isoformat (now w1)) palette res)) as Wr.
  destruct (OS.write w1 record_path _) as [w2|e].
  - destruct Wr as [_ ->]. intros _ _. cbn [files now OS.set_files].
    apply strdict_get_set_same.
  - intros D P. exfalso. apply Wr. apply open_for_writing_ok; assumption.
Qed.

End ApplyTheme.

Lemma apply_theme_without_backup_frame_witness :
  StrDict.get
    (files (snd (@Applier2.apply_theme example_environment example_json two_waybars
                   only_top_backed_up example_palette (Some ["waybar"; "nosuch"])
                   false true)))
    "/c/backups/waybar-top_20240101_120000.backup"
  = Some {| content := "old top"; mtime := 100 |}.
Proof.
  apply (@apply_theme_without_backup_frame example_environment example_json
           two_waybars only_top_backed_up example_palette
           (Some ["waybar"; "nosuch"]) true
           "/c/backups/waybar-top_20240101_120000.backup").
  - vm_compute. discriminate.
  - intros app config [<-|[<-|[]]] H; vm_compute in H; inversion H;
      vm_compute; discriminate.
Defined.

Lemma apply_theme_saves_record_witness :
  StrDict.get
    (files (snd (@Applier2.apply_theme example_environment example_json two_waybars
                   only_top_backed_up example_palette None true true)))
    "/c/last_application.json"
  = Some {| content := "{timestamp: 2024-01-01T12:00:00}"; mtime := 304 |}.
Proof.
  apply (@apply_theme_saves_record example_environment example_json two_waybars
           only_top_backed_up example_palette None true true);
    vm_compute; reflexivity.
Defined.

(* --------------------------------------------------------------------- *)
(** ** list_backups *)
(* --------------------------------------------------------------------- *)

Lemma split_spec (sep : ascii) (s : string) :
  (PyStr.contains sep s = false /\ PyStr2.split sep s = [s])
  \/ (exists p r, s = p ++ String sep r /\ PyStr.contains sep p = false
                  /\ PyStr2.split sep s = p :: PyStr2.split sep r).
Proof.
  induction s as [|c s IH]; cbn [PyStr2.split PyStr.contains].
  - left. split; reflexivity.
  - destruct (Ascii.eqb_spec c sep) as [->|N]; cbn [orb].
    + right. exists EmptyString, s. repeat split.
    + destruct IH as [[C S]|(p & r & E & C & S)].
      * left. rewrite S. split; [exact C|reflexivity].
      * right. exists (String c p), r. rewrite S, E. cbn [append PyStr.contains].
        destruct (Ascii.eqb_spec c sep) as [|_]; [contradiction|].
        repeat split. exact C.
Qed.

Lemma split_not_nil (sep : ascii) (s : string) : PyStr2.split sep s <> [].
Proof.
  destruct (split_spec sep s) as [[_ S]|(p & r & _ & _ & S)]; rewrite S; discriminate.
Qed.

Lemma startswith_inv (s pre : string) :
  PyStr.startswith s pre = true -> exists r, s = pre ++ r.
Proof.
  unfold PyStr.startswith. revert s.
  induction pre as [|a pre IH]; intros s; cbn [PyStr.strip_prefix append].
  - intros _. exists s. reflexivity.
  - destruct s as [|b s]; [discriminate|].
    destruct (Ascii.eqb_spec a b) as [->|N]; [|discriminate].
    intros H. destruct (IH s H) as [r ->]. exists r. reflexivity.
Qed.

Lemma first_separator_unique (sep : ascii) (a : string) :
  forall a' r r',
    PyStr.contains sep a = false -> PyStr.contains sep a' = false ->
    a ++ String sep r = a' ++ String sep r' -> a = a'.
Proof.
  induction a as [|c a IH]; intros [|c' a'] r r'; cbn [append PyStr.contains];
    intros C C' E.
  - reflexivity.
  - inversion E. subst c'. rewrite Ascii.eqb_refl in C'. discriminate.
  - inversion E. subst c. rewrite Ascii.eqb_refl in C. discriminate.
  - inversion E. subst c'. apply orb_false_iff in C, C'.
    f_equal. apply (IH a' r r'); tauto.
Qed.

Lemma listed_under_key (app_name filename : string) :
  listed_under app_name filename = true -> PyStr.contains "_" app_name = false.
Proof.
  unfold listed_under. intros H. apply andb_true_iff in H. destruct H as [_ H].
  destruct (split_spec "_" filename) as [[_ S]|(p & r & _ & C & S)];
    rewrite S in H.
  - discriminate.
  - destruct (PyStr2.split "_" r); [discriminate|].
    apply String.eqb_eq in H. subst p. exact C.
Qed.

(** For a name without underscore, [list_backups] and [_find_latest_backup]
    select the same directory entries. *)
Lemma listed_under_is_backup_of (app_name filename : string) :
  PyStr.contains "_" app_name = false ->
  listed_under app_name filename = Applier.is_backup_of app_name filename.
Proof.
  intros Capp. unfold listed_under, Applier.is_backup_of.
  rewrite andb_comm. f_equal.
  destruct (split_spec "_" filename) as [[C S]|(p & r & E & C & S)]; rewrite S.
  - destruct (PyStr.startswith filename (app_name ++ "_")) eqn:St; [|reflexivity].
    apply startswith_inv in St. destruct St as [r ->].
    rewrite !contains_append in C. cbn in C.
    rewrite orb_true_r in C. discriminate.
  - pose proof (split_not_nil "_" r) as Nn.
    destruct (PyStr2.split "_" r) as [|q qs]; [contradiction|].
    destruct (String.eqb_spec p app_name) as [->|Ne].
    + rewrite E.
      change (app_name ++ String "_" r) with (app_name ++ ("_" ++ r)).
      symmetry.
      replace (app_name ++ ("_" ++ r)) with ((app_name ++ "_") ++ r).
      * apply startswith_append.
      * clear. induction app_name as [|c a IH]; cbn [append]; [reflexivity|].
        rewrite IH. reflexivity.
    + destruct (PyStr.startswith filename (app_name ++ "_")) eqn:St; [|reflexivity].
      apply startswith_inv in St. destruct St as [r' E'].
      exfalso. apply Ne. symmetry.
      apply (first_separator_unique "_" app_name p r' r Capp C).
      rewrite <- E, E'. clear.
      induction app_name as [|c a IH]; cbn [append]; [reflexivity|].
      rewrite IH. reflexivity.
Qed.

Lemma strdict_mem_get {V} (d : StrDict.t V) (k : string) :
  StrDict.mem d k = match StrDict.get d k with Some _ => true | None => false end.
Proof. reflexivity. Qed.

Lemma list_backups_loop_spec (self : ThemeApplier) (fs : FS.t)
    (filenames : list string) :
  (forall n, In n filenames ->
     exists f, StrDict.get fs (Path.join (backup_dir self) n) = Some f) ->
  forall backups,
  exists res,
    Applier2.list_backups_loop self fs filenames backups = Ok res
    /\ forall k, StrDict.get res k
                 = appended (StrDict.get backups k)
                     (listed_entries self fs k filenames).
Proof.
  induction filenames as [|n rest IH]; intros Hex backups;
    cbn [Applier2.list_backups_loop].
  - exists backups. split; [reflexivity|]. intros k. cbn.
    destruct (StrDict.get backups k) as [l|]; cbn; [rewrite app_nil_r|]; reflexivity.
  - assert (Hrest : forall m, In m rest ->
               exists f, StrDict.get fs (Path.join (backup_dir self) m) = Some f)
      by (intros m Hm; apply Hex; right; exact Hm).
    unfold listed_entries. cbn [flat_map]. fold (listed_entries self fs).
    unfold listed_under at 1.
    destruct (PyStr.endswith n ".backup"); cbn [negb andb].
    2:{ destruct (IH Hrest backups) as (res & E & G). exists res.
        split; [exact E|]. intros k. rewrite G. reflexivity. }
    destruct (PyStr2.split "_" n) as [|p [|q qs]] eqn:S.
    { destruct (IH Hrest backups) as (res & E & G). exists res.
      split; [exact E|]. intros k. rewrite G. reflexivity. }
    { destruct (IH Hrest backups) as (res & E & G). exists res.
      split; [exact E|]. intros k. rewrite G. reflexivity. }
    change (List.length (p :: q :: qs) <? 2)%nat with false. cbv iota.
    cbn [PyList.index nth_error bind].
    destruct (Hex n (or_introl eq_refl)) as [f Hf].
    cbv zeta. unfold FS.getmtime. rewrite !Hf. cbn [bind].
    set (bp := Path.join (backup_dir self) n).
    set (created := if negb (StrDict.mem backups p)
                    then StrDict.set backups p [] else backups).
    set (old := match StrDict.get backups p with Some l => l | None => [] end).
    assert (Hc : StrDict.getitem created p = Ok old).
    { unfold created, old, StrDict.getitem, StrDict.mem.
      destruct (StrDict.get backups p) as [l|] eqn:G; cbn [negb].
      - rewrite G. reflexivity.
      - rewrite strdict_get_set_same. reflexivity. }
    rewrite Hc. cbn [bind].
    destruct (IH Hrest (StrDict.set created p (old ++ [(bp, mtime f)])%list))
      as (res & E & G).
    exists res. split; [exact E|]. intros k. rewrite G.
    destruct (String.eqb_spec p k) as [->|Ne].
    + rewrite strdict_get_set_same. cbv iota.
      unfold old. destruct (StrDict.get backups k) as [l|]; cbn [appended app].
      * rewrite <- app_assoc. reflexivity.
      * reflexivity.
    + rewrite strdict_get_set_other by exact Ne.
      cbv iota.
      replace (StrDict.get created k) with (StrDict.get backups k).
      * reflexivity.
      * unfold created. destruct (negb (StrDict.mem backups p)); [|reflexivity].
        rewrite strdict_get_set_other by exact Ne. reflexivity.
Qed.

Lemma listed_entries_backup_entries (self : ThemeApplier) (w : World)
    (app_name : string) (filenames : list string) :
  PyStr.contains "_" app_name = false ->
  FS.listdir (files w) (backup_dir self) = Ok filenames ->
  listed_entries self (files w) app_name filenames = backup_entries self w app_name.
Proof.
  intros C L. unfold listed_entries, backup_entries. rewrite L.
  apply flat_map_ext. intros n. rewrite (listed_under_is_backup_of _ _ C). reflexivity.
Qed.

Lemma listed_entries_key (self : ThemeApplier) (fs : FS.t) (k : string)
    (filenames : list string) :
  listed_entries self fs k filenames <> [] -> PyStr.contains "_" k = false.
Proof.
  unfold listed_entries. induction filenames as [|n rest IH]; cbn [flat_map].
  - intros H. contradiction.
  - destruct (listed_under k n) eqn:U.
    + intros _. exact (listed_under_key _ _ U).
    + exact IH.
Qed.

Lemma strdict_get_map_values {V W} (f : V -> W) (d : StrDict.t V) (k : string) :
  StrDict.get (map (fun '(k', v) => (k', f v)) d) k = option_map f (StrDict.get d k).
Proof.
  induction d as [|[k' v] d IH]; cbn [map StrDict.get option_map]; [reflexivity|].
  destruct (String.eqb k' k); [reflexivity|exact IH].
Qed.

Lemma sort_by_desc_not_nil {A} (key : A -> Q) (l : list A) :
  l <> [] -> PyList.sort_by_desc key l <> [].
Proof. intros N E. apply N. exact (sort_by_desc_nil key l E). Qed.

(** [list_backups] succeeds whenever the backup directory is missing or is
    a directory.  No key of its result contains an underscore, and under
    an application name without underscore it lists exactly the backups
    that [_find_latest_backup] considers for that application, most
    recent first (no key when there are none). *)
Theorem list_backups_by_application (self : ThemeApplier) (w : World) :
  FS.exists_ (files w) (backup_dir self) = false
  \/ FS.is_dir (files w) (backup_dir self) = true ->
  exists res,
    Applier2.list_backups self w = Ok res
    /\ (forall k, StrDict.mem res k = true -> PyStr.contains "_" k = false)
    /\ (forall app_name,
          PyStr.contains "_" app_name = false ->
          StrDict.get res app_name
          = match backup_entries self w app_name with
            | [] => None
            | (_ :: _) as entries => Some (PyList.sort_by_desc snd entries)
            end).
Proof.
  intros H. unfold Applier2.list_backups.
  assert (Empty : exists res : StrDict.t (list (string * Q)),
             Ok [] = Ok res
             /\ (forall k, StrDict.mem res k = true -> PyStr.contains "_" k = false)
             /\ (FS.is_dir (files w) (backup_dir self) = false ->
                 forall app_name,
                   PyStr.contains "_" app_name = false ->
                   StrDict.get res app_name
                   = match backup_entries self w app_name with
                     | [] => None
                     | (_ :: _) as entries => Some (PyList.sort_by_desc snd entries)
                     end)).
  { exists []. split; [reflexivity|]. split; [intros k M; discriminate M|].
    intros D app_name _. unfold backup_entries, FS.listdir. rewrite D. reflexivity. }
  destruct (OS.exists_ w (backup_dir self)) eqn:Ex; cbn [negb].
  - pose proof (os_listdir_spec w (backup_dir self)) as L.
    destruct (OS.listdir w (backup_dir self)) as [names|e] eqn:OL; cbn [bind].
    + destruct L as [L|[-> D]].
      * destruct (list_backups_loop_spec self (files w) names
                    (fun n Hn => proj2 (listdir_entries _ _ _ _ L Hn)) [])
          as (res & E & G).
        rewrite E. cbn [bind]. eexists. split; [reflexivity|]. split.
        -- intros k. unfold StrDict.mem. rewrite strdict_get_map_values, G.
           cbn [StrDict.get appended].
           destruct (listed_entries self (files w) k names) eqn:Le; [discriminate|].
           intros _. apply (listed_entries_key self (files w) k names).
           rewrite Le. discriminate.
        -- intros app_name C. rewrite strdict_get_map_values, G.
           rewrite (listed_entries_backup_entries self w app_name names C L).
           cbn [StrDict.get appended].
           destruct (backup_entries self w app_name); reflexivity.
      * cbn [Applier2.list_backups_loop bind map].
        destruct Empty as (res & E & K & G). exists res. split; [exact E|].
        split; [exact K|exact (G D)].
    + exfalso. unfold OS.listdir in OL.
      destruct (OS.isdir w (backup_dir self)) eqn:D; [discriminate|].
      unfold OS.exists_ in Ex. rewrite D, orb_false_r in Ex.
      apply andb_true_iff in Ex. destruct Ex as [_ Ex].
      destruct H as [H|H].
      * unfold FS.exists_ in H. rewrite Ex in H. discriminate.
      * unfold OS.isdir in D. rewrite H, orb_true_r in D. discriminate.
  - destruct Empty as (res & E & K & G). exists res. split; [exact E|].
    split; [exact K|]. apply G. apply (exists_false_not_dir w _ Ex).
Qed.

(** For an application name without underscore, the first backup that
    [list_backups] lists is the one [_find_latest_backup] returns (and
    there is no key exactly when it returns None). *)
Theorem list_backups_head_is_latest (self : ThemeApplier) (w : World)
    (app_name : string) (res : StrDict.t (list (string * Q))) :
  PyStr.contains "_" app_name = false ->
  Applier2.list_backups self w = Ok res ->
  Applier._find_latest_backup self w app_name
  = Ok match StrDict.get res app_name with
       | Some ((backup_path, _) :: _) => Some backup_path
       | _ => None
       end.
Proof.
  intros C. unfold Applier2.list_backups, Applier._find_latest_backup.
  destruct (OS.exists_ w (backup_dir self)) eqn:Ex; cbn [negb].
  - pose proof (os_listdir_spec w (backup_dir self)) as L.
    destruct (OS.listdir w (backup_dir self)) as [names|e]; [|discriminate].
    cbn [bind].
    destruct L as [L|[-> D]].
    + destruct (list_backups_loop_spec self (files w) names
                  (fun n Hn => proj2 (listdir_entries _ _ _ _ L Hn)) [])
        as (res0 & E & G).
      rewrite E. cbn [bind]. intros [= <-].
      rewrite collect_backups_entries
        by (intros n Hn; apply (listdir_entries _ _ _ _ L Hn)).
      cbn [bind]. rewrite strdict_get_map_values, G.
      cbn [StrDict.get appended]. unfold listed_entries.
      rewrite (flat_map_ext _ _ (fun n => f_equal (fun c : bool => if c then _ else [])
                                   (listed_under_is_backup_of app_name n C))).
      match goal with |- context [PyList.sort_by_desc snd ?l] => set (entries := l) end.
      destruct entries as [|x xs] eqn:En; [reflexivity|]. cbn [option_map].
      destruct (PyList.sort_by_desc snd (x :: xs)) as [|[bp m] t]; reflexivity.
    + cbn [Applier2.list_backups_loop Applier.collect_backups bind map].
      intros [= <-]. reflexivity.
  - intros [= <-]. reflexivity.
Qed.

Lemma list_backups_by_application_witness :
  exists res,
    Applier2.list_backups two_waybars only_top_backed_up = Ok res
    /\ StrDict.get res "waybar-top"
       = Some [("/c/backups/waybar-top_20240101_120000.backup", 100%Q)]
    /\ StrDict.get res "waybar" = None.
Proof.
  destruct (list_backups_by_application two_waybars only_top_backed_up)
    as (res & E & _ & G).
  - right. reflexivity.
  - exists res. split; [exact E|].
    rewrite (G "waybar-top" eq_refl), (G "waybar" eq_refl). split; reflexivity.
Defined.

Lemma list_backups_head_is_latest_witness :
  Applier._find_latest_backup two_waybars only_top_backed_up "waybar-top"
  = Ok (Some "/c/backups/waybar-top_20240101_120000.backup").
Proof.
  apply (list_backups_head_is_latest two_waybars only_top_backed_up "waybar-top"
           [("waybar-top", [("/c/backups/waybar-top_20240101_120000.backup", 100%Q)])]);
    reflexivity.
Defined.

(* --------------------------------------------------------------------- *)
(** ** convert_numpy_types *)
(* --------------------------------------------------------------------- *)







(** Where [convert_numpy_types] does not look. *)
Example convert_numpy_types_keys_and_objects :
  Numpy2.convert_numpy_types
    (VDict [(NpInteger 1, NpObjectArray (NdNested [NdItem (NpInteger 3)]))])
  = VDict [(NpInteger 1, VList [NpInteger 3])]
  /\ Numpy2.convert_numpy_types (VDict [(NpInteger 1, VList [NpInteger 3])])
     = VDict [(NpInteger 1, VList [VInt 3])].
Proof. split; reflexivity. Qed.
